(** * The API gateway of gateway/src/gateway.js, embedded in Rocq

    The gateway is an Express application: a chain of middleware (security
    headers, request id and access log, rate limiter on [/api], JSON body
    parser) in front of one handler, [proxyRequest], which forwards the
    request to a single backend with axios and relays the answer.

    The embedding follows the source statement by statement.  JavaScript
    objects used as dictionaries are finite maps, the mutable response
    object and the console live in an explicit state, and exceptions are
    the error half of a state-and-exception monad. *)

From Stdlib Require Import ZArith Ascii String List.
From stdpp Require Import base option gmap strings list fin_maps pretty.

Local Open Scope string_scope.
Local Open Scope Z_scope.

(** ** JavaScript values *)

Module JS.

(** A value read from an object that may lack it: [None] is [undefined]. *)
Definition truthy_str (o : option string) : bool :=
  match o with
  | Some s => negb (String.eqb s "")
  | None => false
  end.

(** [a || b] on possibly undefined strings. *)
Definition or (a b : option string) : option string :=
  if truthy_str a then a else b.

(** [a || 'literal'], whose result is always a string. *)
Definition or_default (a : option string) (d : string) : string :=
  match a with
  | Some s => if String.eqb s "" then d else s
  | None => d
  end.

(** ASCII lower-casing, as Node applies it to header names. *)
Definition lower_ascii (c : ascii) : ascii :=
  let n := nat_of_ascii c in
  if (Nat.leb 65 n && Nat.leb n 90)%bool then ascii_of_nat (n + 32) else c.

Fixpoint toLowerCase (s : string) : string :=
  match s with
  | EmptyString => EmptyString
  | String c r => String (lower_ascii c) (toLowerCase r)
  end.

(** Structured data: what [JSON.parse] yields and [JSON.stringify] takes.
    A number is an integer that a double holds exactly and that
    [JSON.stringify] prints in plain decimal (its magnitude is below 2^53):
    a status, a duration, a port.  Fractions and larger numbers, which
    JavaScript prints differently, are outside the model.  Object fields
    keep their insertion order. *)
#[local] Unset Elimination Schemes.
Inductive json : Type :=
  | JNull
  | JBool (b : bool)
  | JNum (n : Z)
  | JStr (s : string)
  | JArr (items : list json)
  | JObj (fields : list (string * json)).
#[local] Set Elimination Schemes.

(** Truthiness of a value, for [v && ...]. *)
Definition truthy (v : json) : bool :=
  match v with
  | JNull => false
  | JBool b => b
  | JNum n => negb (n =? 0)
  | JStr s => negb (String.eqb s "")
  | JArr _ | JObj _ => true
  end.

(** [Object.keys(v)]: the field names of an object, the indices of an
    array or of a string, nothing for the other primitives. *)
Definition Object_keys (v : json) : list string :=
  match v with
  | JObj fs => map fst fs
  | JArr l => map (fun i : nat => pretty i) (seq 0 (length l))
  | JStr s => map (fun i : nat => pretty i) (seq 0 (String.length s))
  | _ => []
  end.

(** Field access [o.k] on a structured value. *)
Fixpoint assoc (k : string) (fs : list (string * json)) : option json :=
  match fs with
  | [] => None
  | (k', v) :: r => if String.eqb k k' then Some v else assoc k r
  end.

Definition get (k : string) (v : json) : option json :=
  match v with
  | JObj fs => assoc k fs
  | _ => None
  end.

(** An object literal some of whose fields may be [undefined]:
    [JSON.stringify] leaves those fields out. *)
Definition object (fs : list (string * option json)) : json :=
  JObj (omap (fun '(k, o) => match o with Some v => Some (k, v) | None => None end) fs).

(** *** JSON.stringify *)

Definition hex_digit (n : nat) : ascii :=
  if Nat.ltb n 10 then ascii_of_nat (48 + n) else ascii_of_nat (87 + n).

(** The double quote (code 34) and the backslash (code 92). *)
Definition dquote : ascii := ascii_of_nat 34.
Definition backslash : ascii := ascii_of_nat 92.

Definition escape_char (c : ascii) : string :=
  let n := nat_of_ascii c in
  if Nat.eqb n 34 then String backslash (String dquote "")
  else if Nat.eqb n 92 then String backslash (String backslash "")
  else if Nat.eqb n 8 then String backslash "b"
  else if Nat.eqb n 12 then String backslash "f"
  else if Nat.eqb n 10 then String backslash "n"
  else if Nat.eqb n 13 then String backslash "r"
  else if Nat.eqb n 9 then String backslash "t"
  else if Nat.ltb n 32 then
    String backslash
      ("u00" ++ String (hex_digit (Nat.div n 16)) (String (hex_digit (Nat.modulo n 16)) ""))
  else String c "".

Fixpoint escape (s : string) : string :=
  match s with
  | EmptyString => EmptyString
  | String c r => escape_char c ++ escape r
  end.

Definition quote (s : string) : string :=
  String dquote (escape s ++ String dquote "").

Fixpoint join (sep : string) (l : list string) : string :=
  match l with
  | [] => ""
  | [x] => x
  | x :: r => x ++ sep ++ join sep r
  end.

Fixpoint stringify (v : json) : string :=
  match v with
  | JNull => "null"
  | JBool true => "true"
  | JBool false => "false"
  | JNum n => pretty n
  | JStr s => quote s
  | JArr l => "[" ++ join "," (map stringify l) ++ "]"
  | JObj fs =>
      "{" ++ join "," (map (fun kv => quote (fst kv) ++ ":" ++ stringify (snd kv)) fs) ++ "}"
  end.

(** The numbers of a value are safe integers, of a magnitude below 2^53:
    for these [JSON.stringify] prints what [stringify] prints. *)
Fixpoint safe_integers (v : json) : bool :=
  match v with
  | JNum n => Z.abs n <? 2 ^ 53
  | JArr l => forallb safe_integers l
  | JObj fs => forallb (fun kv => safe_integers (snd kv)) fs
  | _ => true
  end.

End JS.

Import JS.

(** ** HTTP messages *)

(** Header names are case-insensitive; Node stores the headers of an
    incoming message and of an outgoing response under lower-cased names. *)
Abbreviation Headers := (gmap string string).

(** The request as Node and Express present it to the first middleware. *)
Record IncomingMessage := {
  method : string;
  url : string;                 (* path and query string, as received *)
  originalUrl : string;
  headers : Headers;            (* req.headers, names in lower case *)
  query : list (string * string);   (* req.query, parsed from the query string;
                                       nested values are left out *)
  ip : option string;           (* req.ip *)
  connection_remoteAddress : option string;   (* req.connection?.remoteAddress *)
  socket_remoteAddress : option string;       (* req.socket?.remoteAddress *)
  protocol : option string;     (* req.protocol *)
}.

(** The request once the request-id middleware and [express.json()] have
    run: [req.requestId] is set, [req.body] holds what the parser left. *)
Record Request := {
  incoming :> IncomingMessage;
  requestId : string;
  body : option json;
}.

(** The response object [res] of Express.  [resBody] is the entity the
    response is ended with; in answer to a HEAD request only the headers are
    transmitted. *)
Record Response := {
  statusCode : Z;
  resHeaders : Headers;
  resBody : option string;      (* the entity written, once sent *)
  headersSent : bool;
}.

Definition fresh_response : Response :=
  {| statusCode := 200; resHeaders := ∅; resBody := None; headersSent := false |}.

(** The body of an upstream response as axios hands it over in
    [response.data]: the value it parsed from JSON text, or, when the body
    was not JSON text, the text itself. *)
Inductive Payload :=
  | Structured (v : json)
  | Text (raw : string).

(** Either way the handler holds a JavaScript value; a text is a string. *)
Definition value_of (d : Payload) : json :=
  match d with
  | Structured v => v
  | Text raw => JStr raw
  end.

(** What the backend answered. *)
Record UpstreamResponse := {
  status : Z;
  upHeaders : Headers;          (* response.headers, names in lower case *)
  data : Payload;
}.

(** A thrown JavaScript error, with the fields the handler reads. *)
Record Error := {
  isAxiosError : bool;          (* axios.isAxiosError(error) *)
  code : option string;
  message : string;
  stack : option string;
  response : option UpstreamResponse;
}.

(** The argument of the [axios(...)] call. *)
Record AxiosConfig := {
  cfg_method : string;
  cfg_url : string;
  cfg_params : list (string * string);
  cfg_data : option json;
  cfg_headers : gmap string (option string);   (* a value may be undefined *)
  cfg_timeout : Z;
  cfg_validateStatus : Z -> bool;
  cfg_maxContentLength : Z;
  cfg_maxBodyLength : Z;
}.

(** What the network does with one upstream request: the connection is
    established at once and then stays silent for [elapsed] milliseconds,
    after which the backend's answer has arrived or the transport has
    failed.  (A backend that sends its answer piecemeal, or a connection
    that is never established, is not covered.) *)
Inductive Attempt :=
  | Answered (r : UpstreamResponse)
  | Failed (e : Error).

Record Exchange := { attempt : Attempt; elapsed : Z }.

Abbreviation Backend := (AxiosConfig -> Exchange).

(** ** State and exceptions *)

Inductive Stream := Stdout | Stderr.

(** One fixed window of the rate limiter (see [apiLimiter]). *)
Record Window := { count : Z; windowStart : Z }.

(** Everything a request handler can read or change. *)
Record State := {
  clock : Z;                                  (* Date.now() *)
  console : list (Stream * json);             (* entries the gateway logged, oldest first *)
  res : Response;                             (* the response being built *)
  upstream : list AxiosConfig;                (* upstream requests issued *)
  passed_on : list Error;                     (* errors given to next(error) *)
  windows : gmap (option string) Window;      (* rate-limit store *)
}.

Inductive Result (A : Type) :=
  | Ok (a : A)
  | Throw (e : Error).
Arguments Ok {A} a.
Arguments Throw {A} e.

Definition M (A : Type) : Type := State -> Result A * State.

Definition ret {A} (a : A) : M A := fun s => (Ok a, s).

Definition bind {A B} (m : M A) (k : A -> M B) : M B :=
  fun s => match m s with
           | (Ok a, s') => k a s'
           | (Throw e, s') => (Throw e, s')
           end.

Definition throw {A} (e : Error) : M A := fun s => (Throw e, s).

(** [try { m } catch (error) { h error }]: the state changes made before
    the throw stay. *)
Definition try_catch {A} (m : M A) (h : Error -> M A) : M A :=
  fun s => match m s with
           | (Ok a, s') => (Ok a, s')
           | (Throw e, s') => h e s'
           end.

Declare Scope m_scope.
Delimit Scope m_scope with M.
Notation "x <- m ;; k" := (bind m (fun x => k))
  (at level 100, m at next level, right associativity) : m_scope.
Notation "m ;; k" := (bind m (fun _ => k))
  (at level 100, right associativity) : m_scope.
Local Open Scope m_scope.

Definition get_state : M State := fun s => (Ok s, s).
Definition modify (f : State -> State) : M unit := fun s => (Ok tt, f s).

(** The elementary changes of state. *)
Definition set_res (r : Response) (s : State) : State :=
  {| clock := clock s; console := console s; res := r; upstream := upstream s;
     passed_on := passed_on s; windows := windows s |}.

Definition slept (ms : Z) (s : State) : State :=
  {| clock := clock s + ms; console := console s; res := res s; upstream := upstream s;
     passed_on := passed_on s; windows := windows s |}.

Definition logged (out : Stream) (o : json) (s : State) : State :=
  {| clock := clock s; console := console s ++ [(out, o)]; res := res s;
     upstream := upstream s; passed_on := passed_on s; windows := windows s |}.

Definition issued (cfg : AxiosConfig) (s : State) : State :=
  {| clock := clock s; console := console s; res := res s;
     upstream := upstream s ++ [cfg]; passed_on := passed_on s; windows := windows s |}.

Definition handed_on (e : Error) (s : State) : State :=
  {| clock := clock s; console := console s; res := res s; upstream := upstream s;
     passed_on := passed_on s ++ [e]; windows := windows s |}.

Definition set_windows (ws : gmap (option string) Window) (s : State) : State :=
  {| clock := clock s; console := console s; res := res s; upstream := upstream s;
     passed_on := passed_on s; windows := ws |}.

Definition Date_now : M Z := fun s => (Ok (clock s), s).

(** Time passes while a call is awaited. *)
Definition sleep (ms : Z) : M unit := modify (slept ms).

(** [console.log(JSON.stringify(o))] and [console.error(JSON.stringify(o))]:
    the entry is the object whose serialisation is the line written. *)
Definition console_log (o : json) : M unit := modify (logged Stdout o).
Definition console_error (o : json) : M unit := modify (logged Stderr o).

(** [next(error)] hands the error to the enclosing error-handling layer. *)
Definition next_error (e : Error) : M unit := modify (handed_on e).

Fixpoint forEach {A} (l : list A) (f : A -> M unit) : M unit :=
  match l with
  | [] => ret tt
  | x :: r => f x ;; forEach r f
  end.

(** ** The surroundings *)

(** What the process finds around it at start-up: its environment
    variables, and the functions of the runtime and of the installed
    packages that the model does not spell out. *)
Record Env := {
  GATEWAY_PORT : option Z;      (* Number(process.env.GATEWAY_PORT); None is NaN *)
  BACKEND_URL : option string;  (* process.env.BACKEND_URL *)
  toISOString : Z -> string;    (* new Date(ms).toISOString() *)
  Date_parse : string -> option Z;           (* Date.parse(text); None is NaN *)
  helmet_headers : list (string * string);   (* the headers helmet() sets *)
  html_document : Z -> string;  (* the error page of Express for a status *)
  etag : string -> string;      (* Express's ETag of a body: W/, its length and a hash *)
  setCharset : string -> string;   (* Express's setCharset(type, 'utf-8'): the media type
                                      with its charset parameter set to utf-8 *)
  is_media_type : string -> bool;  (* whether setCharset accepts the text: the package
                                      content-type parses it *)
  user_agent : string;          (* axios/ followed by the version of axios *)
  accept_encoding : string;     (* the encodings axios can decode *)
  agent_connection : string;    (* the Connection header of Node's HTTP agent *)
  url_host : string -> string;  (* host and port of a URL, as Node puts them in Host *)
}.

(** ** The response API of Express *)

(** Node refuses to touch the headers of a response already sent. *)
Definition ERR_HTTP_HEADERS_SENT : Error :=
  {| isAxiosError := false;
     code := Some "ERR_HTTP_HEADERS_SENT";
     message := "Cannot set headers after they are sent to the client";
     stack := None;
     response := None |}.

(** The changes [res.status], [res.setHeader] and the final write make to
    the response object. *)
Definition with_status (c : Z) (r : Response) : Response :=
  {| statusCode := c; resHeaders := resHeaders r; resBody := resBody r;
     headersSent := headersSent r |}.

Definition with_header (name value : string) (r : Response) : Response :=
  {| statusCode := statusCode r;
     resHeaders := <[toLowerCase name := value]> (resHeaders r);
     resBody := resBody r; headersSent := headersSent r |}.

Definition written (chunk : string) (r : Response) : Response :=
  {| statusCode := statusCode r; resHeaders := resHeaders r;
     resBody := Some chunk; headersSent := true |}.

(** [res.status(c)] *)
Definition res_status (c : Z) : M unit :=
  modify (fun s => set_res (with_status c (res s)) s).

(** [res.setHeader(name, value)] *)
Definition res_setHeader (name value : string) : M unit :=
  fun s =>
    if headersSent (res s) then (Throw ERR_HTTP_HEADERS_SENT, s)
    else (Ok tt, set_res (with_header name value (res s)) s).

(** [res.get(name)] *)
Definition res_get (name : string) : M (option string) :=
  fun s => (Ok (resHeaders (res s) !! toLowerCase name), s).

Definition res_headersSent : M bool :=
  fun s => (Ok (headersSent (res s)), s).

Definition without_header (name : string) (r : Response) : Response :=
  {| statusCode := statusCode r;
     resHeaders := delete (toLowerCase name) (resHeaders r);
     resBody := resBody r; headersSent := headersSent r |}.

(** [res.removeHeader(name)] *)
Definition res_removeHeader (name : string) : M unit :=
  fun s =>
    if headersSent (res s) then (Throw ERR_HTTP_HEADERS_SENT, s)
    else (Ok tt, set_res (without_header name (res s)) s).

(** [res.end(chunk)] *)
Definition res_end (chunk : string) : M unit :=
  modify (fun s => set_res (written chunk (res s)) s).

(** *** Conditional requests: the package [fresh] (0.5.2, as Express 4
    pins it) *)

Module Fresh.

(** [s.split(sep)] *)
Fixpoint split_on (sep : ascii) (s : string) : list string :=
  match s with
  | EmptyString => [EmptyString]
  | String c r =>
      if Ascii.eqb c sep then EmptyString :: split_on sep r
      else
        match split_on sep r with
        | p :: ps => String c p :: ps
        | [] => [String c EmptyString]
        end
  end.

Fixpoint trim_start (p : ascii -> bool) (s : string) : string :=
  match s with
  | EmptyString => EmptyString
  | String c r => if p c then trim_start p r else s
  end.

Fixpoint trim_end (p : ascii -> bool) (s : string) : string :=
  match s with
  | EmptyString => EmptyString
  | String c r =>
      match trim_end p r with
      | EmptyString => if p c then EmptyString else String c EmptyString
      | r' => String c r'
      end
  end.

Definition trim (p : ascii -> bool) (s : string) : string :=
  trim_end p (trim_start p s).

(** The space, and what a regular expression calls white space in a
    header value. *)
Definition is_space (c : ascii) : bool := Nat.eqb (nat_of_ascii c) 32.

Definition is_blank (c : ascii) : bool :=
  existsb (Nat.eqb (nat_of_ascii c)) [9; 10; 11; 12; 13; 32; 160]%nat.

(** The test of a Cache-Control value against the pattern for a no-cache
    directive: between two commas (or an end of the text) there is
    no-cache and white space only. *)
Definition no_cache (cacheControl : string) : bool :=
  existsb (fun d => String.eqb (trim is_blank d) "no-cache") (split_on "," cacheControl).

(** The entries of a comma-separated list, the spaces around each cut
    off. *)
Definition parseTokenList (s : string) : list string :=
  map (trim is_space) (split_on "," s).

Definition parseHttpDate (Date_parse : string -> option Z) (date : string) : option Z :=
  if String.eqb date "" then None else Date_parse date.

(** [a <= b] on numbers either of which may be NaN. *)
Definition not_after (a b : option Z) : bool :=
  match a, b with
  | Some x, Some y => x <=? y
  | _, _ => false
  end.

(** [fresh(reqHeaders, { etag, 'last-modified' })]: whether the copy the
    client says it holds is still good. *)
Definition fresh (Date_parse : string -> option Z) (reqHeaders : Headers)
    (etag lastModified : option string) : bool :=
  let modifiedSince := reqHeaders !! "if-modified-since" in
  let noneMatch := reqHeaders !! "if-none-match" in
  (* unconditional request *)
  if (negb (truthy_str modifiedSince) && negb (truthy_str noneMatch))%bool then false
  (* Cache-Control: no-cache *)
  else if match reqHeaders !! "cache-control" with
          | Some cacheControl => no_cache cacheControl
          | None => false
          end then false
  (* if-none-match *)
  else if match noneMatch with
          | Some nm =>
              if (String.eqb nm "" || String.eqb nm "*")%bool then false
              else
                match etag with
                | Some e =>
                    if String.eqb e "" then true
                    else
                      negb (existsb
                              (fun m => (String.eqb m e || String.eqb m ("W/" ++ e)
                                         || String.eqb ("W/" ++ m) e)%bool)
                              (parseTokenList nm))
                | None => true
                end
          | None => false
          end then false
  (* if-modified-since *)
  else if match modifiedSince with
          | Some ms =>
              if String.eqb ms "" then false
              else
                match lastModified with
                | Some lm =>
                    if String.eqb lm "" then true
                    else negb (not_after (parseHttpDate Date_parse lm)
                                 (parseHttpDate Date_parse ms))
                | None => true
                end
          | None => false
          end then false
  else true.

End Fresh.

(** *** [res.send] and [res.json] (Express 4) *)

Section ExpressResponse.

Context (env : Env).

(** [req.fresh]: a GET or HEAD request, a status 2xx or 304, and a copy
    at the client that is still good. *)
Definition req_fresh (req : IncomingMessage) (r : Response) : bool :=
  ((String.eqb (method req) "GET" || String.eqb (method req) "HEAD")
   && ((200 <=? statusCode r) && (statusCode r <? 300) || (statusCode r =? 304))
   && Fresh.fresh (Date_parse env) (headers req)
        (resHeaders r !! "etag") (resHeaders r !! "last-modified"))%bool.

(** [res.send(chunk)] for a string, [req] being the request the response
    belongs to ([res.req]), in the four stages of its source.  A missing
    Content-Type becomes text/html, and the charset of Content-Type is set
    to utf-8; Content-Length is the length of the chunk, and an ETag is
    computed unless there is one; a fresh conditional request is answered
    304; a 204 or 304 loses its content headers and its body, a 205 its
    body, and the response is ended.  (Where the source sets a header with
    [res.set], the value is given as [res.set] completes it: with the
    charset of a text or JSON type.  [setCharset] throws a TypeError when
    the Content-Type it is given is no media type; the model does not
    follow that throw, and what is proved of a response whose Content-Type
    comes from outside assumes [is_media_type] of it.) *)
Definition send_type : M unit :=
  (* string defaulting to html *)
  ct <- res_get "Content-Type" ;;
  (if truthy_str ct then ret tt
   else res_setHeader "Content-Type" "text/html; charset=utf-8") ;;
  (* write strings in utf-8: reflect this in content-type *)
  type <- res_get "Content-Type" ;;
  match type with
  | Some t => res_setHeader "Content-Type" (setCharset env t)
  | None => ret tt
  end.

Definition send_length (chunk : string) : M unit :=
  (* determine if ETag should be generated *)
  tag <- res_get "ETag" ;;
  let generateETag := negb (truthy_str tag) in
  (* populate Content-Length *)
  res_setHeader "Content-Length" (pretty (String.length chunk)) ;;
  (* populate ETag *)
  if (generateETag && negb (String.eqb (etag env chunk) ""))%bool
  then res_setHeader "ETag" (etag env chunk)
  else ret tt.

Definition send_fresh (req : IncomingMessage) : M unit :=
  (* freshness *)
  s <- get_state ;;
  if req_fresh req (res s) then res_status 304 else ret tt.

Definition send_end (chunk : string) : M unit :=
  (* strip irrelevant headers *)
  s <- get_state ;;
  chunk <-
    (if ((statusCode (res s) =? 204) || (statusCode (res s) =? 304))%bool then
       res_removeHeader "Content-Type" ;;
       res_removeHeader "Content-Length" ;;
       res_removeHeader "Transfer-Encoding" ;;
       ret ""
     else ret chunk) ;;
  (* alter headers for 205 *)
  s <- get_state ;;
  chunk <-
    (if statusCode (res s) =? 205 then
       res_setHeader "Content-Length" "0" ;;
       res_removeHeader "Transfer-Encoding" ;;
       ret ""
     else ret chunk) ;;
  res_end chunk.

Definition res_send (req : IncomingMessage) (chunk : string) : M unit :=
  send_type ;;
  send_length chunk ;;
  send_fresh req ;;
  send_end chunk.

(** [res.json(v)]: the body is [JSON.stringify(v)]; Content-Type becomes
    application/json unless one is already set. *)
Definition res_json (req : IncomingMessage) (v : json) : M unit :=
  let body := stringify v in
  ct <- res_get "Content-Type" ;;
  (if truthy_str ct then ret tt
   else res_setHeader "Content-Type" "application/json; charset=utf-8") ;;
  res_send req body.

End ExpressResponse.

(** ** axios *)

(** The error of a call that outlived its [timeout]. *)
Definition timeout_error (ms : Z) : Error :=
  {| isAxiosError := true;
     code := Some "ECONNABORTED";
     message := "timeout of " ++ pretty ms ++ "ms exceeded";
     stack := None;
     response := None |}.

(** The error of a response whose status [validateStatus] rejects. *)
Definition status_error (r : UpstreamResponse) : Error :=
  {| isAxiosError := true;
     code := if status r / 100 =? 4 then Some "ERR_BAD_REQUEST"
             else if status r / 100 =? 5 then Some "ERR_BAD_RESPONSE" else None;
     message := "Request failed with status code " ++ pretty (status r);
     stack := None;
     response := Some r |}.

(** A transport error leaves axios as an AxiosError with the same code,
    message and stack.  The HTTP adapter wraps it with
    [AxiosError.from(err, null, config, req)], without a response: only the
    error of a status that [validateStatus] rejects carries one. *)
Definition AxiosError_from (e : Error) : Error :=
  {| isAxiosError := true;
     code := code e;
     message := message e;
     stack := stack e;
     response := None |}.

(** How the promise of one call settles, and after how long: with the
    response; with the wrapped transport error; with a timeout error when
    the connection has been silent for [timeout] milliseconds (axios arms
    the socket's inactivity timer, taken to fire on time); with a status
    error when [validateStatus] says no. *)
Definition settle (cfg : AxiosConfig) (x : Exchange) : Attempt * Z :=
  if ((0 <? cfg_timeout cfg) && (cfg_timeout cfg <? elapsed x))%bool then
    (Failed (timeout_error (cfg_timeout cfg)), cfg_timeout cfg)
  else
    match attempt x with
    | Answered r =>
        if cfg_validateStatus cfg (status r) then (Answered r, elapsed x)
        else (Failed (status_error r), elapsed x)
    | Failed e => (Failed (AxiosError_from e), elapsed x)
    end.

Definition outcome (backend : Backend) (cfg : AxiosConfig) : Attempt :=
  fst (settle cfg (backend cfg)).

(** [await axios(cfg)]: one request goes out, time passes, and the call
    returns the response or throws the error. *)
Definition axios (backend : Backend) (cfg : AxiosConfig) : M UpstreamResponse :=
  modify (issued cfg) ;;
  sleep (snd (settle cfg (backend cfg))) ;;
  match outcome backend cfg with
  | Answered r => ret r
  | Failed e => throw e
  end.

(** axios's encoding of a query key or value: [encodeURIComponent], with
    the colon, dollar sign, comma and square brackets left as they are and
    the space written as a plus sign.  (So axios 1.x up to 1.11; later
    versions percent-encode the square brackets.) *)
Definition hex_upper (n : nat) : ascii :=
  if Nat.ltb n 10 then ascii_of_nat (48 + n) else ascii_of_nat (55 + n).

Definition unreserved (c : ascii) : bool :=
  let n := nat_of_ascii c in
  ((Nat.leb 48 n && Nat.leb n 57) || (Nat.leb 65 n && Nat.leb n 90)
   || (Nat.leb 97 n && Nat.leb n 122)
   || existsb (Nat.eqb n) [45; 95; 46; 33; 126; 42; 39; 40; 41]%nat)%bool.

Definition encode_char (c : ascii) : string :=
  let n := nat_of_ascii c in
  if unreserved c then String c ""
  else if Nat.eqb n 32 then "+"
  else if existsb (Nat.eqb n) [58; 36; 44; 91; 93]%nat then String c ""
  else String "%" (String (hex_upper (Nat.div n 16)) (String (hex_upper (Nat.modulo n 16)) "")).

Fixpoint encode (s : string) : string :=
  match s with
  | EmptyString => EmptyString
  | String c r => encode_char c ++ encode r
  end.

Definition serialize (params : list (string * string)) : string :=
  join "&" (map (fun kv => encode (fst kv) ++ "=" ++ encode (snd kv)) params).

Fixpoint indexOf (c : ascii) (s : string) : option nat :=
  match s with
  | EmptyString => None
  | String d r => if Ascii.eqb c d then Some O else option_map S (indexOf c r)
  end.

(** The URL axios requests: [params] are serialised and appended to [url],
    after a question mark, or after an ampersand when [url] has a query
    string already; a fragment is cut off first. *)
Definition buildURL (u : string) (params : list (string * string)) : string :=
  let serializedParams := serialize params in
  if String.eqb serializedParams "" then u
  else
    let u := match indexOf "#" u with
             | Some i => substring 0 i u
             | None => u
             end in
    u ++ (match indexOf "?" u with None => "?" | Some _ => "&" end) ++ serializedParams.

Definition effective_url (cfg : AxiosConfig) : string :=
  buildURL (cfg_url cfg) (cfg_params cfg).

(** *** The request on the wire *)

(** The body axios sends: [transformRequest] serialises an object or an
    array with [JSON.stringify]; without [data] there is no body.
    ([express.json()] leaves an object or an array in [req.body], the empty
    object when it has parsed nothing, and parses a body only when its
    content type is JSON; payloads of other kinds, and objects sent under a
    form content type, are not covered.) *)
Definition object_payload (data : option json) : bool :=
  match data with
  | Some (JObj _) | Some (JArr _) => true
  | _ => false
  end.

Definition wire_body (cfg : AxiosConfig) : option string :=
  match cfg_data cfg with
  | Some v => if object_payload (Some v) then Some (stringify v) else None
  | None => None
  end.

(** The headers of the config that have a value, under lower-cased names:
    axios drops a header whose value is undefined. *)
Definition own_headers (h : gmap string (option string)) : list (string * string) :=
  omap (fun kv => match snd kv with
                  | Some v => Some (toLowerCase (fst kv), v)
                  | None => None
                  end)
       (map_to_list h).

Definition has_header (name : string) (l : list (string * string)) : bool :=
  existsb (fun kv => String.eqb (fst kv) name) l.

Section Wire.

Context (env : Env).

(** What axios and Node add on their own, where the config has not set
    the header: axios's Accept; the Content-Type of the payload
    (application/json for an object, the form type for a POST, PUT or PATCH
    without one); User-Agent and Accept-Encoding; the Content-Length of
    the body; and Node's Host and Connection. *)
Definition library_headers (cfg : AxiosConfig) : list (string * string) :=
  [("accept", "application/json, text/plain, */*")]
  ++ (if object_payload (cfg_data cfg) then [("content-type", "application/json")]
      else if existsb (String.eqb (toLowerCase (cfg_method cfg))) ["post"; "put"; "patch"]
           then [("content-type", "application/x-www-form-urlencoded")]
           else [])
  ++ [("user-agent", user_agent env); ("accept-encoding", accept_encoding env)]
  ++ match wire_body cfg with
     | Some b => [("content-length", pretty (String.length b))]
     | None => []
     end
  ++ [("host", url_host env (cfg_url cfg)); ("connection", agent_connection env)].

(** The headers of the upstream request as the backend receives them. *)
Definition wire_headers (cfg : AxiosConfig) : list (string * string) :=
  let own := own_headers (cfg_headers cfg) in
  own ++ filter (fun kv => negb (has_header (fst kv) own)) (library_headers cfg).

(** The upstream request carries the header [name] with [value]. *)
Definition on_wire (cfg : AxiosConfig) (name value : string) : Prop :=
  In (name, value) (wire_headers cfg).

End Wire.

(** The request with other headers. *)
Definition with_headers (hs : Headers) (req : Request) : Request :=
  {| incoming :=
       {| method := method req; url := url req; originalUrl := originalUrl req;
          headers := hs; query := query req; ip := ip req;
          connection_remoteAddress := connection_remoteAddress req;
          socket_remoteAddress := socket_remoteAddress req;
          protocol := protocol req |};
     requestId := requestId req;
     body := body req |}.

(** ** The gateway *)

(** How Express's router sees a request: under the catch-all [/api/*],
    [GET /health], or neither (and then maybe still below the [/api]
    mount point of the limiter). *)
Inductive Route :=
  | Api
  | Health
  | Unmatched (under_api : bool).

Definition under_api_mount (r : Route) : bool :=
  match r with
  | Api => true
  | Health => false
  | Unmatched b => b
  end.

(** What [express.json()] makes of the request body. *)
Inductive BodyParse :=
  | Parsed (b : option json)    (* req.body afterwards *)
  | ParseError (st : Z).        (* the parser called next(err), err.status = st *)

(** One inbound request with everything the outside world decides about
    it: the route, the identifier [randomUUID()] would return, the body
    parser's verdict and the backend's behaviour. *)
Record Arrival := {
  raw : IncomingMessage;
  route : Route;
  uuid : string;
  parsed : BodyParse;
  backend : Backend;
}.

Section Gateway.

Context (env : Env).

(** [Number(process.env.GATEWAY_PORT) || 5921] *)
Definition gatewayPort : Z :=
  match GATEWAY_PORT env with
  | Some n => if n =? 0 then 5921 else n
  | None => 5921
  end.

(** [process.env.BACKEND_URL || 'http://backend:3847'] *)
Definition backendUrl : string :=
  or_default (BACKEND_URL env) "http://backend:3847".

(** [app.use(helmet())] *)
Definition helmet : M unit :=
  forEach (helmet_headers env) (fun kv => res_setHeader (fst kv) (snd kv)).

(** Express's final handler (the package finalhandler): a response
    already sent is left alone (the socket is closed), otherwise the error
    page for the status goes out, written with Node's own [setHeader] and
    [end].  When it is given an error, Express also writes the error's
    stack to standard error, as plain text; that line is none of the
    gateway's log entries and [console] does not hold it. *)
Definition default_handler (st : Z) : M unit :=
  sent <- res_headersSent ;;
  if sent then ret tt
  else
    let body := html_document env st in
    res_status st ;;
    res_removeHeader "Content-Encoding" ;;
    res_removeHeader "Content-Language" ;;
    res_removeHeader "Content-Range" ;;
    res_setHeader "Content-Security-Policy" "default-src 'none'" ;;
    res_setHeader "X-Content-Type-Options" "nosniff" ;;
    res_setHeader "Content-Type" "text/html; charset=utf-8" ;;
    res_setHeader "Content-Length" (pretty (String.length body)) ;;
    res_end body.

(** [next(error)] *)
Definition next (error : Error) : M unit :=
  next_error error ;; default_handler 500.

(** *** Request ID + structured logging middleware *)

(** Runs [hook] after [m] if the response has been written by then: the
    listener registered with [res.on('finish', ...)]. *)
Definition on_finish (hook : M unit) (m : M unit) : M unit :=
  fun s =>
    match m s with
    | (r, s') =>
        if headersSent (res s') then
          match hook s' with (_, s'') => (r, s'') end
        else (r, s')
    end.

Definition finish_entry (req : IncomingMessage) (requestId : string)
    (statusCode durationMs now : Z) : json :=
  object [
    ("service", Some (JStr "gateway"));
    ("level", Some (JStr "info"));
    ("requestId", Some (JStr requestId));
    ("method", Some (JStr (method req)));
    ("path", Some (JStr (originalUrl req)));
    ("statusCode", Some (JNum statusCode));
    ("durationMs", Some (JNum durationMs));
    ("timestamp", Some (JStr (toISOString env now)))
  ].

Definition finish_log (req : IncomingMessage) (requestId : string) (startedAt : Z) : M unit :=
  now <- Date_now ;;
  let durationMs := now - startedAt in
  s <- get_state ;;
  console_log (finish_entry req requestId (statusCode (res s)) durationMs now).

Definition request_id_middleware (randomUUID : string) (req : IncomingMessage)
    (next : string -> M unit) : M unit :=
  let existingId := headers req !! "x-request-id" in
  let requestId := or_default existingId randomUUID in
  res_setHeader "x-request-id" requestId ;;
  startedAt <- Date_now ;;
  on_finish (finish_log req requestId startedAt) (next requestId).

(** *** Basic rate limiting on /api routes *)

Definition windowMs : Z := 60 * 1000.
Definition max : Z := 60.

(** Modelled from the spec: the counting rule of the rate limiter. The
    source only configures the express-rate-limit package (window, capacity,
    standard headers on, legacy headers off); the package itself is not part
    of the repository. Section 4.2 of the specification gives the rule: if
    the identity has no window, or the current time is at or past
    window-start + W, a new window starts with count 1; otherwise the count
    goes up by one. *)
Definition hit (now : Z) (w : option Window) : Window :=
  match w with
  | None => {| count := 1; windowStart := now |}
  | Some w =>
      if windowStart w + windowMs <=? now then {| count := 1; windowStart := now |}
      else {| count := count w + 1; windowStart := windowStart w |}
  end.

(** Modelled from the spec: a request is admitted while the count of its
    window is at most N. *)
Definition admitted (w : Window) : bool := count w <=? max.

(** Modelled from the spec: the limiter as a middleware. The client
    identity is the client's network address; every response under [/api]
    advertises limit, remaining quota and reset time in the standard
    RateLimit headers; a rejected request is answered with 429 and goes no
    further. *)
Definition apiLimiter (req : IncomingMessage) (next : M unit) : M unit :=
  now <- Date_now ;;
  s <- get_state ;;
  let key := ip req in
  let w := hit now (windows s !! key) in
  modify (set_windows (<[key := w]> (windows s))) ;;
  res_setHeader "RateLimit-Limit" (pretty max) ;;
  res_setHeader "RateLimit-Remaining" (pretty (Z.max 0 (max - count w))) ;;
  res_setHeader "RateLimit-Reset" (pretty ((windowStart w + windowMs - now + 999) / 1000)) ;;
  if admitted w then next
  else
    res_status 429 ;;
    res_send env req "Too many requests, please try again later.".

(** *** JSON body parsing *)

(** [app.use(express.json())]: the parser leaves its result in [req.body]
    and goes on, or hands its error to the final handler. *)
Definition express_json (p : BodyParse) (next : option json -> M unit) : M unit :=
  match p with
  | Parsed b => next b
  | ParseError st => default_handler st
  end.

(** *** proxyRequest *)

(** [req.body && Object.keys(req.body).length > 0] *)
Definition has_body (req : Request) : bool :=
  match body req with
  | Some b => (truthy b && (0 <? Z.of_nat (length (Object_keys b))))%bool
  | None => false
  end.

(** The [headers] object of the upstream request, built from nothing. *)
Definition proxy_headers (req : Request) : gmap string (option string) :=
  let h : gmap string (option string) := ∅ in
  let h :=
    if has_body req then
      <["Content-Type" := Some (or_default (headers req !! "content-type") "application/json")]> h
    else h in
  let h :=
    <["X-Forwarded-For" :=
        JS.or (ip req) (JS.or (connection_remoteAddress req) (socket_remoteAddress req))]> h in
  let h := <["X-Forwarded-Proto" := Some (or_default (protocol req) "http")]> h in
  <["x-request-id" := Some (requestId req)]> h.

Definition targetUrl (req : Request) : string := backendUrl ++ url req.

(** The argument of the one [axios] call. *)
Definition proxy_config (req : Request) : AxiosConfig :=
  {| cfg_method := method req;
     cfg_url := targetUrl req;
     cfg_params := query req;
     cfg_data := body req;
     cfg_headers := proxy_headers req;
     cfg_timeout := 30000;
     cfg_validateStatus := fun _ => true;
     cfg_maxContentLength := 50 * 1024 * 1024;
     cfg_maxBodyLength := 50 * 1024 * 1024 |}.

Definition headersToForward : list string := ["content-type"; "content-length"].

Definition outbound_entry (req : Request) (now : Z) : json :=
  object [
    ("service", Some (JStr "gateway"));
    ("level", Some (JStr "info"));
    ("requestId", Some (JStr (requestId req)));
    ("direction", Some (JStr "outbound"));
    ("method", Some (JStr (method req)));
    ("path", Some (JStr (url req)));
    ("targetUrl", Some (JStr (targetUrl req)));
    ("timestamp", Some (JStr (toISOString env now)))
  ].

Definition inbound_entry (req : Request) (response : UpstreamResponse)
    (duration now : Z) : json :=
  object [
    ("service", Some (JStr "gateway"));
    ("level", Some (JStr "info"));
    ("requestId", Some (JStr (requestId req)));
    ("direction", Some (JStr "inbound"));
    ("method", Some (JStr (method req)));
    ("path", Some (JStr (url req)));
    ("targetUrl", Some (JStr (targetUrl req)));
    ("statusCode", Some (JNum (status response)));
    ("durationMs", Some (JNum duration));
    ("timestamp", Some (JStr (toISOString env now)))
  ].

Definition error_entry (req : Request) (error : Error) (now : Z) : json :=
  object [
    ("service", Some (JStr "gateway"));
    ("level", Some (JStr "error"));
    ("requestId", Some (JStr (requestId req)));
    ("message", Some (JStr "Proxy error"));
    ("errorMessage", Some (JStr (message error)));
    ("code", JStr <$> code error);
    ("url", Some (JStr (targetUrl req)));
    ("stack", JStr <$> stack error);
    ("timestamp", Some (JStr (toISOString env now)))
  ].

(** The [try] block. *)
Definition forward (backend : Backend) (req : Request) (startTime : Z) : M unit :=
  now <- Date_now ;;
  console_log (outbound_entry req now) ;;
  response <- axios backend (proxy_config req) ;;
  now <- Date_now ;;
  let duration := now - startTime in
  console_log (inbound_entry req response duration now) ;;
  res_status (status response) ;;
  forEach headersToForward (fun header =>
    match upHeaders response !! header with
    | Some v => if String.eqb v "" then ret tt else res_setHeader header v
    | None => ret tt
    end) ;;
  res_json env req (value_of (data response)).

(** The [if (axios.isAxiosError(error))] block of the handler; the result
    tells whether one of its branches returned. *)
Definition answer_axios_error (req : Request) (error : Error) : M bool :=
  if isAxiosError error then
    if bool_decide (code error = Some "ECONNREFUSED") then
      res_status 503 ;;
      res_json env req (JObj [
        ("error", JStr "Backend service unavailable");
        ("message",
         JStr "The backend service is currently unavailable. Please try again later.");
        ("requestId", JStr (requestId req))
      ]) ;;
      ret true
    else if (bool_decide (code error = Some "ETIMEDOUT")
             || bool_decide (code error = Some "ECONNABORTED"))%bool then
      res_status 504 ;;
      res_json env req (JObj [
        ("error", JStr "Backend service timeout");
        ("message",
         JStr "The backend service did not respond in time. Please try again later.");
        ("requestId", JStr (requestId req))
      ]) ;;
      ret true
    else
      match response error with
      | Some r => res_status (status r) ;; res_json env req (value_of (data r)) ;; ret true
      | None => ret false
      end
  else ret false.

(** The [catch] block. *)
Definition recover (req : Request) (error : Error) : M unit :=
  now <- Date_now ;;
  console_error (error_entry req error now) ;;
  returned <- answer_axios_error req error ;;
  if returned then ret tt
  else
    sent <- res_headersSent ;;
    if negb sent then
      res_status 502 ;;
      res_json env req (JObj [("error", JStr "bad gateway"); ("requestId", JStr (requestId req))])
    else next error.

Definition proxyRequest (backend : Backend) (req : Request) : M unit :=
  startTime <- Date_now ;;
  try_catch (forward backend req startTime) (recover req).

(** *** The application *)

Definition health (req : IncomingMessage) : M unit :=
  res_json env req (JObj [("ok", JBool true)]).

(** What follows the request-id middleware: the limiter below [/api],
    the body parser, then the route. *)
Definition dispatch (a : Arrival) (requestId : string) : M unit :=
  (if under_api_mount (route a) then apiLimiter (raw a) else fun k => k)
    (express_json (parsed a) (fun body =>
       let req := {| incoming := raw a; requestId := requestId; body := body |} in
       match route a with
       | Api => proxyRequest (backend a) req
       | Health => health req
       | Unmatched _ => default_handler 404
       end)).

(** One request through the middleware in the order of the [app.use]
    calls. *)
Definition app (a : Arrival) : M unit :=
  modify (set_res fresh_response) ;;
  helmet ;;
  request_id_middleware (uuid a) (raw a) (dispatch a).

End Gateway.

(** ** Net effects *)

(** What [res.send(chunk)] and [res.json(v)] leave behind when the response
    had not been sent yet (lemmas [res_send_unsent] and [res_json_unsent]),
    stage by stage: the content type, the length and the ETag, the check
    for a fresh conditional request, and the final write. *)
Definition typed (env : Env) (r : Response) : Response :=
  let r :=
    if truthy_str (resHeaders r !! "content-type") then r
    else with_header "Content-Type" "text/html; charset=utf-8" r in
  match resHeaders r !! "content-type" with
  | Some t => with_header "Content-Type" (setCharset env t) r
  | None => r
  end.

Definition tagged (env : Env) (chunk : string) (r : Response) : Response :=
  let r' := with_header "Content-Length" (pretty (String.length chunk)) r in
  if (negb (truthy_str (resHeaders r !! "etag")) && negb (String.eqb (etag env chunk) ""))%bool
  then with_header "ETag" (etag env chunk) r'
  else r'.

Definition revalidated (env : Env) (req : IncomingMessage) (r : Response) : Response :=
  if req_fresh env req r then with_status 304 r else r.

Definition ended (chunk : string) (r : Response) : Response :=
  if ((statusCode r =? 204) || (statusCode r =? 304))%bool then
    written ""
      (without_header "Transfer-Encoding"
         (without_header "Content-Length" (without_header "Content-Type" r)))
  else if statusCode r =? 205 then
    written "" (without_header "Transfer-Encoding" (with_header "Content-Length" "0" r))
  else written chunk r.

Definition sent_with (env : Env) (req : IncomingMessage) (chunk : string)
    (r : Response) : Response :=
  ended chunk (revalidated env req (tagged env chunk (typed env r))).

Definition json_reply (env : Env) (req : IncomingMessage) (v : json)
    (r : Response) : Response :=
  sent_with env req (stringify v)
    (if truthy_str (resHeaders r !! "content-type") then r
     else with_header "Content-Type" "application/json; charset=utf-8" r).

(** What the final handler leaves behind. *)
Definition error_page (env : Env) (st : Z) (r : Response) : Response :=
  let body := html_document env st in
  written body
    (with_header "Content-Length" (pretty (String.length body))
       (with_header "Content-Type" "text/html; charset=utf-8"
          (with_header "X-Content-Type-Options" "nosniff"
             (with_header "Content-Security-Policy" "default-src 'none'"
                (without_header "Content-Range"
                   (without_header "Content-Language"
                      (without_header "Content-Encoding" (with_status st r)))))))).

(** A request that asks for no revalidation: it has neither an
    If-None-Match nor an If-Modified-Since header. *)
Definition unconditional (req : IncomingMessage) : bool :=
  (negb (truthy_str (headers req !! "if-modified-since"))
   && negb (truthy_str (headers req !! "if-none-match")))%bool.

(** The statuses Express sends without a body. *)
Definition bodiless (st : Z) : bool :=
  ((st =? 204) || (st =? 205) || (st =? 304))%bool.

(** The upstream headers the handler copies, in the order of
    [headersToForward]. *)
Definition copy_header (response : UpstreamResponse) (header : string) (r : Response) : Response :=
  match upHeaders response !! header with
  | Some v => if String.eqb v "" then r else with_header header v r
  | None => r
  end.

(** The response the [try] block writes for an upstream response. *)
Definition relayed (env : Env) (req : IncomingMessage) (response : UpstreamResponse)
    (r : Response) : Response :=
  json_reply env req (value_of (data response))
    (copy_header response "content-length"
       (copy_header response "content-type"
          (with_status (status response) r))).

(** The codes the [catch] block knows. *)
Definition classified (c : option string) : bool :=
  (bool_decide (c = Some "ECONNREFUSED")
   || bool_decide (c = Some "ETIMEDOUT")
   || bool_decide (c = Some "ECONNABORTED"))%bool.

(** The response after helmet: its headers set one after the other. *)
Definition helmeted (hs : list (string * string)) (r : Response) : Response :=
  fold_left (fun r kv => with_header (fst kv) (snd kv) r) hs r.

(** The identifier the request-id middleware settles on. *)
Definition correlation_id (a : Arrival) : string :=
  or_default (headers (raw a) !! "x-request-id") (uuid a).

(** The request as the route handlers see it. *)
Definition request_of (a : Arrival) (b : option json) : Request :=
  {| incoming := raw a; requestId := correlation_id a; body := b |}.

(** The RateLimit headers for a window at a time. *)
Definition limited (w : Window) (now : Z) (r : Response) : Response :=
  with_header "RateLimit-Reset" (pretty ((windowStart w + windowMs - now + 999) / 1000))
    (with_header "RateLimit-Remaining" (pretty (Z.max 0 (max - count w)))
       (with_header "RateLimit-Limit" (pretty max) r)).

(** The window a request arriving in state [s] falls in. *)
Definition window_of (a : Arrival) (s : State) : Window :=
  hit (clock s) (windows s !! ip (raw a)).

Section Stages.

Context (env : Env).

(** The response when the request-id middleware calls [next]. *)
Definition ingress (a : Arrival) : Response :=
  with_header "x-request-id" (correlation_id a)
    (helmeted (helmet_headers env) fresh_response).

(** The state in which the limiter has counted the request. *)
Definition counted (a : Arrival) (s : State) : State :=
  let w := window_of a s in
  set_res (limited w (clock s) (ingress a))
    (set_windows (<[ip (raw a) := w]> (windows s)) s).

(** The state in which the [catch] block starts when the call fails, and
    the one in which it has logged the error. *)
Definition at_catch (backend : Backend) (req : Request) (s : State) : State :=
  let cfg := proxy_config env req in
  slept (snd (settle cfg (backend cfg)))
    (issued cfg (logged Stdout (outbound_entry env req (clock s)) s)).

Definition caught (backend : Backend) (req : Request) (e : Error) (s : State) : State :=
  let s1 := at_catch backend req s in
  logged Stderr (error_entry env req e (clock s1)) s1.

End Stages.


(** The windows one client's requests at the times [ts] go through, the
    store holding [w] for it before the first. *)
Fixpoint hits (w : option Window) (ts : list Z) : list Window :=
  match ts with
  | [] => []
  | t :: r => let w' := hit t w in w' :: hits (Some w') r
  end.

(** At time [t0] a request of a client whose stored window is [w] opens a
    new window: there is none, or it has run out. *)
Definition opens (w : option Window) (t0 : Z) : Prop :=
  match w with
  | None => True
  | Some w0 => windowStart w0 + windowMs <= t0
  end.

(** The [headers] object of an upstream request names a header, in any
    spelling of upper and lower case; it sends the header when the value
    under that name is a string rather than undefined. *)
Definition mentions (h : gmap string (option string)) (name : string) : Prop :=
  exists k o, h !! k = Some o /\ toLowerCase k = toLowerCase name.

Definition sends (h : gmap string (option string)) (name value : string) : Prop :=
  exists k, h !! k = Some (Some value) /\ toLowerCase k = toLowerCase name.

(** The headers that belong to one connection only (RFC 7230, 6.1). *)
Definition hop_by_hop : list string :=
  ["Connection"; "Keep-Alive"; "Proxy-Authenticate"; "Proxy-Authorization";
   "TE"; "Trailer"; "Transfer-Encoding"; "Upgrade"].

(** Requests served one after the other, the clock standing at the
    arrival time of each when its turn comes; the result lists the state
    each request leaves. *)
Definition arrive (t : Z) (s : State) : State :=
  {| clock := t; console := console s; res := res s; upstream := upstream s;
     passed_on := passed_on s; windows := windows s |}.

Fixpoint serve (env : Env) (tas : list (Z * Arrival)) (s : State) : list State :=
  match tas with
  | [] => []
  | ta :: r =>
      let s' := snd (app env (snd ta) (arrive (fst ta) s)) in
      s' :: serve env r s'
  end.

(** The limiter counts a request for the client identity [k]: the
    request comes from that client and its path lies below the [/api]
    mount, be it matched by the [/api/*] route or not. *)
Definition counts (k : option string) (ta : Z * Arrival) : Prop :=
  ip (raw (snd ta)) = k /\ under_api_mount (route (snd ta)) = true.

(** How many of the requests the limiter counts for [k]. *)
Definition counted_for (k : option string) (tas : list (Z * Arrival)) : nat :=
  length (filter (counts k) tas).

(** A request was forwarded if exactly one upstream request went out while
    it was served. *)
Definition forwarded (before after : State) : Prop :=
  exists cfg, upstream after = (upstream before ++ [cfg])%list.

(** The limiter let the request through: an [/api/*] request whose body
    the parser accepts was forwarded; for any other request below the
    mount nothing went upstream, and the answer is the error page of the
    parser's status or, the body accepted, of 404. *)
Definition let_through (a : Arrival) (before after : State) : Prop :=
  match route a, parsed a with
  | Api, Parsed _ => forwarded before after
  | _, Parsed _ => upstream after = upstream before /\ statusCode (res after) = 404
  | _, ParseError st => upstream after = upstream before /\ statusCode (res after) = st
  end.

(** The request was turned away: nothing went upstream, and the answer
    that went out is 429 with the limiter's message and the RateLimit
    headers. *)
Definition turned_away (before after : State) : Prop :=
  upstream after = upstream before
  /\ headersSent (res after) = true
  /\ statusCode (res after) = 429
  /\ resBody (res after) = Some "Too many requests, please try again later."
  /\ resHeaders (res after) !! "ratelimit-limit" = Some "60"
  /\ resHeaders (res after) !! "ratelimit-remaining" = Some "0"
  /\ is_Some (resHeaders (res after) !! "ratelimit-reset").

(** An [/api/*] request whose body the parser accepts. *)
Definition api_request (ta : Z * Arrival) : Prop :=
  route (snd ta) = Api /\ exists b, parsed (snd ta) = Parsed b.

(** A log entry carries the identifier in its [requestId] field. *)
Definition carries_id (id : string) (ev : Stream * json) : Prop :=
  get "requestId" (snd ev) = Some (JStr id).

(** From [s] to [s'] the x-request-id header of the response has stayed
    what it was, and every line logged since carries the identifier. *)
Definition traced (id : string) (s s' : State) : Prop :=
  resHeaders (res s') !! "x-request-id" = resHeaders (res s) !! "x-request-id"
  /\ exists evs, console s' = (console s ++ evs)%list /\ Forall (carries_id id) evs.

Definition keeps {A} (id : string) (m : M A) : Prop :=
  forall s, traced id s (snd (m s)).

(** The body the specification asks the relay to write: the JSON
    encoding when the upstream body was structured, the very bytes
    otherwise.  (What the code writes is [stringify (value_of d)].) *)
Definition body_by_spec (d : Payload) : string :=
  match d with
  | Structured v => stringify v
  | Text raw => raw
  end.

(** ** Sample traffic *)

Module Sample.

(** Stand-ins for the library functions: the time stamp is the number of
    milliseconds, the ETag tells the length of the body only, the charset is
    appended to whatever precedes the first semicolon, and no text is a
    date. *)
Definition media_type (t : string) : string :=
  match Fresh.split_on ";" t with
  | p :: _ => Fresh.trim Fresh.is_space p
  | [] => t
  end.

Definition env : Env :=
  {| GATEWAY_PORT := None;
     BACKEND_URL := None;
     toISOString := fun ms => pretty ms;
     Date_parse := fun _ => None;
     helmet_headers := [("X-Content-Type-Options", "nosniff"); ("X-Frame-Options", "SAMEORIGIN")];
     html_document := fun st => "<pre>" ++ pretty st ++ "</pre>";
     etag := fun body => "W/" ++ quote (pretty (String.length body));
     setCharset := fun t => media_type t ++ "; charset=utf-8";
     is_media_type := fun t => match indexOf "/" t with Some _ => true | None => false end;
     user_agent := "axios/1.7.9";
     accept_encoding := "gzip, compress, deflate, br";
     agent_connection := "keep-alive";
     url_host := fun _ => "backend:3847" |}.

(** [GET /api/items?x=1] from 10.0.0.7, with no request id of its own. *)
Definition get_items : IncomingMessage :=
  {| method := "GET";
     url := "/api/items?x=1";
     originalUrl := "/api/items?x=1";
     headers := {[ "host" := "localhost:5921"; "accept" := "*/*";
                   "authorization" := "Bearer t0ken"; "connection" := "keep-alive" ]};
     query := [("x", "1")];
     ip := Some "10.0.0.7";
     connection_remoteAddress := Some "10.0.0.7";
     socket_remoteAddress := Some "10.0.0.7";
     protocol := Some "http" |}.

(** The same request carrying [x-request-id: ABC]. *)
Definition get_items_ABC : IncomingMessage :=
  {| method := "GET";
     url := "/api/items?x=1";
     originalUrl := "/api/items?x=1";
     headers := {[ "host" := "localhost:5921"; "x-request-id" := "ABC" ]};
     query := [("x", "1")];
     ip := Some "10.0.0.7";
     connection_remoteAddress := Some "10.0.0.7";
     socket_remoteAddress := Some "10.0.0.7";
     protocol := Some "http" |}.

(** The same request when the socket is gone and Express knows no client
    address. *)
Definition no_address : IncomingMessage :=
  {| method := "GET";
     url := "/api/items?x=1";
     originalUrl := "/api/items?x=1";
     headers := {[ "host" := "localhost:5921" ]};
     query := [("x", "1")];
     ip := None;
     connection_remoteAddress := None;
     socket_remoteAddress := None;
     protocol := Some "http" |}.

(** A process that has served nothing yet. *)
Definition idle : State :=
  {| clock := 1700000000000; console := []; res := fresh_response;
     upstream := []; passed_on := []; windows := ∅ |}.

(** A backend answering [hello] as text/plain. *)
Definition text_plain : UpstreamResponse :=
  {| status := 200;
     upHeaders := {[ "content-type" := "text/plain"; "content-length" := "5";
                     "server" := "nginx" ]};
     data := Text "hello" |}.

(** A backend answering 404 with a JSON object. *)
Definition not_found : UpstreamResponse :=
  {| status := 404;
     upHeaders := {[ "content-type" := "application/json"; "content-length" := "19" ]};
     data := Structured (JObj [("msg", JStr "not found")]) |}.



Definition socket_error (c : string) (r : option UpstreamResponse) : Error :=
  {| isAxiosError := false; code := Some c; message := "connect " ++ c;
     stack := None; response := r |}.

Definition arrival (m : IncomingMessage) (x : Exchange) : Arrival :=
  {| raw := m;
     route := Api;
     uuid := "3f2b8c1e-7d4a-4e0b-9c55-0a1b2c3d4e5f";
     parsed := Parsed (Some (JObj []));
     backend := fun _ => x |}.

Definition answers (r : UpstreamResponse) : Exchange :=
  {| attempt := Answered r; elapsed := 12 |}.

Definition fails (c : string) (r : option UpstreamResponse) : Exchange :=
  {| attempt := Failed (socket_error c r); elapsed := 3 |}.

(** A backend that would answer after 45 seconds. *)
Definition slow : Exchange :=
  {| attempt := Answered not_found; elapsed := 45000 |}.

(** Sixty-one requests of one client within a second. *)
Definition burst : list (Z * Arrival) :=
  map (fun n : nat => (1700000000000 + 10 * Z.of_nat n, arrival get_items (answers not_found)))
      (seq 0 61).

(** [GET /health], and the same request from a client that holds a copy
    of the answer. *)
Definition get_health : IncomingMessage :=
  {| method := "GET";
     url := "/health";
     originalUrl := "/health";
     headers := {[ "host" := "localhost:5921" ]};
     query := [];
     ip := Some "10.0.0.7";
     connection_remoteAddress := Some "10.0.0.7";
     socket_remoteAddress := Some "10.0.0.7";
     protocol := Some "http" |}.

Definition get_health_again : IncomingMessage :=
  {| method := "GET";
     url := "/health";
     originalUrl := "/health";
     headers := {[ "host" := "localhost:5921"; "if-none-match" := "*" ]};
     query := [];
     ip := Some "10.0.0.7";
     connection_remoteAddress := Some "10.0.0.7";
     socket_remoteAddress := Some "10.0.0.7";
     protocol := Some "http" |}.

(** [GET /api] from the same client: below the mount of the limiter, and
    no route matches it. *)
Definition get_api : IncomingMessage :=
  {| method := "GET";
     url := "/api";
     originalUrl := "/api";
     headers := {[ "host" := "localhost:5921" ]};
     query := [];
     ip := Some "10.0.0.7";
     connection_remoteAddress := Some "10.0.0.7";
     socket_remoteAddress := Some "10.0.0.7";
     protocol := Some "http" |}.

Definition off_route : Arrival :=
  {| raw := get_api;
     route := Unmatched true;
     uuid := "3f2b8c1e-7d4a-4e0b-9c55-0a1b2c3d4e5f";
     parsed := Parsed (Some (JObj []));
     backend := fun _ => answers not_found |}.

(** Sixty requests for [/api] within a second, then the client's first
    [/api/*] request. *)
Definition detour : list (Z * Arrival) :=
  (map (fun n : nat => (1700000000000 + 10 * Z.of_nat n, off_route)) (seq 0 60)
   ++ [(1700000000600, arrival get_items (answers not_found))])%list.

(** Ten seconds into a window in which 10.0.0.7 has used up its sixty
    requests. *)
Definition busy : State :=
  {| clock := 1700000000000; console := []; res := fresh_response;
     upstream := []; passed_on := [];
     windows := {[ Some "10.0.0.7" := {| count := 60; windowStart := 1699999990000 |} ]} |}.

End Sample.

(** * Properties *)

(** ** JSON.stringify on examples *)

Example stringify_object :
  stringify (JObj [("msg", JStr "not found"); ("n", JNum 42); ("l", JArr [JNull; JBool true; JNum (-1)])])
  = ("{" ++ quote "msg" ++ ":" ++ quote "not found" ++ "," ++ quote "n" ++ ":42,"
     ++ quote "l" ++ ":[null,true,-1]}")%string.
Proof. vm_compute. reflexivity. Qed.

Example stringify_escapes :
  stringify (JStr (String dquote (String backslash (String (ascii_of_nat 10) (String (ascii_of_nat 1) "z")))))
  = String dquote
      (String backslash (String dquote
         (String backslash (String backslash
            (String backslash ("n" ++ String backslash ("u0001z" ++ String dquote "")))))))%string.
Proof. vm_compute. reflexivity. Qed.

(** ** Running the primitives *)

Lemma bind_ok {A B} (m : M A) (k : A -> M B) s a s' :
  m s = (Ok a, s') -> bind m k s = k a s'.
Proof. intros H. unfold bind. now rewrite H. Qed.

Lemma bind_throw {A B} (m : M A) (k : A -> M B) s e s' :
  m s = (Throw e, s') -> bind m k s = (Throw e, s').
Proof. intros H. unfold bind. now rewrite H. Qed.

Lemma set_res_same s : set_res (res s) s = s.
Proof. now destruct s. Qed.

Lemma res_setHeader_unsent name v s :
  headersSent (res s) = false ->
  res_setHeader name v s = (Ok tt, set_res (with_header name v (res s)) s).
Proof. intros H. unfold res_setHeader. now rewrite H. Qed.

Lemma res_setHeader_sent name v s :
  headersSent (res s) = true ->
  res_setHeader name v s = (Throw ERR_HTTP_HEADERS_SENT, s).
Proof. intros H. unfold res_setHeader. now rewrite H. Qed.

Lemma res_removeHeader_unsent name s :
  headersSent (res s) = false ->
  res_removeHeader name s = (Ok tt, set_res (without_header name (res s)) s).
Proof. intros H. unfold res_removeHeader. now rewrite H. Qed.

Lemma res_removeHeader_sent name s :
  headersSent (res s) = true ->
  res_removeHeader name s = (Throw ERR_HTTP_HEADERS_SENT, s).
Proof. intros H. unfold res_removeHeader. now rewrite H. Qed.

Lemma set_res_set_res r r' s : set_res r (set_res r' s) = set_res r s.
Proof. reflexivity. Qed.

Section Sending.

Context (env : Env).

Lemma typed_sent r : headersSent (typed env r) = headersSent r.
Proof.
  unfold typed. destruct (truthy_str _); cbv zeta.
  - now destruct (resHeaders r !! "content-type").
  - now destruct (resHeaders (with_header _ _ r) !! "content-type").
Qed.

Lemma tagged_sent chunk r : headersSent (tagged env chunk r) = headersSent r.
Proof. unfold tagged. now destruct (_ && _)%bool. Qed.

Lemma revalidated_sent req r : headersSent (revalidated env req r) = headersSent r.
Proof. unfold revalidated. now destruct (req_fresh env req r). Qed.

Lemma send_type_unsent s :
  headersSent (res s) = false ->
  send_type env s = (Ok tt, set_res (typed env (res s)) s).
Proof.
  intros H. unfold send_type, typed.
  erewrite bind_ok by reflexivity.
  change (toLowerCase "Content-Type") with "content-type".
  destruct (truthy_str (resHeaders (res s) !! "content-type")) eqn:Hct.
  - erewrite bind_ok by reflexivity. erewrite bind_ok by reflexivity.
    change (toLowerCase "Content-Type") with "content-type". cbv zeta.
    destruct (resHeaders (res s) !! "content-type") as [t|]; [|discriminate Hct].
    now apply res_setHeader_unsent.
  - erewrite bind_ok by (now apply res_setHeader_unsent).
    erewrite bind_ok by reflexivity.
    change (toLowerCase "Content-Type") with "content-type". cbv zeta.
    cbn [res set_res].
    destruct (resHeaders (with_header "Content-Type" "text/html; charset=utf-8" (res s))
              !! "content-type") as [t|].
    + now rewrite res_setHeader_unsent.
    + reflexivity.
Qed.

Lemma send_length_unsent chunk s :
  headersSent (res s) = false ->
  send_length env chunk s = (Ok tt, set_res (tagged env chunk (res s)) s).
Proof.
  intros H. unfold send_length, tagged.
  erewrite bind_ok by reflexivity.
  change (toLowerCase "ETag") with "etag". cbv zeta.
  erewrite bind_ok by (now apply res_setHeader_unsent).
  destruct (_ && _)%bool.
  - now rewrite res_setHeader_unsent.
  - reflexivity.
Qed.

Lemma send_fresh_run req s :
  send_fresh env req s = (Ok tt, set_res (revalidated env req (res s)) s).
Proof.
  unfold send_fresh, revalidated. erewrite bind_ok by reflexivity.
  destruct (req_fresh env req (res s)); [reflexivity|].
  unfold ret. now rewrite set_res_same.
Qed.

Lemma send_end_unsent chunk s :
  headersSent (res s) = false ->
  send_end chunk s = (Ok tt, set_res (ended chunk (res s)) s).
Proof.
  intros H. unfold send_end, ended.
  erewrite bind_ok by reflexivity.
  destruct ((statusCode (res s) =? 204) || (statusCode (res s) =? 304))%bool eqn:E.
  - erewrite bind_ok.
    2:{ erewrite bind_ok by (now apply res_removeHeader_unsent).
        erewrite bind_ok by (now apply res_removeHeader_unsent).
        erewrite bind_ok by (now apply res_removeHeader_unsent).
        reflexivity. }
    erewrite bind_ok by reflexivity. cbn [res set_res statusCode without_header].
    replace (statusCode (res s) =? 205) with false by lia.
    erewrite bind_ok by reflexivity. reflexivity.
  - erewrite bind_ok by reflexivity. erewrite bind_ok by reflexivity.
    destruct (statusCode (res s) =? 205).
    + erewrite bind_ok.
      2:{ erewrite bind_ok by (now apply res_setHeader_unsent).
          erewrite bind_ok by (now apply res_removeHeader_unsent).
          reflexivity. }
      reflexivity.
    + erewrite bind_ok by reflexivity. reflexivity.
Qed.

Lemma res_send_unsent req chunk s :
  headersSent (res s) = false ->
  res_send env req chunk s = (Ok tt, set_res (sent_with env req chunk (res s)) s).
Proof.
  intros H. unfold res_send, sent_with.
  erewrite bind_ok by (now apply send_type_unsent).
  erewrite bind_ok by (apply send_length_unsent; cbn; now rewrite typed_sent).
  erewrite bind_ok by apply send_fresh_run.
  rewrite send_end_unsent; [reflexivity|].
  cbn. now rewrite revalidated_sent, tagged_sent, typed_sent.
Qed.

Lemma res_json_unsent req v s :
  headersSent (res s) = false ->
  res_json env req v s = (Ok tt, set_res (json_reply env req v (res s)) s).
Proof.
  intros H. unfold res_json, json_reply.
  erewrite bind_ok by reflexivity.
  change (toLowerCase "Content-Type") with "content-type".
  destruct (truthy_str (resHeaders (res s) !! "content-type")).
  - erewrite bind_ok by reflexivity. now rewrite res_send_unsent.
  - erewrite bind_ok by (now apply res_setHeader_unsent).
    now rewrite res_send_unsent.
Qed.

(** On a response that has gone out the first header write of [res.send]
    throws. *)
Lemma res_send_sent req chunk s :
  headersSent (res s) = true ->
  res_send env req chunk s = (Throw ERR_HTTP_HEADERS_SENT, s).
Proof.
  intros H. unfold res_send.
  erewrite bind_throw; [reflexivity|].
  unfold send_type. erewrite bind_ok by reflexivity.
  destruct (truthy_str (resHeaders (res s) !! toLowerCase "Content-Type")) eqn:Hct.
  - erewrite bind_ok by reflexivity. erewrite bind_ok by reflexivity.
    destruct (resHeaders (res s) !! toLowerCase "Content-Type") as [t|];
      [|discriminate Hct].
    now apply res_setHeader_sent.
  - erewrite bind_throw; [reflexivity|]. now apply res_setHeader_sent.
Qed.

End Sending.

Lemma copy_header_sent r h x :
  headersSent (copy_header r h x) = headersSent x.
Proof.
  unfold copy_header. destruct (upHeaders r !! h) as [v|]; [|reflexivity].
  now destruct (String.eqb v "").
Qed.

Lemma copy_step (r : UpstreamResponse) h s :
  headersSent (res s) = false ->
  match upHeaders r !! h with
  | Some v => if String.eqb v "" then ret tt else res_setHeader h v
  | None => ret tt
  end s = (Ok tt, set_res (copy_header r h (res s)) s).
Proof.
  intros Hs. unfold copy_header.
  destruct (upHeaders r !! h) as [v|].
  - destruct (String.eqb v "").
    + unfold ret. now rewrite set_res_same.
    + now apply res_setHeader_unsent.
  - unfold ret. now rewrite set_res_same.
Qed.

Lemma helmeted_sent hs r : headersSent (helmeted hs r) = headersSent r.
Proof.
  revert r. induction hs as [|kv hs IH]; intros r; [reflexivity|].
  cbn. now rewrite IH.
Qed.

#[local] Arguments res_json : simpl never.
#[local] Arguments res_send : simpl never.
#[local] Arguments res_setHeader : simpl never.
#[local] Arguments res_removeHeader : simpl never.
#[local] Arguments res_status : simpl never.
#[local] Arguments toLowerCase : simpl never.
#[local] Arguments stringify : simpl never.
#[local] Arguments json_reply : simpl never.
#[local] Arguments sent_with : simpl never.
#[local] Arguments with_header : simpl never.

(** Symbolic execution: [run] shows that a computation returns normally and
    names the state it leaves; [mstep] moves the goal past one statement. *)
Ltac unsent :=
  cbn; rewrite ?copy_header_sent, ?helmeted_sent; cbn; first [assumption | reflexivity].

Ltac run :=
  cbv beta iota;
  lazymatch goal with
  | |- bind ?m ?k ?s = _ => erewrite (bind_ok m k s) by run; run
  | |- _ =>
      first
        [ apply res_setHeader_unsent; unsent
        | apply res_removeHeader_unsent; unsent
        | apply res_json_unsent; unsent
        | apply res_send_unsent; unsent
        | apply copy_step; unsent
        | reflexivity ]
  end.

Ltac mstep :=
  cbv beta iota;
  lazymatch goal with
  | |- context [bind ?m ?k ?s] => erewrite (bind_ok m k s) by run
  end.

Lemma axios_answered backend cfg r s :
  outcome backend cfg = Answered r ->
  axios backend cfg s = (Ok r, slept (snd (settle cfg (backend cfg))) (issued cfg s)).
Proof. intros Ho. unfold axios. do 2 mstep. now rewrite Ho. Qed.

Lemma axios_failed backend cfg e s :
  outcome backend cfg = Failed e ->
  axios backend cfg s = (Throw e, slept (snd (settle cfg (backend cfg))) (issued cfg s)).
Proof. intros Ho. unfold axios. do 2 mstep. now rewrite Ho. Qed.

(** ** Running the handler *)

Section Handler.

Context (env : Env).

Lemma forward_failed backend req e t s :
  outcome backend (proxy_config env req) = Failed e ->
  forward env backend req t s = (Throw e, at_catch env backend req s).
Proof.
  intros Ho. unfold forward. do 2 mstep.
  erewrite bind_throw by (apply axios_failed; exact Ho). reflexivity.
Qed.

Lemma forward_answered backend req r t s :
  headersSent (res s) = false ->
  outcome backend (proxy_config env req) = Answered r ->
  exists s',
    forward env backend req t s = (Ok tt, s')
    /\ res s' = relayed env req r (res s)
    /\ upstream s' = (upstream s ++ [proxy_config env req])%list
    /\ passed_on s' = passed_on s
    /\ windows s' = windows s.
Proof.
  intros Hs Ho. unfold forward. do 2 mstep.
  erewrite bind_ok by (apply axios_answered; exact Ho).
  do 2 mstep. unfold res_status, headersToForward, forEach.
  mstep. mstep.
  rewrite res_json_unsent by unsent.
  eexists. split; [reflexivity|]. cbn. auto.
Qed.

Lemma proxyRequest_answered backend req r s :
  headersSent (res s) = false ->
  outcome backend (proxy_config env req) = Answered r ->
  exists s',
    proxyRequest env backend req s = (Ok tt, s')
    /\ res s' = relayed env req r (res s)
    /\ upstream s' = (upstream s ++ [proxy_config env req])%list
    /\ passed_on s' = passed_on s
    /\ windows s' = windows s.
Proof.
  intros Hs Ho.
  destruct (forward_answered backend req r (clock s) s Hs Ho) as (s' & Hrun & H).
  exists s'. split; [|exact H].
  unfold proxyRequest. mstep. unfold try_catch. now rewrite Hrun.
Qed.

Lemma outcome_isAxiosError backend cfg e :
  outcome backend cfg = Failed e -> isAxiosError e = true.
Proof.
  unfold outcome, settle. destruct (_ && _)%bool; cbn.
  - now intros [= <-].
  - destruct (attempt (backend cfg)) as [r|e0]; cbn.
    + destruct (cfg_validateStatus cfg (status r)); cbn; [discriminate|].
      now intros [= <-].
    + now intros [= <-].
Qed.

(** With [validateStatus] accepting every status, no error of the
    gateway's upstream call carries a response. *)
Lemma failed_call_has_no_response backend req e :
  outcome backend (proxy_config env req) = Failed e -> response e = None.
Proof.
  unfold outcome, settle. cbn [cfg_timeout cfg_validateStatus proxy_config].
  destruct (_ && _)%bool; cbn [fst].
  - now intros [= <-].
  - destruct (attempt _) as [r|e0]; cbn [fst]; [discriminate|]. now intros [= <-].
Qed.

Ltac enter_catch Ho :=
  unfold proxyRequest; mstep; unfold try_catch;
  rewrite (forward_failed _ _ _ _ _ Ho);
  unfold recover; do 2 mstep.

Lemma proxyRequest_refused backend req e s :
  headersSent (res s) = false ->
  outcome backend (proxy_config env req) = Failed e ->
  code e = Some "ECONNREFUSED" ->
  proxyRequest env backend req s =
  (Ok tt,
   set_res
     (json_reply env req
        (JObj [("error", JStr "Backend service unavailable");
               ("message",
                JStr "The backend service is currently unavailable. Please try again later.");
               ("requestId", JStr (requestId req))])
        (with_status 503 (res s)))
     (caught env backend req e s)).
Proof.
  intros Hs Ho Hc. enter_catch Ho.
  unfold answer_axios_error.
  rewrite (outcome_isAxiosError _ _ _ Ho), Hc.
  rewrite bool_decide_eq_true_2 by reflexivity.
  unfold res_status. repeat mstep. reflexivity.
Qed.

Lemma proxyRequest_timed_out backend req e s :
  headersSent (res s) = false ->
  outcome backend (proxy_config env req) = Failed e ->
  code e = Some "ETIMEDOUT" \/ code e = Some "ECONNABORTED" ->
  proxyRequest env backend req s =
  (Ok tt,
   set_res
     (json_reply env req
        (JObj [("error", JStr "Backend service timeout");
               ("message",
                JStr "The backend service did not respond in time. Please try again later.");
               ("requestId", JStr (requestId req))])
        (with_status 504 (res s)))
     (caught env backend req e s)).
Proof.
  intros Hs Ho Hc. enter_catch Ho.
  unfold answer_axios_error.
  rewrite (outcome_isAxiosError _ _ _ Ho).
  rewrite bool_decide_eq_false_2 by (destruct Hc as [-> | ->]; discriminate).
  replace (bool_decide (code e = Some "ETIMEDOUT") || bool_decide (code e = Some "ECONNABORTED"))%bool
    with true
    by (destruct Hc as [-> | ->]; reflexivity).
  unfold res_status. repeat mstep. reflexivity.
Qed.

Lemma unclassified_tests c :
  classified c = false ->
  bool_decide (c = Some "ECONNREFUSED") = false
  /\ (bool_decide (c = Some "ETIMEDOUT") || bool_decide (c = Some "ECONNABORTED"))%bool = false.
Proof.
  unfold classified. intros H.
  destruct (bool_decide (c = Some "ECONNREFUSED")); [discriminate|].
  split; [reflexivity|exact H].
Qed.

Lemma proxyRequest_unclassified backend req e s :
  headersSent (res s) = false ->
  outcome backend (proxy_config env req) = Failed e ->
  classified (code e) = false ->
  response e = None ->
  proxyRequest env backend req s =
  (Ok tt,
   set_res
     (json_reply env req (JObj [("error", JStr "bad gateway"); ("requestId", JStr (requestId req))])
        (with_status 502 (res s)))
     (caught env backend req e s)).
Proof.
  intros Hs Ho Hc Hr. enter_catch Ho.
  unfold answer_axios_error.
  rewrite (outcome_isAxiosError _ _ _ Ho).
  destruct (unclassified_tests _ Hc) as [-> ->]. rewrite Hr.
  do 2 mstep. cbn. rewrite Hs. cbn.
  unfold res_status. mstep. now rewrite res_json_unsent by unsent.
Qed.

Lemma proxyRequest_unclassified_sent backend req e s :
  headersSent (res s) = true ->
  outcome backend (proxy_config env req) = Failed e ->
  classified (code e) = false ->
  response e = None ->
  proxyRequest env backend req s = (Ok tt, handed_on e (caught env backend req e s)).
Proof.
  intros Hs Ho Hc Hr. enter_catch Ho.
  unfold answer_axios_error.
  rewrite (outcome_isAxiosError _ _ _ Ho).
  destruct (unclassified_tests _ Hc) as [-> ->]. rewrite Hr.
  do 2 mstep. cbn. rewrite Hs. cbn.
  unfold next, next_error, default_handler. now rewrite Hs.
Qed.

End Handler.

(** ** Running the application *)

Section Application.

Context (env : Env).

Lemma helmet_run hs s :
  headersSent (res s) = false ->
  forEach hs (fun kv => res_setHeader (fst kv) (snd kv)) s
  = (Ok tt, set_res (helmeted hs (res s)) s).
Proof.
  revert s. induction hs as [|kv hs IH]; intros s Hs; cbn.
  - unfold ret. now rewrite set_res_same.
  - erewrite bind_ok by (now apply res_setHeader_unsent).
    now rewrite IH.
Qed.

Lemma app_run a s :
  app env a s
  = on_finish (finish_log env (raw a) (correlation_id a) (clock s))
      (dispatch env a (correlation_id a)) (set_res (ingress env a) s).
Proof.
  unfold app. mstep. unfold helmet.
  erewrite bind_ok by (now apply helmet_run).
  unfold request_id_middleware. mstep. mstep. reflexivity.
Qed.

Lemma ingress_unsent a : headersSent (ingress env a) = false.
Proof. unfold ingress, with_header. cbn. now rewrite helmeted_sent. Qed.

Lemma on_finish_run hook m s r s' :
  m s = (r, s') ->
  on_finish hook m s = (r, if headersSent (res s') then snd (hook s') else s').
Proof.
  intros H. unfold on_finish. rewrite H.
  destruct (headersSent (res s')); [|reflexivity]. now destruct (hook s').
Qed.

Lemma finish_log_run req id t s :
  finish_log env req id t s
  = (Ok tt, logged Stdout (finish_entry env req id (statusCode (res s)) (clock s - t) (clock s)) s).
Proof. reflexivity. Qed.

Lemma limiter_admits a k s :
  admitted (window_of a s) = true ->
  apiLimiter env (raw a) k (set_res (ingress env a) s) = k (counted env a s).
Proof.
  intros Ha. unfold apiLimiter. pose proof (ingress_unsent a) as Hi.
  do 3 mstep.
  erewrite bind_ok by (apply res_setHeader_unsent; exact Hi).
  erewrite bind_ok by (apply res_setHeader_unsent; exact Hi).
  erewrite bind_ok by (apply res_setHeader_unsent; exact Hi).
  cbn. fold (window_of a s). now rewrite Ha.
Qed.

Lemma limiter_rejects a k s :
  admitted (window_of a s) = false ->
  apiLimiter env (raw a) k (set_res (ingress env a) s)
  = (Ok tt,
     set_res
       (sent_with env (raw a) "Too many requests, please try again later."
          (with_status 429 (res (counted env a s))))
       (counted env a s)).
Proof.
  intros Ha. unfold apiLimiter. pose proof (ingress_unsent a) as Hi.
  do 3 mstep.
  erewrite bind_ok by (apply res_setHeader_unsent; exact Hi).
  erewrite bind_ok by (apply res_setHeader_unsent; exact Hi).
  erewrite bind_ok by (apply res_setHeader_unsent; exact Hi).
  cbn. fold (window_of a s). rewrite Ha.
  unfold res_status. mstep. now rewrite res_send_unsent by exact Hi.
Qed.

Lemma counted_unsent a s : headersSent (res (counted env a s)) = false.
Proof. unfold counted, limited, with_header. cbn. apply ingress_unsent. Qed.

(** An admitted request with a parsed body reaches [proxyRequest], and the
    response has not been sent by then. *)
Lemma dispatch_api a b s :
  route a = Api ->
  parsed a = Parsed b ->
  admitted (window_of a s) = true ->
  dispatch env a (correlation_id a) (set_res (ingress env a) s)
  = proxyRequest env (backend a) (request_of a b) (counted env a s).
Proof.
  intros Hr Hp Ha. unfold dispatch, under_api_mount. rewrite Hr. cbv beta iota.
  rewrite limiter_admits by exact Ha. now rewrite Hp.
Qed.

Lemma dispatch_rejected a s :
  under_api_mount (route a) = true ->
  admitted (window_of a s) = false ->
  dispatch env a (correlation_id a) (set_res (ingress env a) s)
  = (Ok tt,
     set_res
       (sent_with env (raw a) "Too many requests, please try again later."
          (with_status 429 (res (counted env a s))))
       (counted env a s)).
Proof.
  intros Hr Ha. unfold dispatch. rewrite Hr.
  now apply limiter_rejects.
Qed.

End Application.

(** ** Reading the response *)

Lemma lookup_with_header n v r k :
  resHeaders (with_header n v r) !! k
  = if decide (toLowerCase n = k) then Some v else resHeaders r !! k.
Proof. unfold with_header. cbn. apply lookup_insert. Qed.

(** Decides the [decide] tests on literal header names left by
    [lookup_with_header]. *)
Ltac names :=
  repeat
    (rewrite lookup_with_header;
     lazymatch goal with
     | |- context [decide (toLowerCase ?n = ?k)] =>
         let E := fresh "E" in
         destruct (decide (toLowerCase n = k)) as [E|E];
         [ try (exfalso; vm_compute in E; discriminate E)
         | try (exfalso; apply E; vm_compute; reflexivity) ]
     end).

Lemma lookup_without_header n r k :
  resHeaders (without_header n r) !! k
  = if decide (toLowerCase n = k) then None else resHeaders r !! k.
Proof.
  unfold without_header. cbn. destruct (decide _) as [<-|E].
  - apply lookup_delete_eq.
  - now apply lookup_delete_ne.
Qed.

(** A status outside 2xx and other than 304: Express sends it as it is,
    whatever the request says about caches. *)
Definition plain_status (st : Z) : bool :=
  negb ((200 <=? st) && (st <? 300) || (st =? 304))%bool.

(** Whether [res.send] answers 304 instead: the request is a GET or a
    HEAD, the status so far is 2xx or 304, and the client's copy is good
    for the ETag and the Last-Modified the response has by then. *)
Definition not_modified (env : Env) (req : IncomingMessage) (chunk : string)
    (r : Response) : bool :=
  req_fresh env req (tagged env chunk (typed env r)).

Section ReadingSent.

Context (env : Env) (req : IncomingMessage).

Lemma typed_status r : statusCode (typed env r) = statusCode r.
Proof.
  unfold typed. destruct (truthy_str _); cbv zeta.
  - now destruct (resHeaders r !! "content-type").
  - now destruct (resHeaders (with_header _ _ r) !! "content-type").
Qed.

Lemma tagged_status chunk r : statusCode (tagged env chunk r) = statusCode r.
Proof. unfold tagged. now destruct (_ && _)%bool. Qed.

Lemma typed_type r :
  resHeaders (typed env r) !! "content-type"
  = Some (setCharset env (or_default (resHeaders r !! "content-type")
                            "text/html; charset=utf-8")).
Proof.
  unfold typed, truthy_str, or_default.
  destruct (resHeaders r !! "content-type") as [t|] eqn:Ht.
  - destruct (String.eqb t ""); cbn [negb]; cbv zeta.
    + rewrite lookup_with_header, decide_True by reflexivity.
      now rewrite lookup_with_header, decide_True.
    + rewrite Ht. now rewrite lookup_with_header, decide_True.
  - cbv zeta. rewrite lookup_with_header, decide_True by reflexivity.
    now rewrite lookup_with_header, decide_True.
Qed.

Lemma typed_other r k :
  k <> "content-type" -> resHeaders (typed env r) !! k = resHeaders r !! k.
Proof.
  intros Hk. unfold typed. destruct (truthy_str _); cbv zeta.
  - destruct (resHeaders r !! "content-type"); [|reflexivity].
    rewrite lookup_with_header. destruct (decide _) as [E|_]; [|reflexivity].
    now rewrite <- E in Hk.
  - destruct (resHeaders (with_header _ _ r) !! "content-type").
    + rewrite lookup_with_header. destruct (decide _) as [E|_]; [now rewrite <- E in Hk|].
      rewrite lookup_with_header. destruct (decide _) as [E|_]; [now rewrite <- E in Hk|].
      reflexivity.
    + rewrite lookup_with_header. destruct (decide _) as [E|_]; [now rewrite <- E in Hk|].
      reflexivity.
Qed.

Lemma tagged_length chunk r :
  resHeaders (tagged env chunk r) !! "content-length"
  = Some (pretty (String.length chunk)).
Proof.
  unfold tagged. destruct (_ && _)%bool.
  - rewrite lookup_with_header. destruct (decide _) as [E|_]; [now vm_compute in E|].
    now rewrite lookup_with_header, decide_True.
  - now rewrite lookup_with_header, decide_True.
Qed.

Lemma tagged_etag chunk r :
  resHeaders (tagged env chunk r) !! "etag"
  = if (negb (truthy_str (resHeaders r !! "etag"))
        && negb (String.eqb (etag env chunk) ""))%bool
    then Some (etag env chunk) else resHeaders r !! "etag".
Proof.
  unfold tagged. destruct (_ && _)%bool.
  - now rewrite lookup_with_header, decide_True.
  - rewrite lookup_with_header. destruct (decide _) as [E|_]; [now vm_compute in E|].
    reflexivity.
Qed.

Lemma tagged_other chunk r k :
  k <> "content-length" -> k <> "etag" ->
  resHeaders (tagged env chunk r) !! k = resHeaders r !! k.
Proof.
  intros Hl He. unfold tagged. destruct (_ && _)%bool.
  - rewrite lookup_with_header. destruct (decide _) as [E|_]; [now rewrite <- E in He|].
    rewrite lookup_with_header. destruct (decide _) as [E|_]; [now rewrite <- E in Hl|].
    reflexivity.
  - rewrite lookup_with_header. destruct (decide _) as [E|_]; [now rewrite <- E in Hl|].
    reflexivity.
Qed.

Lemma revalidated_headers r : resHeaders (revalidated env req r) = resHeaders r.
Proof. unfold revalidated. now destruct (req_fresh env req r). Qed.

Lemma revalidated_status r :
  statusCode (revalidated env req r) = if req_fresh env req r then 304 else statusCode r.
Proof. unfold revalidated. now destruct (req_fresh env req r). Qed.

Lemma ended_status chunk r : statusCode (ended chunk r) = statusCode r.
Proof.
  unfold ended. destruct (_ || _)%bool; [reflexivity|].
  now destruct (statusCode r =? 205).
Qed.

Lemma ended_sent chunk r : headersSent (ended chunk r) = true.
Proof.
  unfold ended. destruct (_ || _)%bool; [reflexivity|].
  now destruct (statusCode r =? 205).
Qed.

Lemma ended_body chunk r :
  resBody (ended chunk r) = Some (if bodiless (statusCode r) then "" else chunk).
Proof.
  unfold ended, bodiless.
  destruct (statusCode r =? 204), (statusCode r =? 304), (statusCode r =? 205);
    reflexivity.
Qed.

Lemma ended_other chunk r k :
  k <> "content-type" -> k <> "content-length" -> k <> "transfer-encoding" ->
  resHeaders (ended chunk r) !! k = resHeaders r !! k.
Proof.
  intros Ht Hl He. unfold ended.
  assert (Hdrop : forall n x, toLowerCase n <> k ->
            resHeaders (without_header n x) !! k = resHeaders x !! k).
  { intros n x Hn. rewrite lookup_without_header. now destruct (decide _). }
  destruct (_ || _)%bool; [|destruct (statusCode r =? 205)]; cbn [resHeaders written].
  - rewrite !Hdrop; [reflexivity|..]; intros E; vm_compute in E; congruence.
  - rewrite Hdrop by (intros E; vm_compute in E; congruence).
    rewrite lookup_with_header. destruct (decide _) as [E|_]; [|reflexivity].
    vm_compute in E. congruence.
  - reflexivity.
Qed.

Lemma ended_length chunk r :
  resHeaders (ended chunk r) !! "content-length"
  = if ((statusCode r =? 204) || (statusCode r =? 304))%bool then None
    else if statusCode r =? 205 then Some "0"
    else resHeaders r !! "content-length".
Proof.
  unfold ended. destruct (_ || _)%bool; [|destruct (statusCode r =? 205)];
    cbn [resHeaders written].
  - rewrite lookup_without_header. destruct (decide _) as [E|_]; [now vm_compute in E|].
    now rewrite lookup_without_header, decide_True.
  - rewrite lookup_without_header. destruct (decide _) as [E|_]; [now vm_compute in E|].
    now rewrite lookup_with_header, decide_True.
  - reflexivity.
Qed.

Lemma ended_type chunk r :
  resHeaders (ended chunk r) !! "content-type"
  = if ((statusCode r =? 204) || (statusCode r =? 304))%bool then None
    else resHeaders r !! "content-type".
Proof.
  unfold ended. destruct (_ || _)%bool; [|destruct (statusCode r =? 205)];
    cbn [resHeaders written].
  - rewrite lookup_without_header. destruct (decide _) as [E|_]; [now vm_compute in E|].
    rewrite lookup_without_header. destruct (decide _) as [E|_]; [now vm_compute in E|].
    now rewrite lookup_without_header, decide_True.
  - rewrite lookup_without_header. destruct (decide _) as [E|_]; [now vm_compute in E|].
    rewrite lookup_with_header. destruct (decide _) as [E|_]; [now vm_compute in E|].
    reflexivity.
  - reflexivity.
Qed.

(** *** What [res.send] leaves *)

Lemma sent_with_sent chunk r : headersSent (sent_with env req chunk r) = true.
Proof. apply ended_sent. Qed.

Lemma sent_with_status chunk r :
  statusCode (sent_with env req chunk r)
  = if not_modified env req chunk r then 304 else statusCode r.
Proof.
  unfold sent_with, not_modified.
  now rewrite ended_status, revalidated_status, tagged_status, typed_status.
Qed.

Lemma sent_with_body chunk r :
  resBody (sent_with env req chunk r)
  = Some (if bodiless (statusCode (sent_with env req chunk r)) then "" else chunk).
Proof. unfold sent_with. now rewrite ended_body, ended_status. Qed.

Lemma sent_with_length chunk r :
  resHeaders (sent_with env req chunk r) !! "content-length"
  = let st := statusCode (sent_with env req chunk r) in
    if ((st =? 204) || (st =? 304))%bool then None
    else if st =? 205 then Some "0"
    else Some (pretty (String.length chunk)).
Proof.
  cbv zeta. unfold sent_with.
  now rewrite ended_length, ended_status, revalidated_headers, tagged_length.
Qed.

Lemma sent_with_type chunk r :
  resHeaders (sent_with env req chunk r) !! "content-type"
  = let st := statusCode (sent_with env req chunk r) in
    if ((st =? 204) || (st =? 304))%bool then None
    else Some (setCharset env (or_default (resHeaders r !! "content-type")
                                 "text/html; charset=utf-8")).
Proof.
  cbv zeta. unfold sent_with.
  rewrite ended_type, ended_status, revalidated_headers.
  now rewrite tagged_other, typed_type by discriminate.
Qed.

Lemma sent_with_etag chunk r :
  resHeaders (sent_with env req chunk r) !! "etag"
  = if (negb (truthy_str (resHeaders r !! "etag"))
        && negb (String.eqb (etag env chunk) ""))%bool
    then Some (etag env chunk) else resHeaders r !! "etag".
Proof.
  unfold sent_with.
  rewrite ended_other, revalidated_headers, tagged_etag by discriminate.
  now rewrite typed_other by discriminate.
Qed.

Lemma sent_with_other chunk r k :
  k <> "content-type" -> k <> "content-length" -> k <> "etag" ->
  k <> "transfer-encoding" ->
  resHeaders (sent_with env req chunk r) !! k = resHeaders r !! k.
Proof.
  intros Ht Hl He Hx. unfold sent_with.
  rewrite ended_other, revalidated_headers by assumption.
  now rewrite tagged_other, typed_other.
Qed.

(** *** When the status is the one the handler set *)

Lemma req_fresh_plain r : plain_status (statusCode r) = true -> req_fresh env req r = false.
Proof.
  unfold plain_status, req_fresh. intros H. apply negb_true_iff in H. rewrite H.
  now rewrite andb_false_r.
Qed.

Lemma fresh_unconditional etag lm :
  unconditional req = true -> Fresh.fresh (Date_parse env) (headers req) etag lm = false.
Proof. unfold unconditional, Fresh.fresh. now intros ->. Qed.

Lemma req_fresh_unconditional r : unconditional req = true -> req_fresh env req r = false.
Proof.
  intros H. unfold req_fresh. rewrite fresh_unconditional by exact H.
  apply andb_false_r.
Qed.

Lemma not_modified_plain chunk r :
  plain_status (statusCode r) = true -> not_modified env req chunk r = false.
Proof.
  intros H. apply req_fresh_plain. now rewrite tagged_status, typed_status.
Qed.

Lemma not_modified_unconditional chunk r :
  unconditional req = true -> not_modified env req chunk r = false.
Proof. intros H. now apply req_fresh_unconditional. Qed.

Lemma not_modified_star chunk r :
  method req = "GET" ->
  plain_status (statusCode r) = false ->
  headers req !! "if-none-match" = Some "*" ->
  headers req !! "cache-control" = None ->
  headers req !! "if-modified-since" = None ->
  not_modified env req chunk r = true.
Proof.
  intros Hm Hp Hnm Hcc Hims. unfold not_modified, req_fresh.
  rewrite tagged_status, typed_status, Hm.
  unfold plain_status in Hp. apply negb_false_iff in Hp. rewrite Hp.
  unfold Fresh.fresh. now rewrite Hnm, Hcc, Hims.
Qed.

Lemma plain_not_bodiless st : plain_status st = true -> bodiless st = false.
Proof.
  unfold plain_status, bodiless. intros H. apply negb_true_iff in H.
  destruct (st =? 204) eqn:E1; [apply Z.eqb_eq in E1; subst; discriminate H|].
  destruct (st =? 205) eqn:E2; [apply Z.eqb_eq in E2; subst; discriminate H|].
  destruct (st =? 304) eqn:E3; [apply Z.eqb_eq in E3; subst; discriminate H|].
  reflexivity.
Qed.

Lemma sent_with_plain chunk r :
  plain_status (statusCode r) = true ->
  statusCode (sent_with env req chunk r) = statusCode r
  /\ resBody (sent_with env req chunk r) = Some chunk.
Proof.
  intros H. rewrite sent_with_body, sent_with_status.
  rewrite not_modified_plain by exact H. now rewrite plain_not_bodiless.
Qed.

(** *** What [res.json] leaves *)

Lemma json_reply_sent v r : headersSent (json_reply env req v r) = true.
Proof. apply sent_with_sent. Qed.

Lemma json_reply_status v r :
  statusCode (json_reply env req v r)
  = if not_modified env req (stringify v)
         (if truthy_str (resHeaders r !! "content-type") then r
          else with_header "Content-Type" "application/json; charset=utf-8" r)
    then 304 else statusCode r.
Proof.
  unfold json_reply. rewrite sent_with_status.
  now destruct (truthy_str _).
Qed.

Lemma json_reply_body v r :
  resBody (json_reply env req v r)
  = Some (if bodiless (statusCode (json_reply env req v r)) then "" else stringify v).
Proof. apply sent_with_body. Qed.

Lemma json_reply_plain v r :
  plain_status (statusCode r) = true ->
  statusCode (json_reply env req v r) = statusCode r
  /\ resBody (json_reply env req v r) = Some (stringify v).
Proof.
  intros H. unfold json_reply.
  destruct (truthy_str _); [now apply sent_with_plain|].
  now apply (sent_with_plain (stringify v)
               (with_header "Content-Type" "application/json; charset=utf-8" r)).
Qed.

Lemma json_reply_unconditional v r :
  unconditional req = true ->
  statusCode (json_reply env req v r) = statusCode r.
Proof.
  intros H. rewrite json_reply_status. now rewrite not_modified_unconditional.
Qed.

Lemma json_reply_length v r :
  resHeaders (json_reply env req v r) !! "content-length"
  = let st := statusCode (json_reply env req v r) in
    if ((st =? 204) || (st =? 304))%bool then None
    else if st =? 205 then Some "0"
    else Some (pretty (String.length (stringify v))).
Proof. apply sent_with_length. Qed.

Lemma json_reply_type v r :
  resHeaders (json_reply env req v r) !! "content-type"
  = let st := statusCode (json_reply env req v r) in
    if ((st =? 204) || (st =? 304))%bool then None
    else Some (setCharset env (or_default (resHeaders r !! "content-type")
                                 "application/json; charset=utf-8")).
Proof.
  cbv zeta. unfold json_reply. rewrite sent_with_type. cbv zeta.
  destruct (_ || _)%bool; [reflexivity|]. f_equal. f_equal.
  unfold truthy_str, or_default.
  destruct (resHeaders r !! "content-type") as [t|] eqn:Ht.
  - destruct (String.eqb t "") eqn:E; cbn [negb].
    + now rewrite lookup_with_header, decide_True.
    + now rewrite Ht, E.
  - now rewrite lookup_with_header, decide_True.
Qed.

Lemma json_reply_etag v r :
  resHeaders (json_reply env req v r) !! "etag"
  = if (negb (truthy_str (resHeaders r !! "etag"))
        && negb (String.eqb (etag env (stringify v)) ""))%bool
    then Some (etag env (stringify v)) else resHeaders r !! "etag".
Proof.
  unfold json_reply. rewrite sent_with_etag.
  destruct (truthy_str (resHeaders r !! "content-type")); [reflexivity|].
  rewrite lookup_with_header. destruct (decide _) as [E|_]; [now vm_compute in E|].
  reflexivity.
Qed.

Lemma json_reply_other v r k :
  k <> "content-type" -> k <> "content-length" -> k <> "etag" ->
  k <> "transfer-encoding" ->
  resHeaders (json_reply env req v r) !! k = resHeaders r !! k.
Proof.
  intros Ht Hl He Hx. unfold json_reply. rewrite sent_with_other by assumption.
  destruct (truthy_str _); [reflexivity|].
  rewrite lookup_with_header. destruct (decide _) as [E|_]; [|reflexivity].
  now rewrite <- E in Ht.
Qed.

End ReadingSent.

Lemma copy_header_lookup r h x k :
  resHeaders (copy_header r h x) !! k
  = if decide (toLowerCase h = k) then
      match upHeaders r !! h with
      | Some v => if String.eqb v "" then resHeaders x !! k else Some v
      | None => resHeaders x !! k
      end
    else resHeaders x !! k.
Proof.
  unfold copy_header. destruct (upHeaders r !! h) as [v|].
  - destruct (String.eqb v "").
    + now destruct (decide _).
    + apply lookup_with_header.
  - now destruct (decide _).
Qed.

Lemma copy_header_status r h x : statusCode (copy_header r h x) = statusCode x.
Proof.
  unfold copy_header. destruct (upHeaders r !! h) as [v|]; [|reflexivity].
  now destruct (String.eqb v "").
Qed.

Section Reading.

Context (env : Env).

Lemma counted_request_id a s :
  resHeaders (res (counted env a s)) !! "x-request-id" = Some (correlation_id a).
Proof. unfold counted, limited, ingress. cbn. now names. Qed.

(** The whole application on an admitted [/api/*] request, given what
    [proxyRequest] does with it. *)
Lemma app_api a b s r s1 :
  route a = Api ->
  parsed a = Parsed b ->
  admitted (window_of a s) = true ->
  proxyRequest env (backend a) (request_of a b) (counted env a s) = (r, s1) ->
  headersSent (res s1) = true ->
  app env a s
  = (r, logged Stdout
          (finish_entry env (raw a) (correlation_id a) (statusCode (res s1))
             (clock s1 - clock s) (clock s1)) s1).
Proof.
  intros Hr Hp Ha Hrun Hsent. rewrite app_run.
  erewrite on_finish_run by (rewrite (dispatch_api env a b) by assumption; exact Hrun).
  now rewrite Hsent.
Qed.

End Reading.

(** ** The forwarder relays what the backend answered *)

Section Relay.

Context (env : Env).

(** The content type of the relayed answer before Express sets its
    charset: the upstream one when there is one, else the one the response
    has, else the one of [res.json]. *)
Definition relay_type (r : UpstreamResponse) (x : Response) : string :=
  or_default (upHeaders r !! "content-type")
    (or_default (resHeaders x !! "content-type") "application/json; charset=utf-8").

(** The request asks for revalidation with a method that allows it. *)
Definition revalidating (req : IncomingMessage) : Prop :=
  (method req = "GET" \/ method req = "HEAD") /\ unconditional req = false.

Lemma not_modified_revalidating req chunk x :
  not_modified env req chunk x = true ->
  revalidating req /\ plain_status (statusCode x) = false.
Proof.
  unfold not_modified, req_fresh. rewrite tagged_status, typed_status.
  intros H. apply andb_true_iff in H as [H Hf]. apply andb_true_iff in H as [Hm Hst].
  split; [split|].
  - apply orb_true_iff in Hm as [Hm|Hm]; apply String.eqb_eq in Hm; auto.
  - destruct (unconditional req) eqn:Hu; [|reflexivity].
    now rewrite fresh_unconditional in Hf.
  - unfold plain_status. now rewrite Hst.
Qed.

Lemma relayed_sent req r x : headersSent (relayed env req r x) = true.
Proof. apply json_reply_sent. Qed.

Lemma relayed_status req r x :
  statusCode (relayed env req r x) = status r
  \/ (statusCode (relayed env req r x) = 304
      /\ revalidating req /\ plain_status (status r) = false).
Proof.
  unfold relayed. rewrite json_reply_status.
  destruct (not_modified _ _ _ _) eqn:Hn.
  - right. split; [reflexivity|].
    apply not_modified_revalidating in Hn as [Hr Hp]. split; [exact Hr|].
    destruct (truthy_str _) in Hp;
      [|change (statusCode (with_header ?n ?v ?y)) with (statusCode y) in Hp];
      now rewrite !copy_header_status in Hp.
  - left. now rewrite !copy_header_status.
Qed.

Lemma relayed_body req r x :
  resBody (relayed env req r x)
  = Some (if bodiless (statusCode (relayed env req r x)) then ""
          else stringify (value_of (data r))).
Proof. apply json_reply_body. Qed.

Lemma relayed_length req r x :
  resHeaders (relayed env req r x) !! "content-length"
  = let st := statusCode (relayed env req r x) in
    if ((st =? 204) || (st =? 304))%bool then None
    else if st =? 205 then Some "0"
    else Some (pretty (String.length (stringify (value_of (data r))))).
Proof. apply json_reply_length. Qed.

Lemma relayed_other req r x k :
  k <> "content-type" -> k <> "content-length" -> k <> "etag" ->
  k <> "transfer-encoding" ->
  resHeaders (relayed env req r x) !! k = resHeaders x !! k.
Proof.
  intros Ht Hl He Hx. unfold relayed. rewrite json_reply_other by assumption.
  rewrite !copy_header_lookup.
  destruct (decide _) as [E|_]; [subst k; exfalso; now apply Hl|].
  destruct (decide _) as [E|_]; [subst k; exfalso; now apply Ht|reflexivity].
Qed.

Lemma relayed_type req r x :
  resHeaders (relayed env req r x) !! "content-type"
  = let st := statusCode (relayed env req r x) in
    if ((st =? 204) || (st =? 304))%bool then None
    else Some (setCharset env (relay_type r x)).
Proof.
  cbv zeta. unfold relayed at 1. rewrite json_reply_type. cbv zeta.
  fold (relayed env req r x). destruct (_ || _)%bool; [reflexivity|].
  f_equal. f_equal. unfold relay_type. rewrite !copy_header_lookup.
  destruct (decide _) as [E|_]; [now vm_compute in E|].
  rewrite decide_True by reflexivity. unfold or_default.
  destruct (upHeaders r !! "content-type") as [v|]; [|reflexivity].
  destruct (String.eqb v "") eqn:E; [reflexivity|]. now rewrite E.
Qed.

Lemma relayed_etag req r x :
  resHeaders (relayed env req r x) !! "etag"
  = if (negb (truthy_str (resHeaders x !! "etag"))
        && negb (String.eqb (etag env (stringify (value_of (data r)))) ""))%bool
    then Some (etag env (stringify (value_of (data r))))
    else resHeaders x !! "etag".
Proof.
  unfold relayed. rewrite json_reply_etag. rewrite !copy_header_lookup.
  destruct (decide _) as [E|_]; [now vm_compute in E|].
  destruct (decide _) as [E|_]; [now vm_compute in E|].
  reflexivity.
Qed.

(** C1, as amended.  When the upstream call of an [/api/*] request yields
    an HTTP response, whatever its status, the gateway answers with that
    status, unless the request is a GET or HEAD that asks for revalidation
    and the status is 2xx or 304: then Express may answer 304.  The body
    is the JSON encoding of the upstream data, a text body included, and
    is empty on a final status of 204, 205 or 304.  Content-Length is the
    length of that encoding (none on 204 and 304, 0 on 205).  The content
    type is the upstream one, if not empty, with the charset Express sets
    (none on 204 and 304).  The ETag is computed from the encoded body
    unless the response had one.  No other header of the response, but
    for Transfer-Encoding, depends on the upstream response, and the
    correlation id is among the response headers.  (The content type is
    taken to be a media type, as on another text Express throws, and the
    numbers of the data to be safe integers, which [stringify] prints as
    JavaScript does.) *)
Theorem upstream_response_relayed a b r s :
  route a = Api ->
  parsed a = Parsed b ->
  admitted (window_of a s) = true ->
  outcome (backend a) (proxy_config env (request_of a b)) = Answered r ->
  is_media_type env (relay_type r (res (counted env a s))) = true ->
  safe_integers (value_of (data r)) = true ->
  exists s',
    app env a s = (Ok tt, s')
    /\ headersSent (res s') = true
    /\ (statusCode (res s') = status r
        \/ (statusCode (res s') = 304
            /\ revalidating (raw a) /\ plain_status (status r) = false))
    /\ resBody (res s')
       = Some (if bodiless (statusCode (res s')) then ""
               else stringify (value_of (data r)))
    /\ resHeaders (res s') !! "content-length"
       = (if ((statusCode (res s') =? 204) || (statusCode (res s') =? 304))%bool
          then None
          else if statusCode (res s') =? 205 then Some "0"
          else Some (pretty (String.length (stringify (value_of (data r))))))
    /\ resHeaders (res s') !! "content-type"
       = (if ((statusCode (res s') =? 204) || (statusCode (res s') =? 304))%bool
          then None
          else Some (setCharset env (relay_type r (res (counted env a s)))))
    /\ resHeaders (res s') !! "etag"
       = (if (negb (truthy_str (resHeaders (res (counted env a s)) !! "etag"))
              && negb (String.eqb (etag env (stringify (value_of (data r)))) ""))%bool
          then Some (etag env (stringify (value_of (data r))))
          else resHeaders (res (counted env a s)) !! "etag")
    /\ (forall k,
          k <> "content-type" -> k <> "content-length" -> k <> "etag" ->
          k <> "transfer-encoding" ->
          resHeaders (res s') !! k = resHeaders (res (counted env a s)) !! k)
    /\ resHeaders (res s') !! "x-request-id" = Some (correlation_id a).
Proof.
  intros Hr Hp Ha Ho _ _.
  destruct (proxyRequest_answered env (backend a) (request_of a b) r (counted env a s)
              (counted_unsent env a s) Ho) as (s1 & Hrun & Hres & _).
  eexists. split.
  { apply (app_api env a b s _ s1 Hr Hp Ha Hrun). rewrite Hres. apply relayed_sent. }
  cbn [res logged]. rewrite Hres. cbn [incoming request_of].
  split; [apply relayed_sent|].
  split; [apply relayed_status|].
  split; [apply relayed_body|].
  split; [apply relayed_length|].
  split; [apply relayed_type|].
  split; [apply relayed_etag|].
  split; [intros k Ht Hl He Hx; now apply relayed_other|].
  rewrite relayed_other by discriminate. apply counted_request_id.
Qed.

End Relay.

(** C1, witness: the 404 of the backend with its JSON object. *)
Lemma upstream_response_relayed_witness :
  exists s',
    app Sample.env (Sample.arrival Sample.get_items (Sample.answers Sample.not_found))
      Sample.idle = (Ok tt, s')
    /\ statusCode (res s') = 404
    /\ resBody (res s') = Some (stringify (JObj [("msg", JStr "not found")])).
Proof.
  destruct (upstream_response_relayed Sample.env
              (Sample.arrival Sample.get_items (Sample.answers Sample.not_found))
              (Some (JObj [])) Sample.not_found Sample.idle)
    as (s' & Hrun & _ & Hst & Hbody & _); try reflexivity.
  exists s'. split; [exact Hrun|].
  assert (H404 : statusCode (res s') = 404).
  { destruct Hst as [H|(_ & _ & H)]; [exact H|discriminate H]. }
  split; [exact H404|]. rewrite Hbody, H404. reflexivity.
Defined.

(** C1, counterexample: a text/plain body [hello] does not reach the caller
    byte for byte; it arrives as the JSON string literal, quotes included,
    two bytes longer than what the backend sent. *)
Lemma text_body_is_reencoded :
  let a := Sample.arrival Sample.get_items (Sample.answers Sample.text_plain) in
  let out := res (snd (app Sample.env a Sample.idle)) in
  body_by_spec (data Sample.text_plain) = "hello"
  /\ resBody out = Some (quote "hello")
  /\ resBody out <> Some (body_by_spec (data Sample.text_plain))
  /\ upHeaders Sample.text_plain !! "content-length" = Some "5"
  /\ resHeaders out !! "content-length" = Some "7".
Proof.
  vm_compute. repeat split; try reflexivity. discriminate.
Qed.

(** ** Failures of the upstream call *)

Section Failures.

Context (env : Env).

(** What the caller sees once the [catch] block has answered with the
    status [st] and the object [v]. *)
Lemma answered_with a b s e st v :
  route a = Api ->
  parsed a = Parsed b ->
  admitted (window_of a s) = true ->
  plain_status st = true ->
  proxyRequest env (backend a) (request_of a b) (counted env a s)
  = (Ok tt,
     set_res (json_reply env (raw a) v (with_status st (res (counted env a s))))
       (caught env (backend a) (request_of a b) e (counted env a s))) ->
  exists s',
    app env a s = (Ok tt, s')
    /\ statusCode (res s') = st
    /\ resBody (res s') = Some (stringify v)
    /\ resHeaders (res s') !! "x-request-id" = Some (correlation_id a)
    /\ upstream s' = (upstream s ++ [proxy_config env (request_of a b)])%list
    /\ passed_on s' = passed_on s.
Proof.
  intros Hr Hp Ha Hst Hrun. eexists. split.
  { apply (app_api env a b s _ _ Hr Hp Ha Hrun). apply json_reply_sent. }
  cbn [res logged set_res upstream passed_on].
  destruct (json_reply_plain env (raw a) v (with_status st (res (counted env a s))) Hst)
    as [Hs Hb].
  split; [exact Hs|].
  split; [exact Hb|].
  split; [|split; reflexivity].
  rewrite json_reply_other by discriminate.
  apply counted_request_id.
Qed.

(** C2, as amended.  When the upstream call of an [/api/*] request fails
    with connection refused (the code ECONNREFUSED, and no other way of the
    upstream being out of reach), the gateway answers 503 with a JSON body
    whose keys are error (Backend service unavailable), message and the
    correlation ID of the request; one upstream request has gone out, and
    no second one. *)
Theorem refused_gives_503 a b e s :
  route a = Api ->
  parsed a = Parsed b ->
  admitted (window_of a s) = true ->
  outcome (backend a) (proxy_config env (request_of a b)) = Failed e ->
  code e = Some "ECONNREFUSED" ->
  exists s',
    app env a s = (Ok tt, s')
    /\ statusCode (res s') = 503
    /\ resBody (res s')
       = Some (stringify (JObj [
           ("error", JStr "Backend service unavailable");
           ("message",
            JStr "The backend service is currently unavailable. Please try again later.");
           ("requestId", JStr (correlation_id a))]))
    /\ resHeaders (res s') !! "x-request-id" = Some (correlation_id a)
    /\ upstream s' = (upstream s ++ [proxy_config env (request_of a b)])%list
    /\ passed_on s' = passed_on s.
Proof.
  intros Hr Hp Ha Ho Hc.
  apply (answered_with a b s e); try assumption; [reflexivity|].
  apply proxyRequest_refused; [apply counted_unsent|assumption..].
Qed.

(** C3.  When the upstream call of an [/api/*] request fails because it
    timed out or was aborted, the gateway answers 504 with a JSON body whose
    keys are error (Backend service timeout), message and the correlation ID
    of the request. *)
Theorem timeout_gives_504 a b e s :
  route a = Api ->
  parsed a = Parsed b ->
  admitted (window_of a s) = true ->
  outcome (backend a) (proxy_config env (request_of a b)) = Failed e ->
  code e = Some "ETIMEDOUT" \/ code e = Some "ECONNABORTED" ->
  exists s',
    app env a s = (Ok tt, s')
    /\ statusCode (res s') = 504
    /\ resBody (res s')
       = Some (stringify (JObj [
           ("error", JStr "Backend service timeout");
           ("message",
            JStr "The backend service did not respond in time. Please try again later.");
           ("requestId", JStr (correlation_id a))]))
    /\ resHeaders (res s') !! "x-request-id" = Some (correlation_id a)
    /\ upstream s' = (upstream s ++ [proxy_config env (request_of a b)])%list
    /\ passed_on s' = passed_on s.
Proof.
  intros Hr Hp Ha Ho Hc.
  apply (answered_with a b s e); try assumption; [reflexivity|].
  apply proxyRequest_timed_out; [apply counted_unsent|assumption..].
Qed.


(** A backend slower than the 30 seconds the handler allows makes the call
    fail with the code of an aborted connection. *)
Lemma slow_backend_times_out backend req :
  30000 < elapsed (backend (proxy_config env req)) ->
  outcome backend (proxy_config env req) = Failed (timeout_error 30000).
Proof.
  intros H. unfold outcome, settle. cbn [cfg_timeout proxy_config].
  apply Z.ltb_lt in H. now rewrite H.
Qed.

(** C4.  When the upstream call fails with a code that is neither
    connection refused nor a timeout or abort, and the error carries no
    response: if nothing has been sent to the caller, the handler answers 502
    with the JSON body of keys error (bad gateway) and the correlation ID; if
    the response has already been sent, the handler leaves it as it is and
    hands the error to [next]. *)
Theorem unclassified_failure backend req e s :
  outcome backend (proxy_config env req) = Failed e ->
  classified (code e) = false ->
  response e = None ->
  exists s',
    proxyRequest env backend req s = (Ok tt, s')
    /\ upstream s' = (upstream s ++ [proxy_config env req])%list
    /\ if headersSent (res s) then
         res s' = res s /\ passed_on s' = (passed_on s ++ [e])%list
       else
         statusCode (res s') = 502
         /\ resBody (res s')
            = Some (stringify (JObj [("error", JStr "bad gateway");
                                     ("requestId", JStr (requestId req))]))
         /\ headersSent (res s') = true
         /\ passed_on s' = passed_on s.
Proof.
  intros Ho Hc Hr. destruct (headersSent (res s)) eqn:Hs.
  - rewrite (proxyRequest_unclassified_sent env backend req e s Hs Ho Hc Hr).
    eexists. split; [reflexivity|]. cbn. auto.
  - rewrite (proxyRequest_unclassified env backend req e s Hs Ho Hc Hr).
    eexists. split; [reflexivity|]. cbn [res set_res upstream passed_on caught logged].
    split; [reflexivity|].
    destruct (json_reply_plain env req
                (JObj [("error", JStr "bad gateway"); ("requestId", JStr (requestId req))])
                (with_status 502 (res s)) eq_refl) as [Hst Hb].
    rewrite Hst, Hb, json_reply_sent. auto.
Qed.

End Failures.

(** C2, witness: the backend's port is closed. *)
Lemma refused_gives_503_witness :
  exists s',
    app Sample.env (Sample.arrival Sample.get_items (Sample.fails "ECONNREFUSED" None))
      Sample.idle = (Ok tt, s')
    /\ statusCode (res s') = 503
    /\ length (upstream s') = 1%nat.
Proof.
  destruct (refused_gives_503 Sample.env
              (Sample.arrival Sample.get_items (Sample.fails "ECONNREFUSED" None))
              (Some (JObj [])) (AxiosError_from (Sample.socket_error "ECONNREFUSED" None))
              Sample.idle)
    as (s' & Hrun & Hst & _ & _ & Hup & _); try reflexivity.
  exists s'. rewrite Hup. auto.
Defined.

(** C2, counterexample: the backend's host cannot be reached at all
    (EHOSTUNREACH).  The upstream is unreachable, but the code is not
    ECONNREFUSED, and the gateway answers 502 with the bad gateway object
    rather than 503. *)
Lemma unreachable_host_gives_502 :
  let a := Sample.arrival Sample.get_items (Sample.fails "EHOSTUNREACH" None) in
  let s' := snd (app Sample.env a Sample.idle) in
  code (Sample.socket_error "EHOSTUNREACH" None) = Some "EHOSTUNREACH"
  /\ statusCode (res s') = 502
  /\ statusCode (res s') <> 503
  /\ resBody (res s')
     = Some (stringify (JObj [("error", JStr "bad gateway");
                              ("requestId", JStr (correlation_id a))])).
Proof. vm_compute. repeat split. discriminate. Qed.

(** C3, witness: the backend needs 45 seconds. *)
Lemma timeout_gives_504_witness :
  exists s',
    app Sample.env (Sample.arrival Sample.get_items Sample.slow) Sample.idle = (Ok tt, s')
    /\ statusCode (res s') = 504.
Proof.
  destruct (timeout_gives_504 Sample.env
              (Sample.arrival Sample.get_items Sample.slow)
              (Some (JObj [])) (timeout_error 30000) Sample.idle)
    as (s' & Hrun & Hst & _); try reflexivity.
  - right. reflexivity.
  - exists s'. auto.
Defined.

(** C4, witness: no route to the backend's host, with the response
    untouched so far. *)
Lemma unclassified_failure_witness :
  exists s',
    proxyRequest Sample.env (fun _ => Sample.fails "EHOSTUNREACH" None)
      (request_of (Sample.arrival Sample.get_items (Sample.fails "EHOSTUNREACH" None))
         (Some (JObj [])))
      Sample.idle = (Ok tt, s')
    /\ statusCode (res s') = 502.
Proof.
  destruct (unclassified_failure Sample.env (fun _ => Sample.fails "EHOSTUNREACH" None)
              (request_of (Sample.arrival Sample.get_items (Sample.fails "EHOSTUNREACH" None))
                 (Some (JObj [])))
              (AxiosError_from (Sample.socket_error "EHOSTUNREACH" None)) Sample.idle)
    as (s' & Hrun & _ & Hst & _); try reflexivity.
  exists s'. auto.
Defined.

(** ** Every proxied request is answered, with one upstream request *)

Section Answered.

Context (env : Env).

Lemma proxyRequest_answers backend req s :
  headersSent (res s) = false ->
  exists s',
    proxyRequest env backend req s = (Ok tt, s')
    /\ headersSent (res s') = true
    /\ upstream s' = (upstream s ++ [proxy_config env req])%list
    /\ passed_on s' = passed_on s
    /\ windows s' = windows s.
Proof.
  intros Hs. destruct (outcome backend (proxy_config env req)) as [r|e] eqn:Ho.
  - destruct (proxyRequest_answered env backend req r s Hs Ho)
      as (s' & Hrun & Hres & Hup & Hpo & Hw).
    exists s'. rewrite Hres, relayed_sent. auto.
  - destruct (bool_decide (code e = Some "ECONNREFUSED")) eqn:E1.
    { apply bool_decide_eq_true_1 in E1.
      rewrite (proxyRequest_refused env backend req e s Hs Ho E1).
      eexists. split; [reflexivity|]. cbn [res set_res upstream passed_on windows caught logged at_catch slept issued].
      rewrite json_reply_sent. auto. }
    destruct (bool_decide (code e = Some "ETIMEDOUT")
              || bool_decide (code e = Some "ECONNABORTED"))%bool eqn:E2.
    { assert (Hc : code e = Some "ETIMEDOUT" \/ code e = Some "ECONNABORTED").
      { apply orb_true_iff in E2 as [E|E]; apply bool_decide_eq_true_1 in E; auto. }
      rewrite (proxyRequest_timed_out env backend req e s Hs Ho Hc).
      eexists. split; [reflexivity|]. cbn [res set_res upstream passed_on windows caught logged at_catch slept issued].
      rewrite json_reply_sent. auto. }
    assert (Hc : classified (code e) = false).
    { unfold classified. rewrite E1. exact E2. }
    pose proof (failed_call_has_no_response env backend req e Ho) as Hr.
    rewrite (proxyRequest_unclassified env backend req e s Hs Ho Hc Hr).
    eexists. split; [reflexivity|]. cbn [res set_res upstream passed_on windows caught logged at_catch slept issued].
    rewrite json_reply_sent. auto.
Qed.

End Answered.

(** ** The rate limiter *)

Section Limiter.

Context (env : Env).

Lemma hit_opens t0 w : opens w t0 -> hit t0 w = {| count := 1; windowStart := t0 |}.
Proof.
  unfold opens, hit. destruct w as [w0|]; [|reflexivity].
  intros H. apply Z.leb_le in H. now rewrite H.
Qed.

Lemma hit_within t w :
  t < windowStart w + windowMs ->
  hit t (Some w) = {| count := count w + 1; windowStart := windowStart w |}.
Proof.
  intros H. unfold hit. apply Z.leb_gt in H. now rewrite H.
Qed.

Lemma hits_within ts :
  forall w,
    Forall (fun t => t < windowStart w + windowMs) ts ->
    forall (n : nat) wn,
      hits (Some w) ts !! n = Some wn ->
      count wn = count w + Z.of_nat n + 1 /\ windowStart wn = windowStart w.
Proof.
  induction ts as [|t ts IH]; intros w Hts n wn Hn; [discriminate|].
  apply Forall_cons in Hts as [Ht Hts]. cbn [hits] in Hn.
  rewrite (hit_within t w Ht) in Hn.
  destruct n as [|n]; cbn in Hn.
  - injection Hn as <-. cbn. split; [lia|reflexivity].
  - apply IH in Hn; [|exact Hts]. cbn in Hn. lia.
Qed.

Lemma default_handler_run st s :
  headersSent (res s) = false ->
  default_handler env st s = (Ok tt, set_res (error_page env st (res s)) s).
Proof.
  intros Hs. unfold default_handler. mstep. rewrite Hs.
  unfold res_status. do 8 mstep. reflexivity.
Qed.

Lemma default_handler_unsent st s :
  headersSent (res s) = false ->
  exists r,
    default_handler env st s = (Ok tt, set_res r s) /\ headersSent r = true.
Proof.
  intros Hs. rewrite default_handler_run by exact Hs.
  eexists. split; reflexivity.
Qed.

(** A request below the mount that the limiter lets through and that
    does not reach the forwarder: the parser turns the body down, or no
    route matches. *)
Lemma app_mount_error a s :
  under_api_mount (route a) = true ->
  admitted (window_of a s) = true ->
  (forall b, parsed a = Parsed b -> route a <> Api) ->
  let st := match parsed a with ParseError st => st | Parsed _ => 404 end in
  exists s',
    app env a s = (Ok tt, s')
    /\ upstream s' = upstream s
    /\ windows s' = <[ip (raw a) := window_of a s]> (windows s)
    /\ statusCode (res s') = st.
Proof.
  intros Hm Ha Hno. cbv zeta.
  assert (Hrun : dispatch env a (correlation_id a) (set_res (ingress env a) s)
                 = default_handler env
                     (match parsed a with ParseError st => st | Parsed _ => 404 end)
                     (counted env a s)).
  { unfold dispatch. rewrite Hm. rewrite limiter_admits by exact Ha.
    unfold express_json. destruct (parsed a) as [b|st]; [|reflexivity].
    destruct (route a) as [| |m]; [now destruct (Hno b)|discriminate Hm|reflexivity]. }
  rewrite default_handler_run in Hrun by apply counted_unsent.
  rewrite app_run. erewrite on_finish_run by exact Hrun.
  eexists. split; [reflexivity|]. repeat split.
Qed.

Lemma app_api_unparsed a st s :
  route a = Api ->
  parsed a = ParseError st ->
  admitted (window_of a s) = true ->
  exists s',
    app env a s = (Ok tt, s')
    /\ upstream s' = upstream s
    /\ windows s' = <[ip (raw a) := window_of a s]> (windows s).
Proof.
  intros Hr Hp Ha.
  destruct (app_mount_error a s) as (s' & Hrun & Hup & Hw & _);
    [now rewrite Hr|exact Ha|intros b Hb; now rewrite Hp in Hb|].
  now exists s'.
Qed.

Lemma app_rejected a s :
  under_api_mount (route a) = true ->
  admitted (window_of a s) = false ->
  let s1 :=
    set_res
      (sent_with env (raw a) "Too many requests, please try again later."
         (with_status 429 (res (counted env a s))))
      (counted env a s) in
  app env a s
  = (Ok tt,
     logged Stdout
       (finish_entry env (raw a) (correlation_id a) 429 (clock s1 - clock s) (clock s1)) s1).
Proof.
  intros Hr Ha. cbv zeta. rewrite app_run.
  erewrite on_finish_run by (now apply dispatch_rejected).
  cbn [res set_res]. rewrite sent_with_sent, finish_log_run. cbn [snd res set_res].
  destruct (sent_with_plain env (raw a) "Too many requests, please try again later."
              (with_status 429 (res (counted env a s))) eq_refl) as [-> _].
  reflexivity.
Qed.

(** Whatever the route and whatever happens on it, a response goes out. *)
Lemma routed_answers a id b s :
  headersSent (res s) = false ->
  exists s',
    match route a with
    | Api => proxyRequest env (backend a) {| incoming := raw a; requestId := id; body := b |}
    | Health => health env (raw a)
    | Unmatched _ => default_handler env 404
    end s = (Ok tt, s')
    /\ headersSent (res s') = true.
Proof.
  intros Hs. destruct (route a).
  - destruct (proxyRequest_answers env (backend a)
                {| incoming := raw a; requestId := id; body := b |} s Hs)
      as (s' & Hrun & Hsent & _).
    now exists s'.
  - unfold health. rewrite res_json_unsent by exact Hs.
    eexists. split; [reflexivity|]. apply json_reply_sent.
  - destruct (default_handler_unsent 404 s Hs) as (r & Hrun & Hsent).
    rewrite Hrun. eexists. split; [reflexivity|exact Hsent].
Qed.

Lemma dispatch_answers a s :
  exists s',
    dispatch env a (correlation_id a) (set_res (ingress env a) s) = (Ok tt, s')
    /\ headersSent (res s') = true.
Proof.
  assert (Hparsed : forall s0, headersSent (res s0) = false ->
            exists s',
              express_json env (parsed a) (fun body =>
                let req := {| incoming := raw a; requestId := correlation_id a;
                              body := body |} in
                match route a with
                | Api => proxyRequest env (backend a) req
                | Health => health env (raw a)
                | Unmatched _ => default_handler env 404
                end) s0 = (Ok tt, s')
              /\ headersSent (res s') = true).
  { intros s0 Hs0. unfold express_json. destruct (parsed a) as [b|st].
    - now apply routed_answers.
    - destruct (default_handler_unsent st s0 Hs0) as (r & Hrun & Hsent).
      rewrite Hrun. eexists. split; [reflexivity|exact Hsent]. }
  unfold dispatch. destruct (under_api_mount (route a)) eqn:Hm.
  - destruct (admitted (window_of a s)) eqn:Ha.
    + rewrite limiter_admits by exact Ha. apply Hparsed, counted_unsent.
    + rewrite limiter_rejects by exact Ha. eexists. split; [reflexivity|].
      apply sent_with_sent.
  - apply Hparsed. cbn [res set_res]. apply ingress_unsent.
Qed.

(** Every request is answered, and the handling ends without an exception. *)
Lemma app_answers a s :
  exists s', app env a s = (Ok tt, s') /\ headersSent (res s') = true.
Proof.
  destruct (dispatch_answers a s) as (s1 & Hrun & Hsent).
  rewrite app_run. rewrite (on_finish_run _ _ _ _ _ Hrun), Hsent.
  rewrite finish_log_run. eexists. split; [reflexivity|exact Hsent].
Qed.

(** What one request below the mount does to the store, and what the
    store does to it. *)
Lemma mount_request_counted a s :
  under_api_mount (route a) = true ->
  let s' := snd (app env a s) in
  let w := window_of a s in
  windows s' = <[ip (raw a) := w]> (windows s)
  /\ (admitted w = false -> turned_away s s')
  /\ (admitted w = true -> let_through a s s')
  /\ (admitted w = true ->
      route a = Api -> forall b, parsed a = Parsed b ->
      upstream s' = (upstream s ++ [proxy_config env (request_of a b)])%list).
Proof.
  intros Hm. cbv zeta.
  assert (Hapi : admitted (window_of a s) = true -> route a = Api ->
            forall b, parsed a = Parsed b ->
            windows (snd (app env a s)) = <[ip (raw a) := window_of a s]> (windows s)
            /\ upstream (snd (app env a s))
               = (upstream s ++ [proxy_config env (request_of a b)])%list).
  { intros Ha Hr b Hp.
    destruct (proxyRequest_answers env (backend a) (request_of a b) (counted env a s)
                (counted_unsent env a s)) as (s1 & Hrun & Hsent & Hup & _ & Hw).
    rewrite (app_api env a b s _ s1 Hr Hp Ha Hrun Hsent). cbn. now rewrite Hw, Hup. }
  assert (Herr : admitted (window_of a s) = true ->
            (forall b, parsed a = Parsed b -> route a <> Api) ->
            windows (snd (app env a s)) = <[ip (raw a) := window_of a s]> (windows s)
            /\ upstream (snd (app env a s)) = upstream s
            /\ statusCode (res (snd (app env a s)))
               = match parsed a with ParseError st => st | Parsed _ => 404 end).
  { intros Ha Hno.
    destruct (app_mount_error a s Hm Ha Hno) as (s' & -> & Hup & Hw & Hst). now cbn. }
  split; [|split; [|split]].
  - destruct (admitted (window_of a s)) eqn:Ha.
    + destruct (parsed a) as [b|st] eqn:Hp.
      * destruct (route a) as [| |m] eqn:Hr.
        -- now apply (Hapi eq_refl eq_refl b).
        -- discriminate Hm.
        -- apply Herr; [reflexivity|]. intros b' _. discriminate.
      * apply Herr; [reflexivity|]. intros b' Hb. discriminate Hb.
    + rewrite app_rejected by assumption. reflexivity.
  - intros Ha. rewrite app_rejected by assumption. unfold turned_away.
    cbn [snd res logged set_res upstream].
    destruct (sent_with_plain env (raw a) "Too many requests, please try again later."
                (with_status 429 (res (counted env a s))) eq_refl) as [Hst Hb].
    split; [reflexivity|]. split; [apply sent_with_sent|].
    split; [exact Hst|]. split; [exact Hb|].
    assert (Hover : Z.max 0 (max - count (window_of a s)) = 0).
    { unfold admitted in Ha. apply Z.leb_gt in Ha. lia. }
    rewrite !sent_with_other by discriminate.
    unfold counted, limited. cbn [res set_res with_status resHeaders].
    rewrite Hover. repeat split; [now names..|].
    eexists. now names.
  - intros Ha. unfold let_through.
    destruct (parsed a) as [b|st] eqn:Hp.
    + destruct (route a) as [| |m] eqn:Hr.
      * exists (proxy_config env (request_of a b)). now apply (Hapi Ha eq_refl b).
      * discriminate Hm.
      * destruct Herr as (_ & Hup & Hst); [exact Ha|intros b' _; discriminate|].
        now split.
    + destruct Herr as (_ & Hup & Hst); [exact Ha|intros b' Hb; discriminate Hb|].
      now destruct (route a).
  - intros Ha Hr b Hp. now apply (Hapi Ha Hr b).
Qed.

(** A request outside the mount leaves the store alone. *)
Lemma unmounted_request_uncounted a s :
  under_api_mount (route a) = false ->
  windows (snd (app env a s)) = windows s.
Proof.
  intros Hm.
  assert (Hrun : exists r,
            dispatch env a (correlation_id a) (set_res (ingress env a) s)
            = (Ok tt, set_res r (set_res (ingress env a) s)) /\ headersSent r = true).
  { unfold dispatch. rewrite Hm. unfold express_json.
    destruct (parsed a) as [b|st].
    - destruct (route a) as [| |m]; [discriminate Hm| |].
      + unfold health. rewrite res_json_unsent by apply ingress_unsent.
        eexists. split; [reflexivity|]. apply json_reply_sent.
      + now apply default_handler_unsent, ingress_unsent.
    - now apply default_handler_unsent, ingress_unsent. }
  destruct Hrun as (r & Hrun & Hsent).
  rewrite app_run. erewrite on_finish_run by exact Hrun.
  cbn [res set_res]. now rewrite Hsent.
Qed.

(** The fate of a counted request that finds the count [c] in its
    window. *)
Definition verdict (c : Z) (a : Arrival) (before after : State) : Prop :=
  if c <? max then let_through a before after else turned_away before after.

Lemma served_in_window k t0 c t a s :
  counts k (t, a) ->
  windows s !! k = Some {| count := c; windowStart := t0 |} ->
  t < t0 + windowMs ->
  let s' := snd (app env a (arrive t s)) in
  windows s' !! k = Some {| count := c + 1; windowStart := t0 |}
  /\ verdict c a s s'.
Proof.
  intros [Hk Hm] Hw Ht. cbn [snd] in Hk, Hm. cbv zeta.
  destruct (mount_request_counted a (arrive t s) Hm) as (Hws & Hno & Hyes & _).
  assert (Hwin : window_of a (arrive t s) = {| count := c + 1; windowStart := t0 |}).
  { unfold window_of. cbn [clock windows arrive]. rewrite Hk, Hw.
    now apply hit_within. }
  rewrite Hwin in *. split.
  - rewrite Hws, Hk. apply lookup_insert_eq.
  - unfold verdict, admitted, max in *. cbn [count] in *.
    destruct (Z.ltb_spec c 60).
    + apply Hyes. apply Z.leb_le. lia.
    + apply Hno. apply Z.leb_gt. lia.
Qed.

Lemma served_elsewhere k t a s :
  ~ counts k (t, a) ->
  windows (snd (app env a (arrive t s))) !! k = windows s !! k.
Proof.
  intros Hk. destruct (under_api_mount (route a)) eqn:Hm.
  - destruct (mount_request_counted a (arrive t s) Hm) as (Hws & _).
    rewrite Hws. rewrite lookup_insert_ne; [reflexivity|].
    intros E. apply Hk. now split.
  - now rewrite unmounted_request_uncounted.
Qed.

Lemma serve_length_in tas : forall s, length (serve env tas s) = length tas.
Proof.
  induction tas as [|ta tas IH]; intros s; [reflexivity|].
  cbn [serve length]. now rewrite IH.
Qed.

Lemma serve_in_window k t0 tas :
  forall s c,
    windows s !! k = Some {| count := c; windowStart := t0 |} ->
    Forall (fun ta => counts k ta -> fst ta < t0 + windowMs) tas ->
    forall (i : nat) ta before after,
      tas !! i = Some ta ->
      counts k ta ->
      (s :: serve env tas s) !! i = Some before ->
      serve env tas s !! i = Some after ->
      verdict (c + Z.of_nat (counted_for k (take i tas))) (snd ta) before after.
Proof.
  induction tas as [|[t1 a1] tas IH]; intros s c Hw Htime i ta before after Hi Hk Hb Ha;
    [discriminate|].
  apply Forall_cons in Htime as [Ht1 Htime].
  cbn [serve fst snd] in Hb, Ha.
  destruct i as [|i].
  - cbn in Hi, Hb, Ha. injection Hi as <-. injection Hb as <-. injection Ha as <-.
    cbn [take counted_for filter length]. rewrite Z.add_0_r.
    cbn [snd fst] in *.
    now apply (served_in_window k t0 c t1 a1 s Hk Hw (Ht1 Hk)).
  - cbn in Hi, Hb, Ha. cbn [take]. unfold counted_for. rewrite filter_cons.
    destruct (decide (counts k (t1, a1))) as [E|E].
    + destruct (served_in_window k t0 c t1 a1 s E Hw (Ht1 E)) as [Hw1 _].
      specialize (IH _ (c + 1) Hw1 Htime i ta before after Hi Hk Hb Ha).
      cbn [length]. unfold counted_for in IH.
      replace (c + Z.of_nat (S (length (filter (counts k) (take i tas)))))
        with (c + 1 + Z.of_nat (length (filter (counts k) (take i tas))))
        by lia.
      exact IH.
    + assert (Hw1 : windows (snd (app env a1 (arrive t1 s))) !! k
                    = Some {| count := c; windowStart := t0 |}).
      { now rewrite served_elsewhere. }
      exact (IH _ c Hw1 Htime i ta before after Hi Hk Hb Ha).
Qed.

(** The request that opens a window passes the limiter and leaves the
    count 1. *)
Lemma window_opened k t0 a0 s :
  counts k (t0, a0) ->
  opens (windows s !! k) t0 ->
  let s' := snd (app env a0 (arrive t0 s)) in
  windows s' !! k = Some {| count := 1; windowStart := t0 |}
  /\ let_through a0 s s'.
Proof.
  intros [Hk Hm] Hopen. cbn [snd] in Hk, Hm. cbv zeta.
  destruct (mount_request_counted a0 (arrive t0 s) Hm) as (Hws & _ & Hyes & _).
  assert (Hwin : window_of a0 (arrive t0 s) = {| count := 1; windowStart := t0 |}).
  { unfold window_of. cbn [clock windows arrive]. rewrite Hk. now apply hit_opens. }
  rewrite Hwin in *. split.
  - rewrite Hws, Hk. apply lookup_insert_eq.
  - now apply Hyes.
Qed.

(** A counted request that finds sixty counted ones before it in its
    window is turned away. *)
Lemma over_the_limit k t0 a0 rest s d (n : nat) ta :
  counts k (t0, a0) ->
  opens (windows s !! k) t0 ->
  Forall (fun ta => counts k ta -> fst ta < t0 + windowMs) rest ->
  rest !! n = Some ta ->
  counts k ta ->
  (60 <=? 1 + counted_for k (take n rest))%nat = true ->
  turned_away (nth n (serve env ((t0, a0) :: rest) s) d)
    (nth (S n) (serve env ((t0, a0) :: rest) s) d).
Proof.
  intros Hc0 Hopen Htime Hn Hk Hge.
  destruct (window_opened k t0 a0 s Hc0 Hopen) as [Hw1 _].
  cbn [serve fst snd].
  remember (snd (app env a0 (arrive t0 s))) as s1 eqn:Hs1.
  assert (Hlt : (n < length rest)%nat) by (apply lookup_lt_is_Some; eauto).
  pose proof (serve_in_window k t0 rest s1 1 Hw1 Htime n ta
                (nth n (s1 :: serve env rest s1) d)
                (nth n (serve env rest s1) d) Hn Hk) as Hv.
  unfold verdict, max in Hv. apply Nat.leb_le in Hge.
  destruct (Z.ltb_spec (1 + Z.of_nat (counted_for k (take n rest))) 60) as [Hlt60|_];
    [lia|].
  change (nth (S n) (s1 :: serve env rest s1) d) with (nth n (serve env rest s1) d).
  apply Hv.
  - destruct (nth_lookup_or_length (s1 :: serve env rest s1) n d) as [H|H]; [exact H|].
    cbn [length] in H. rewrite (serve_length_in rest s1) in H. lia.
  - destruct (nth_lookup_or_length (serve env rest s1) n d) as [H|H]; [exact H|].
    rewrite (serve_length_in rest s1) in H. lia.
Qed.

(** C5, as amended.  Take a client identity and a request of it below the
    [/api] mount that opens a window: none is stored for the client, or
    the stored one has run out.  The limiter counts every request of the
    client below the mount, the ones no route matches and the ones whose
    body the parser rejects included.  Of these requests from the opening
    one on, each arriving less than 60 seconds after it, the first sixty
    pass the limiter, whatever other clients do in between: an [/api/*]
    request with an accepted body is forwarded, one upstream request, and
    the others get their error page; every later one is answered 429 with
    the limiter's message and the RateLimit headers, and no upstream
    request goes out for it. *)
Theorem sixty_per_window k t0 a0 rest s :
  counts k (t0, a0) ->
  opens (windows s !! k) t0 ->
  Forall (fun ta => counts k ta -> fst ta < t0 + windowMs) rest ->
  forall (i : nat) ta before after,
    ((t0, a0) :: rest) !! i = Some ta ->
    counts k ta ->
    (s :: serve env ((t0, a0) :: rest) s) !! i = Some before ->
    serve env ((t0, a0) :: rest) s !! i = Some after ->
    if (counted_for k (take i ((t0, a0) :: rest)) <? 60)%nat
    then let_through (snd ta) before after
    else turned_away before after.
Proof.
  intros Hc0 Hopen Htime i ta before after Hi Hki Hb Ha.
  destruct (window_opened k t0 a0 s Hc0 Hopen) as [Hw1 Hfirst].
  cbn [serve fst snd] in Hb, Ha.
  destruct i as [|i].
  - cbn in Hi, Hb, Ha. injection Hi as <-. injection Hb as <-. injection Ha as <-. cbn.
    exact Hfirst.
  - cbn in Hi, Hb, Ha.
    pose proof (serve_in_window k t0 rest _ 1 Hw1 Htime i ta before after Hi Hki Hb Ha)
      as Hv.
    cbn [take]. unfold counted_for in *. rewrite filter_cons.
    destruct (decide (counts k (t0, a0))) as [_|E]; [|contradiction].
    cbn [length]. unfold verdict, max in Hv.
    destruct (Nat.ltb_spec (S (length (filter (counts k) (take i rest)))) 60);
      destruct (Z.ltb_spec (1 + Z.of_nat (length (filter (counts k) (take i rest)))) 60);
      try lia; exact Hv.
Qed.

End Limiter.

Lemma serve_length env tas s : length (serve env tas s) = length tas.
Proof. apply serve_length_in. Qed.

Lemma serve_nth env tas s d (i : nat) :
  (i < length tas)%nat ->
  serve env tas s !! i = Some (nth i (serve env tas s) d).
Proof.
  intros Hi. destruct (nth_lookup_or_length (serve env tas s) i d) as [H|H]; [exact H|].
  rewrite serve_length in H. lia.
Qed.

(** C5, witness: of sixty-one requests within a second, the last is turned
    away. *)
Lemma sixty_per_window_witness :
  let run := serve Sample.env Sample.burst Sample.idle in
  turned_away (nth 59 run Sample.idle) (nth 60 run Sample.idle).
Proof.
  intros run.
  assert (Hb : (Sample.idle :: run) !! 60%nat = Some (nth 59 run Sample.idle)).
  { apply (serve_nth Sample.env Sample.burst Sample.idle Sample.idle 59). cbn. lia. }
  assert (Ha : run !! 60%nat = Some (nth 60 run Sample.idle)).
  { apply (serve_nth Sample.env Sample.burst Sample.idle Sample.idle 60). cbn. lia. }
  assert (Htime : Forall (fun ta => counts (Some "10.0.0.7") ta ->
                                    fst ta < 1700000000000 + windowMs) (tl Sample.burst)).
  { apply Forall_forall. intros ta Hin _. apply list_elem_of_In in Hin.
    change (tl Sample.burst) with
      (map (fun n : nat =>
              (1700000000000 + 10 * Z.of_nat n,
               Sample.arrival Sample.get_items (Sample.answers Sample.not_found)))
           (seq 1 60)) in Hin.
    apply in_map_iff in Hin as (n & <- & Hn). apply in_seq in Hn. cbn [fst].
    unfold windowMs. lia. }
  exact (sixty_per_window Sample.env (Some "10.0.0.7")
           1700000000000
           (Sample.arrival Sample.get_items (Sample.answers Sample.not_found))
           (tl Sample.burst) Sample.idle (conj eq_refl eq_refl) I Htime 60%nat
           (1700000000600, Sample.arrival Sample.get_items (Sample.answers Sample.not_found))
           (nth 59 run Sample.idle) (nth 60 run Sample.idle) eq_refl
           (conj eq_refl eq_refl) Hb Ha).
Defined.

(** C5, counterexample: a client asks sixty times for [/api], which no
    route matches, and then, within the same second, for [/api/items].
    None of the sixty was an [/api/*] request and none was forwarded, yet
    the limiter has counted them: the client's first [/api/*] request of
    the window is answered 429 and does not reach the backend. *)
Lemma first_api_request_turned_away :
  let run := serve Sample.env Sample.detour Sample.idle in
  Forall (fun ta => route (snd ta) <> Api) (take 60 Sample.detour)
  /\ Sample.detour !! 60%nat
     = Some (1700000000600, Sample.arrival Sample.get_items (Sample.answers Sample.not_found))
  /\ api_request (1700000000600,
                  Sample.arrival Sample.get_items (Sample.answers Sample.not_found))
  /\ turned_away (nth 59 run Sample.idle) (nth 60 run Sample.idle).
Proof.
  intros run.
  split; [|split; [reflexivity|split]].
  - apply Forall_forall. intros ta Hin. apply list_elem_of_In in Hin.
    change (take 60 Sample.detour) with
      (map (fun n : nat => (1700000000000 + 10 * Z.of_nat n, Sample.off_route)) (seq 0 60))
      in Hin.
    apply in_map_iff in Hin as (n & <- & _). discriminate.
  - split; [reflexivity|]. now exists (Some (JObj [])).
  - assert (Htime : Forall (fun ta => counts (Some "10.0.0.7") ta ->
                                      fst ta < 1700000000000 + windowMs)
                      (tl Sample.detour)).
    { apply Forall_forall. intros ta Hin _. apply list_elem_of_In in Hin.
      change (tl Sample.detour) with
        (map (fun n : nat => (1700000000000 + 10 * Z.of_nat n, Sample.off_route)) (seq 1 59)
         ++ [(1700000000600,
              Sample.arrival Sample.get_items (Sample.answers Sample.not_found))])%list
        in Hin.
      apply in_app_iff in Hin as [Hin|[<-|[]]].
      - apply in_map_iff in Hin as (n & <- & Hn). apply in_seq in Hn. cbn [fst].
        unfold windowMs. lia.
      - cbn [fst]. unfold windowMs. lia. }
    assert (Hcount : (60 <=? 1 + counted_for (Some "10.0.0.7") (take 59 (tl Sample.detour)))%nat
                     = true)
      by (vm_compute; reflexivity).
    exact (over_the_limit Sample.env (Some "10.0.0.7") 1700000000000 Sample.off_route
             (tl Sample.detour) Sample.idle Sample.idle 59%nat
             (1700000000600,
              Sample.arrival Sample.get_items (Sample.answers Sample.not_found))
             (conj eq_refl eq_refl) I Htime eq_refl (conj eq_refl eq_refl) Hcount).
Qed.

(** [GET /health] is answered 200 with the ok object even for a client over
    its limit, and nothing goes upstream. *)
Example health_is_not_limited :
  let a := {| raw := Sample.get_health; route := Health; uuid := "0000";
              parsed := Parsed None; backend := fun _ => Sample.slow |} in
  let s' := snd (app Sample.env a Sample.busy) in
  statusCode (res s') = 200
  /\ resBody (res s') = Some (stringify (JObj [("ok", JBool true)]))
  /\ upstream s' = [].
Proof. vm_compute. repeat split. Qed.

(** Sixty-one requests in one window: sixty pass, the last does not. *)
Example sixty_then_one :
  map admitted (hits None (repeat 1700000000000 61)) = (repeat true 60 ++ [false])%list.
Proof. vm_compute. reflexivity. Qed.

(** ** The correlation identifier *)

Section Correlation.

Context (env : Env) (id : string).

Lemma traced_refl s : traced id s s.
Proof. split; [reflexivity|]. exists []. now rewrite app_nil_r. Qed.

Lemma traced_trans s1 s2 s3 : traced id s1 s2 -> traced id s2 s3 -> traced id s1 s3.
Proof.
  intros [H1 (e1 & C1 & F1)] [H2 (e2 & C2 & F2)]. split; [congruence|].
  exists (e1 ++ e2)%list. split.
  - now rewrite C2, C1, app_assoc.
  - now apply Forall_app.
Qed.

Lemma keeps_ret {A} (a : A) : keeps id (ret a).
Proof. intros s. apply traced_refl. Qed.

Lemma keeps_throw {A} e : keeps id (@throw A e).
Proof. intros s. apply traced_refl. Qed.

Lemma keeps_bind {A B} (m : M A) (k : A -> M B) :
  keeps id m -> (forall a, keeps id (k a)) -> keeps id (bind m k).
Proof.
  intros Hm Hk s. specialize (Hm s). unfold bind.
  destruct (m s) as [[a|e] s1]; cbn in *; [|exact Hm].
  eapply traced_trans; [exact Hm|apply Hk].
Qed.

Lemma keeps_try_catch {A} (m : M A) h :
  keeps id m -> (forall e, keeps id (h e)) -> keeps id (try_catch m h).
Proof.
  intros Hm Hh s. specialize (Hm s). unfold try_catch.
  destruct (m s) as [[a|e] s1]; cbn in *; [exact Hm|].
  eapply traced_trans; [exact Hm|apply Hh].
Qed.

Lemma keeps_on_finish hook m :
  keeps id hook -> keeps id m -> keeps id (on_finish hook m).
Proof.
  intros Hh Hm s. specialize (Hm s). unfold on_finish.
  destruct (m s) as [r s1]; cbn in *.
  destruct (headersSent (res s1)); [|exact Hm].
  specialize (Hh s1). destruct (hook s1) as [r' s2]; cbn in *.
  eapply traced_trans; eassumption.
Qed.

Lemma keeps_forEach {A} (l : list A) f :
  (forall x, In x l -> keeps id (f x)) -> keeps id (forEach l f).
Proof.
  induction l as [|x l IH]; intros H; cbn.
  - apply keeps_ret.
  - apply keeps_bind; [apply H; now left|].
    intros _. apply IH. intros y Hy. apply H. now right.
Qed.

Lemma keeps_modify f : (forall s, traced id s (f s)) -> keeps id (modify f).
Proof. intros H s. apply H. Qed.

Lemma keeps_Date_now : keeps id Date_now.
Proof. intros s. apply traced_refl. Qed.

Lemma keeps_get_state : keeps id get_state.
Proof. intros s. apply traced_refl. Qed.

Lemma keeps_res_get n : keeps id (res_get n).
Proof. intros s. apply traced_refl. Qed.

Lemma keeps_res_headersSent : keeps id res_headersSent.
Proof. intros s. apply traced_refl. Qed.

Lemma traced_set_res r s :
  resHeaders r !! "x-request-id" = resHeaders (res s) !! "x-request-id" ->
  traced id s (set_res r s).
Proof. intros H. split; [exact H|]. exists []. cbn. now rewrite app_nil_r. Qed.

Lemma keeps_res_status c : keeps id (res_status c).
Proof. apply keeps_modify. intros s. now apply traced_set_res. Qed.

Lemma keeps_res_setHeader n v :
  toLowerCase n <> "x-request-id" -> keeps id (res_setHeader n v).
Proof.
  intros Hn s. unfold res_setHeader.
  destruct (headersSent (res s)); cbn [snd]; [apply traced_refl|].
  apply traced_set_res. rewrite lookup_with_header. now destruct (decide _).
Qed.

Lemma keeps_res_removeHeader n :
  toLowerCase n <> "x-request-id" -> keeps id (res_removeHeader n).
Proof.
  intros Hn s. unfold res_removeHeader.
  destruct (headersSent (res s)); cbn [snd]; [apply traced_refl|].
  apply traced_set_res. rewrite lookup_without_header. now destruct (decide _).
Qed.

Lemma keeps_res_end chunk : keeps id (res_end chunk).
Proof. apply keeps_modify. intros s. now apply traced_set_res. Qed.

Lemma keeps_logged out o :
  get "requestId" o = Some (JStr id) -> keeps id (modify (logged out o)).
Proof.
  intros H. apply keeps_modify. intros s. split; [reflexivity|].
  exists [(out, o)]. split; [reflexivity|]. now constructor.
Qed.

Lemma keeps_untouched f :
  (forall s, res (f s) = res s /\ console (f s) = console s) -> keeps id (modify f).
Proof.
  intros H. apply keeps_modify. intros s. destruct (H s) as [Hr Hc].
  split; [now rewrite Hr|]. exists []. now rewrite Hc, app_nil_r.
Qed.

End Correlation.

(** Goes through a computation statement by statement. *)
Ltac keep :=
  repeat first
    [ apply keeps_bind; [|intros ?]
    | apply keeps_ret
    | apply keeps_throw
    | apply keeps_Date_now
    | apply keeps_get_state
    | apply keeps_res_get
    | apply keeps_res_headersSent
    | apply keeps_res_status
    | apply keeps_res_end
    | apply keeps_res_setHeader; vm_compute; discriminate
    | apply keeps_res_removeHeader; vm_compute; discriminate
    | apply keeps_untouched; intros ?; split; reflexivity
    | apply keeps_logged; reflexivity
    | assumption
    | lazymatch goal with
      | |- keeps _ (if ?b then _ else _) => destruct b
      | |- keeps _ (match ?x with _ => _ end) => destruct x
      end ].

Section Traced.

Context (env : Env).

Lemma keeps_res_send id req chunk : keeps id (res_send env req chunk).
Proof. unfold res_send, send_type, send_length, send_fresh, send_end. keep. Qed.

Lemma keeps_res_json id req v : keeps id (res_json env req v).
Proof. unfold res_json. keep; apply keeps_res_send. Qed.

Lemma keeps_default_handler id st : keeps id (default_handler env st).
Proof. unfold default_handler. keep. Qed.

Lemma keeps_next id e : keeps id (next env e).
Proof. unfold next, next_error. keep; apply keeps_default_handler. Qed.

Lemma keeps_axios id backend cfg : keeps id (axios backend cfg).
Proof. unfold axios, sleep. keep. Qed.

Lemma keeps_finish_log id req t : keeps id (finish_log env req id t).
Proof. unfold finish_log, console_log. keep. Qed.

Lemma keeps_health id req : keeps id (health env req).
Proof. apply keeps_res_json. Qed.

Lemma keeps_forward req backend t : keeps (requestId req) (forward env backend req t).
Proof.
  unfold forward, console_log. keep;
    first [ apply keeps_axios
          | apply keeps_res_json
          | apply keeps_forEach; intros h [<-|[<-|[]]]; keep ].
Qed.

Lemma keeps_answer_axios_error req e :
  keeps (requestId req) (answer_axios_error env req e).
Proof. unfold answer_axios_error. keep; apply keeps_res_json. Qed.

Lemma keeps_recover req e : keeps (requestId req) (recover env req e).
Proof.
  unfold recover, console_error. keep;
    first [ apply keeps_answer_axios_error | apply keeps_res_json | apply keeps_next ].
Qed.

Lemma keeps_proxyRequest req backend :
  keeps (requestId req) (proxyRequest env backend req).
Proof.
  unfold proxyRequest. keep. apply keeps_try_catch.
  - apply keeps_forward.
  - intros e. apply keeps_recover.
Qed.

Lemma keeps_express_json id p k :
  (forall b, keeps id (k b)) -> keeps id (express_json env p k).
Proof. intros Hk. unfold express_json. destruct p; [apply Hk|apply keeps_default_handler]. Qed.

Lemma keeps_apiLimiter id m k : keeps id k -> keeps id (apiLimiter env m k).
Proof. intros Hk. unfold apiLimiter. keep; apply keeps_res_send. Qed.

Lemma keeps_dispatch a id : keeps id (dispatch env a id).
Proof.
  unfold dispatch.
  assert (H : keeps id
    (express_json env (parsed a) (fun body =>
       let req := {| incoming := raw a; requestId := id; body := body |} in
       match route a with
       | Api => proxyRequest env (backend a) req
       | Health => health env (raw a)
       | Unmatched _ => default_handler env 404
       end))).
  { apply keeps_express_json. intros b. cbv zeta. destruct (route a).
    - apply (keeps_proxyRequest {| incoming := raw a; requestId := id; body := b |}).
    - apply keeps_health.
    - apply keeps_default_handler. }
  destruct (under_api_mount (route a)); [now apply keeps_apiLimiter|exact H].
Qed.


End Traced.

(** ** The upstream request *)

Section UpstreamRequest.

Context (env : Env).

Lemma proxy_headers_keys req k o :
  proxy_headers req !! k = Some o ->
  In k ["Content-Type"; "X-Forwarded-For"; "X-Forwarded-Proto"; "x-request-id"].
Proof.
  unfold proxy_headers. cbv zeta.
  rewrite lookup_insert. destruct (decide _) as [<-|_]; [cbn; tauto|].
  rewrite lookup_insert. destruct (decide _) as [<-|_]; [cbn; tauto|].
  rewrite lookup_insert. destruct (decide _) as [<-|_]; [cbn; tauto|].
  destruct (has_body req).
  - rewrite lookup_insert. destruct (decide _) as [<-|_]; [cbn; tauto|].
    now rewrite lookup_empty.
  - now rewrite lookup_empty.
Qed.

Lemma proxy_headers_names req name :
  mentions (proxy_headers req) name ->
  In (toLowerCase name) ["content-type"; "x-forwarded-for"; "x-forwarded-proto"; "x-request-id"].
Proof.
  intros (k & o & Hk & <-). apply proxy_headers_keys in Hk.
  cbn in Hk. destruct Hk as [<-|[<-|[<-|[<-|[]]]]]; vm_compute; tauto.
Qed.

Lemma proxy_headers_omits req name :
  ~ In (toLowerCase name) ["content-type"; "x-forwarded-for"; "x-forwarded-proto"; "x-request-id"] ->
  ~ mentions (proxy_headers req) name.
Proof. intros Hn Hm. apply Hn. exact (proxy_headers_names req name Hm). Qed.

Lemma proxy_headers_Content_Type req :
  proxy_headers req !! "Content-Type"
  = if has_body req
    then Some (Some (or_default (headers req !! "content-type") "application/json"))
    else None.
Proof.
  unfold proxy_headers. cbv zeta.
  rewrite !lookup_insert_ne by discriminate.
  destruct (has_body req); [apply lookup_insert_eq|apply lookup_empty].
Qed.

Lemma mentions_Content_Type req :
  mentions (proxy_headers req) "Content-Type" <-> has_body req = true.
Proof.
  split.
  - intros (k & o & Hk & Hl). pose proof (proxy_headers_keys _ _ _ Hk) as Hin.
    cbn in Hin. destruct Hin as [<-|[<-|[<-|[<-|[]]]]]; try (vm_compute in Hl; discriminate Hl).
    rewrite proxy_headers_Content_Type in Hk. now destruct (has_body req).
  - intros Hb. exists "Content-Type", (Some (or_default (headers req !! "content-type") "application/json")).
    split; [|reflexivity]. now rewrite proxy_headers_Content_Type, Hb.
Qed.

Lemma has_body_spec req :
  has_body req = true
  <-> exists b, body req = Some b /\ truthy b = true /\ Object_keys b <> [].
Proof.
  unfold has_body. split.
  - destruct (body req) as [b|]; [|discriminate].
    intros H. apply andb_true_iff in H as [Ht Hk]. exists b. repeat split; [exact Ht|].
    intros E. rewrite E in Hk. discriminate.
  - intros (b & -> & Ht & Hk). rewrite Ht. cbn.
    destruct (Object_keys b); [contradiction|reflexivity].
Qed.

Lemma truthy_or a b : truthy_str (JS.or a b) = (truthy_str a || truthy_str b)%bool.
Proof. unfold JS.or. now destruct (truthy_str a) eqn:E; cbn; rewrite ?E. Qed.

Lemma truthy_Some o : truthy_str o = true -> exists v, o = Some v /\ v <> "".
Proof.
  destruct o as [v|]; [|discriminate]. cbn. intros H. exists v. split; [reflexivity|].
  apply String.eqb_neq. now destruct (String.eqb v "").
Qed.

Lemma client_address_known (req : Request) v :
  In (Some v) [ip req; connection_remoteAddress req; socket_remoteAddress req] ->
  v <> "" ->
  exists v',
    JS.or (ip req) (JS.or (connection_remoteAddress req) (socket_remoteAddress req)) = Some v'
    /\ v' <> "".
Proof.
  intros Hin Hv. apply truthy_Some. rewrite !truthy_or.
  assert (Ht : truthy_str (Some v) = true).
  { cbn. apply String.eqb_neq in Hv. now rewrite Hv. }
  cbn in Hin. destruct Hin as [H|[H|[H|[]]]]; rewrite H, Ht; cbn;
    rewrite ?orb_true_r; reflexivity.
Qed.

(** *** On the wire *)

Lemma own_headers_In h n v :
  In (n, v) (own_headers h) <-> exists k, h !! k = Some (Some v) /\ toLowerCase k = n.
Proof.
  unfold own_headers. rewrite <- list_elem_of_In, list_elem_of_omap. split.
  - intros ([k o] & Hin & Heq). apply elem_of_map_to_list in Hin. cbn in Heq.
    destruct o as [v'|]; [|discriminate]. injection Heq as <- <-. now exists k.
  - intros (k & Hk & <-). exists (k, Some v).
    split; [now apply elem_of_map_to_list|reflexivity].
Qed.

Lemma has_header_In n l : has_header n l = true <-> exists v, In (n, v) l.
Proof.
  unfold has_header. rewrite existsb_exists. split.
  - intros ([k v] & Hin & Heq). cbn in Heq. apply String.eqb_eq in Heq. subst k.
    now exists v.
  - intros (v & Hin). exists (n, v). split; [exact Hin|]. cbn. apply String.eqb_refl.
Qed.

Lemma wire_headers_In cfg n v :
  on_wire env cfg n v
  <-> In (n, v) (own_headers (cfg_headers cfg))
      \/ (has_header n (own_headers (cfg_headers cfg)) = false
          /\ In (n, v) (library_headers env cfg)).
Proof.
  unfold on_wire, wire_headers. cbv zeta. rewrite in_app_iff.
  rewrite <- (list_elem_of_In (filter _ _)), list_elem_of_filter, list_elem_of_In.
  cbn [fst]. split.
  - intros [H|[Hn Hin]]; [now left|right]. split; [|exact Hin].
    now destruct (has_header n _).
  - intros [H|[Hn Hin]]; [now left|right]. split; [|exact Hin]. now rewrite Hn.
Qed.

(** The headers of the gateway's own that axios sends. *)
Lemma own_proxy_headers req n v :
  In (n, v) (own_headers (proxy_headers req))
  <-> (n = "content-type" /\ has_body req = true
       /\ v = or_default (headers req !! "content-type") "application/json")
      \/ (n = "x-forwarded-for"
          /\ JS.or (ip req) (JS.or (connection_remoteAddress req) (socket_remoteAddress req))
             = Some v)
      \/ (n = "x-forwarded-proto" /\ v = or_default (protocol req) "http")
      \/ (n = "x-request-id" /\ v = requestId req).
Proof.
  rewrite own_headers_In.
  assert (Hf : proxy_headers req !! "X-Forwarded-For"
               = Some (JS.or (ip req)
                         (JS.or (connection_remoteAddress req) (socket_remoteAddress req)))).
  { unfold proxy_headers. cbv zeta.
    rewrite !lookup_insert_ne by discriminate. apply lookup_insert_eq. }
  assert (Hp : proxy_headers req !! "X-Forwarded-Proto"
               = Some (Some (or_default (protocol req) "http"))).
  { unfold proxy_headers. cbv zeta.
    rewrite !lookup_insert_ne by discriminate. apply lookup_insert_eq. }
  assert (Hi : proxy_headers req !! "x-request-id" = Some (Some (requestId req))).
  { unfold proxy_headers. cbv zeta. apply lookup_insert_eq. }
  split.
  - intros (k & Hk & <-). pose proof (proxy_headers_keys _ _ _ Hk) as Hin.
    cbn in Hin. destruct Hin as [<-|[<-|[<-|[<-|[]]]]].
    + left. rewrite proxy_headers_Content_Type in Hk.
      destruct (has_body req); [|discriminate]. injection Hk as <-. now repeat split.
    + right; left. rewrite Hf in Hk. injection Hk as Hk. now split.
    + right; right; left. rewrite Hp in Hk. injection Hk as <-. now split.
    + right; right; right. rewrite Hi in Hk. injection Hk as <-. now split.
  - intros [(-> & Hb & ->)|[(-> & Hv)|[(-> & ->)|(-> & ->)]]].
    + exists "Content-Type". split; [|reflexivity].
      now rewrite proxy_headers_Content_Type, Hb.
    + exists "X-Forwarded-For". split; [|reflexivity]. now rewrite Hf, Hv.
    + exists "X-Forwarded-Proto". now split.
    + exists "x-request-id". now split.
Qed.

Lemma own_proxy_names req n :
  has_header n (own_headers (proxy_headers req)) = true ->
  In n ["content-type"; "x-forwarded-for"; "x-forwarded-proto"; "x-request-id"].
Proof.
  intros H. apply has_header_In in H as (v & H). apply own_proxy_headers in H.
  cbn. destruct H as [(-> & _)|[(-> & _)|[(-> & _)|(-> & _)]]]; tauto.
Qed.

(** A header of the library on the wire, under a name the gateway does not
    set. *)
Lemma library_header_on_wire req n v :
  ~ In n ["content-type"; "x-forwarded-for"; "x-forwarded-proto"; "x-request-id"] ->
  on_wire env (proxy_config env req) n v
  <-> In (n, v) (library_headers env (proxy_config env req)).
Proof.
  intros Hn. rewrite wire_headers_In. cbn [cfg_headers proxy_config]. split.
  - intros [H|[_ H]]; [|exact H]. apply own_proxy_headers in H.
    exfalso. apply Hn. cbn.
    destruct H as [(-> & _)|[(-> & _)|[(-> & _)|(-> & _)]]]; tauto.
  - intros H. right. split; [|exact H].
    destruct (has_header n _) eqn:E; [|reflexivity].
    exfalso. apply Hn. now apply own_proxy_names in E.
Qed.

Lemma library_names cfg n v :
  In (n, v) (library_headers env cfg) ->
  In n ["accept"; "content-type"; "user-agent"; "accept-encoding"; "content-length";
        "host"; "connection"].
Proof.
  unfold library_headers. rewrite !in_app_iff. cbn [In].
  intros [[H|[]]|[H|[[H|[H|[]]]|[H|[H|[H|[]]]]]]]; try (injection H as <- _; cbn; tauto).
  - destruct (object_payload _); [destruct H as [H|[]]; injection H as <- _; cbn; tauto|].
    destruct (existsb _ _); [destruct H as [H|[]]; injection H as <- _; cbn; tauto|].
    destruct H.
  - destruct (wire_body cfg); [destruct H as [H|[]]; injection H as <- _; cbn; tauto|].
    destruct H.
Qed.

Lemma library_host cfg v :
  In ("host", v) (library_headers env cfg) -> v = url_host env (cfg_url cfg).
Proof.
  unfold library_headers. rewrite !in_app_iff. cbn [In].
  intros [[H|[]]|[H|[[H|[H|[]]]|[H|[H|[H|[]]]]]]]; try discriminate H.
  - destruct (object_payload _); [destruct H as [H|[]]; discriminate H|].
    destruct (existsb _ _); [destruct H as [H|[]]; discriminate H|]. destruct H.
  - destruct (wire_body cfg); [destruct H as [H|[]]; discriminate H|]. destruct H.
  - now injection H as <-.
Qed.

Lemma library_connection cfg v :
  In ("connection", v) (library_headers env cfg) -> v = agent_connection env.
Proof.
  unfold library_headers. rewrite !in_app_iff. cbn [In].
  intros [[H|[]]|[H|[[H|[H|[]]]|[H|[H|[H|[]]]]]]]; try discriminate H.
  - destruct (object_payload _); [destruct H as [H|[]]; discriminate H|].
    destruct (existsb _ _); [destruct H as [H|[]]; discriminate H|]. destruct H.
  - destruct (wire_body cfg); [destruct H as [H|[]]; discriminate H|]. destruct H.
  - now injection H as <-.
Qed.

(** C8, as amended.  Of the inbound headers only content-type has a part
    in the upstream request: any other inbound header, Host, Connection and
    the hop-by-hop ones included, can be changed without changing the call.
    On the wire, Host is the backend's and Connection the one of the
    gateway's own connection; no other hop-by-hop header is sent.
    X-Forwarded-For is sent exactly when Express knows a client address,
    the first non-empty one of req.ip and the two remote addresses of the
    socket, and with that address; X-Forwarded-Proto (never empty) and
    x-request-id (the correlation id) are always sent; and these are the
    headers of the one upstream request the handler issues. *)
Theorem forwarding_headers backend req s :
  let cfg := proxy_config env req in
  (forall hs, hs !! "content-type" = headers req !! "content-type" ->
     proxy_config env (with_headers hs req) = cfg)
  /\ (forall v, on_wire env cfg "host" v -> v = url_host env (targetUrl env req))
  /\ (forall v, on_wire env cfg "connection" v -> v = agent_connection env)
  /\ Forall (fun name => forall v, ~ on_wire env cfg (toLowerCase name) v) (tl hop_by_hop)
  /\ (forall v, on_wire env cfg "x-forwarded-for" v
       <-> JS.or (ip req) (JS.or (connection_remoteAddress req) (socket_remoteAddress req))
           = Some v)
  /\ (forall v, In (Some v) [ip req; connection_remoteAddress req; socket_remoteAddress req] ->
      v <> "" -> exists v', v' <> "" /\ on_wire env cfg "x-forwarded-for" v')
  /\ on_wire env cfg "x-forwarded-proto" (or_default (protocol req) "http")
  /\ or_default (protocol req) "http" <> ""
  /\ on_wire env cfg "x-request-id" (requestId req)
  /\ (headersSent (res s) = false ->
      upstream (snd (proxyRequest env backend req s))
      = (upstream s ++ [proxy_config env req])%list).
Proof.
  cbv zeta.
  assert (Hown : forall n v, In (n, v) (own_headers (proxy_headers req)) ->
            on_wire env (proxy_config env req) n v).
  { intros n v H. apply wire_headers_In. now left. }
  split; [|split; [|split; [|split; [|split; [|split; [|split; [|split; [|split]]]]]]]].
  - intros hs Hct. unfold proxy_config, proxy_headers, targetUrl, has_body, with_headers.
    cbn. now rewrite Hct.
  - intros v H. apply library_header_on_wire in H; [|cbn; intuition discriminate].
    now apply library_host in H.
  - intros v H. apply library_header_on_wire in H; [|cbn; intuition discriminate].
    now apply library_connection in H.
  - unfold hop_by_hop. cbn [tl].
    repeat (apply Forall_cons; split;
            [intros v H;
             apply library_header_on_wire in H; [|vm_compute; intuition discriminate];
             apply library_names in H; vm_compute in H; intuition discriminate|]).
    constructor.
  - intros v. rewrite wire_headers_In. cbn [cfg_headers proxy_config]. split.
    + intros [H|[_ H]].
      * apply own_proxy_headers in H.
        destruct H as [(E & _)|[(_ & H)|[(E & _)|(E & _)]]];
          [discriminate E|exact H|discriminate E..].
      * apply library_names in H. vm_compute in H. intuition discriminate.
    + intros H. left. apply own_proxy_headers. right; left. now split.
  - intros v Hin Hv.
    destruct (client_address_known req v Hin Hv) as (v' & Hor & Hne).
    exists v'. split; [exact Hne|]. apply Hown, own_proxy_headers. right; left. now split.
  - apply Hown, own_proxy_headers. right; right; left. now split.
  - unfold or_default. destruct (protocol req) as [p|]; [|discriminate].
    destruct (String.eqb p "") eqn:E; [discriminate|]. now apply String.eqb_neq.
  - apply Hown, own_proxy_headers. right; right; right. now split.
  - intros Hs.
    destruct (proxyRequest_answers env backend req s Hs) as (s' & -> & _ & Hup & _).
    exact Hup.
Qed.

(** The [headers] option of the call holds the gateway's own four names
    at most: no Authorization, Cookie or Accept of the inbound request, in
    any spelling.  Content-Type is among them exactly when req.body is a
    value with at least one key: never for an absent body or the empty
    object, always for an object with a field, and then with the inbound
    content-type or, failing that, application/json. *)
Lemma only_gateway_headers req :
  let h := cfg_headers (proxy_config env req) in
  (forall name, mentions h name ->
     In (toLowerCase name)
        ["content-type"; "x-forwarded-for"; "x-forwarded-proto"; "x-request-id"])
  /\ Forall (fun name => ~ mentions h name) ["Authorization"; "Cookie"; "Accept"]
  /\ (mentions h "Content-Type"
      <-> exists b, body req = Some b /\ truthy b = true /\ Object_keys b <> [])
  /\ (body req = None \/ body req = Some (JObj []) -> ~ mentions h "Content-Type")
  /\ (forall k v fs, body req = Some (JObj ((k, v) :: fs)) ->
      sends h "Content-Type" (or_default (headers req !! "content-type") "application/json")).
Proof.
  cbv zeta. cbn [cfg_headers proxy_config]. repeat split.
  - apply proxy_headers_names.
  - repeat (apply Forall_cons; split;
            [apply proxy_headers_omits; vm_compute; intuition discriminate|]).
    constructor.
  - intros H. now apply has_body_spec, mentions_Content_Type.
  - intros H. now apply mentions_Content_Type, has_body_spec.
  - intros Hb Hm. apply mentions_Content_Type in Hm. unfold has_body in Hm.
    destruct Hb as [Hb|Hb]; rewrite Hb in Hm; discriminate.
  - intros k v fs Hb. exists "Content-Type". split; [|reflexivity].
    rewrite proxy_headers_Content_Type. unfold has_body. now rewrite Hb.
Qed.

(** The URL given to axios is the backend's base URL followed by the
    inbound path and query string as they came. *)
Lemma target_verbatim (req : Request) :
  cfg_url (proxy_config env req) = (backendUrl env ++ url req)%string.
Proof. reflexivity. Qed.

(** Without query parameters that is also the URL requested. *)
Lemma target_without_query (req : Request) :
  query req = [] ->
  effective_url (proxy_config env req) = (backendUrl env ++ url req)%string.
Proof. intros Hq. unfold effective_url, buildURL. cbn. now rewrite Hq. Qed.

(** With a query string in the inbound URL, the parameters are appended a
    second time. *)
Lemma query_appended_again (req : Request) :
  serialize (query req) <> "" ->
  indexOf "#" (targetUrl env req) = None ->
  indexOf "?" (targetUrl env req) <> None ->
  effective_url (proxy_config env req)
  = (targetUrl env req ++ "&" ++ serialize (query req))%string.
Proof.
  intros Hq Hh Hm. unfold effective_url, buildURL. cbn [cfg_url cfg_params proxy_config].
  apply String.eqb_neq in Hq. rewrite Hq, Hh.
  now destruct (indexOf "?" (targetUrl env req)).
Qed.

End UpstreamRequest.

(** C7, at [GET /api/items?x=1]: the URL given to axios already ends in the
    query string, the parsed parameters are given as [params] as well, and
    the URL requested from the backend has the parameter twice. *)
Lemma query_parameter_sent_twice :
  let req := request_of (Sample.arrival Sample.get_items (Sample.answers Sample.not_found))
               (Some (JObj [])) in
  let cfg := proxy_config Sample.env req in
  cfg_url cfg = "http://backend:3847/api/items?x=1"
  /\ cfg_params cfg = [("x", "1")]
  /\ effective_url cfg = "http://backend:3847/api/items?x=1&x=1".
Proof. vm_compute. repeat split. Qed.

(** C8, counterexample: a request whose client address Express does not
    know, the socket being gone: the value of X-Forwarded-For is undefined
    and the header is not sent, while the other two are. *)
Lemma no_address_no_forwarded_for :
  let req := request_of (Sample.arrival Sample.no_address (Sample.answers Sample.not_found))
               (Some (JObj [])) in
  let cfg := proxy_config Sample.env req in
  cfg_headers cfg !! "X-Forwarded-For" = Some None
  /\ has_header "x-forwarded-for" (wire_headers Sample.env cfg) = false
  /\ has_header "x-forwarded-proto" (wire_headers Sample.env cfg) = true
  /\ has_header "x-request-id" (wire_headers Sample.env cfg) = true.
Proof. vm_compute. repeat split. Qed.

(** C10, at [GET /api/items] without a body, where [express.json()] leaves
    the empty object in [req.body]: the handler puts no Content-Type among
    its headers, but it hands the empty object to axios as [data], and the
    backend receives the body of two characters with Content-Type
    application/json and Content-Length 2. *)
Lemma empty_object_body_is_typed :
  let req := request_of (Sample.arrival Sample.get_items (Sample.answers Sample.not_found))
               (Some (JObj [])) in
  let cfg := proxy_config Sample.env req in
  has_body req = false
  /\ cfg_headers cfg !! "Content-Type" = None
  /\ cfg_data cfg = Some (JObj [])
  /\ wire_body cfg = Some "{}"
  /\ In ("content-type", "application/json") (wire_headers Sample.env cfg)
  /\ In ("content-length", "2") (wire_headers Sample.env cfg).
Proof.
  vm_compute. repeat split; auto 20.
Qed.

(** ** An error that carries a response *)

Section ErrorResponse.

Context (env : Env).



End ErrorResponse.



(** * Beyond the forwarding contract *)

(** ** The handler in full: what it leaves in every case *)

(** The state in which the [try] block has logged the upstream response. *)
Definition at_relay (env : Env) (backend : Backend) (req : Request)
    (r : UpstreamResponse) (s : State) : State :=
  let cfg := proxy_config env req in
  let d := snd (settle cfg (backend cfg)) in
  logged Stdout (inbound_entry env req r d (clock s + d))
    (slept d (issued cfg (logged Stdout (outbound_entry env req (clock s)) s))).

Section HandlerInFull.

Context (env : Env).

Lemma proxyRequest_answered_run backend req r s :
  headersSent (res s) = false ->
  outcome backend (proxy_config env req) = Answered r ->
  proxyRequest env backend req s
  = (Ok tt, set_res (relayed env req r (res s)) (at_relay env backend req r s)).
Proof.
  intros Hs Ho. unfold proxyRequest. mstep. unfold try_catch, forward.
  do 2 mstep. erewrite bind_ok by (apply axios_answered; exact Ho).
  do 2 mstep. unfold res_status, headersToForward, forEach.
  mstep. mstep. rewrite res_json_unsent by unsent.
  unfold at_relay. cbn [clock slept issued logged]. rewrite Z.add_simpl_l. reflexivity.
Qed.

Lemma res_json_sent req v s :
  headersSent (res s) = true ->
  res_json env req v s = (Throw ERR_HTTP_HEADERS_SENT, s).
Proof.
  intros Hs. unfold res_json. mstep.
  destruct (truthy_str _).
  - erewrite bind_ok by reflexivity. now apply res_send_sent.
  - now erewrite bind_throw by (now apply res_setHeader_sent).
Qed.

(** On a response already sent, copying a header either does nothing or
    throws, and the state stays as it is either way. *)
Lemma copy_step_sent (r : UpstreamResponse) h s :
  headersSent (res s) = true ->
  let m := match upHeaders r !! h with
           | Some v => if String.eqb v "" then ret tt else res_setHeader h v
           | None => ret tt
           end in
  m s = (Ok tt, s) \/ m s = (Throw ERR_HTTP_HEADERS_SENT, s).
Proof.
  intros Hs. cbv zeta. destruct (upHeaders r !! h) as [v|]; [|now left].
  destruct (String.eqb v ""); [now left|]. right. now apply res_setHeader_sent.
Qed.

Lemma relay_after_send req (r : UpstreamResponse) s :
  headersSent (res s) = true ->
  (forEach headersToForward (fun header =>
     match upHeaders r !! header with
     | Some v => if String.eqb v "" then ret tt else res_setHeader header v
     | None => ret tt
     end) ;;
   res_json env req (value_of (data r))) s
  = (Throw ERR_HTTP_HEADERS_SENT, s).
Proof.
  intros Hs. unfold headersToForward, forEach.
  destruct (copy_step_sent r "content-type" s Hs) as [H1|H1];
    destruct (copy_step_sent r "content-length" s Hs) as [H2|H2]; cbv zeta in H1, H2.
  - erewrite bind_ok.
    2:{ erewrite bind_ok by exact H1. erewrite bind_ok by exact H2. reflexivity. }
    now apply res_json_sent.
  - erewrite bind_throw; [reflexivity|].
    erewrite bind_ok by exact H1. now erewrite bind_throw by exact H2.
  - erewrite bind_throw; [reflexivity|]. now erewrite bind_throw by exact H1.
  - erewrite bind_throw; [reflexivity|]. now erewrite bind_throw by exact H1.
Qed.

(** The [catch] block on an error that is no axios error. *)
Lemma recover_not_axios req e s :
  isAxiosError e = false ->
  recover env req e s
  = if headersSent (res s)
    then (Ok tt, handed_on e (logged Stderr (error_entry env req e (clock s)) s))
    else (Ok tt,
          set_res
            (json_reply env req
               (JObj [("error", JStr "bad gateway"); ("requestId", JStr (requestId req))])
               (with_status 502 (res s)))
            (logged Stderr (error_entry env req e (clock s)) s)).
Proof.
  intros Ha. unfold recover. do 2 mstep. unfold answer_axios_error. rewrite Ha.
  do 2 mstep. cbn [res logged]. destruct (headersSent (res s)) eqn:Hs; cbn [negb].
  - unfold next, next_error, default_handler. do 2 mstep. cbn [res handed_on logged].
    now rewrite Hs.
  - unfold res_status. mstep. now rewrite res_json_unsent by unsent.
Qed.

(** The upstream answers, but the response has been sent already: the
    status property is set, the first write to the headers throws, and the
    [catch] block hands that error to [next]. *)
Lemma proxyRequest_answered_sent backend req r s :
  headersSent (res s) = true ->
  outcome backend (proxy_config env req) = Answered r ->
  let s1 := set_res (with_status (status r) (res s)) (at_relay env backend req r s) in
  proxyRequest env backend req s
  = (Ok tt,
     handed_on ERR_HTTP_HEADERS_SENT
       (logged Stderr (error_entry env req ERR_HTTP_HEADERS_SENT (clock s1)) s1)).
Proof.
  intros Hs Ho. cbv zeta. unfold proxyRequest. mstep. unfold try_catch.
  assert (Hf : forward env backend req (clock s) s
               = (Throw ERR_HTTP_HEADERS_SENT,
                  set_res (with_status (status r) (res s)) (at_relay env backend req r s))).
  { unfold forward. do 2 mstep. erewrite bind_ok by (apply axios_answered; exact Ho).
    do 2 mstep. unfold res_status. mstep.
    rewrite relay_after_send by (cbn; exact Hs).
    unfold at_relay. cbn [clock slept issued logged]. rewrite Z.add_simpl_l. reflexivity. }
  rewrite Hf. rewrite recover_not_axios by reflexivity.
  cbn [res set_res with_status headersSent]. now rewrite Hs.
Qed.

(** The upstream fails with a code the [catch] block answers itself, or
    with a response attached, but the response has been sent already: the
    write throws inside the [catch] block and the error leaves the handler. *)
Lemma proxyRequest_failed_sent backend req e s :
  headersSent (res s) = true ->
  outcome backend (proxy_config env req) = Failed e ->
  classified (code e) = true \/ response e <> None ->
  exists st,
    proxyRequest env backend req s
    = (Throw ERR_HTTP_HEADERS_SENT,
       set_res (with_status st (res s)) (caught env backend req e s)).
Proof.
  intros Hs Ho Hc. unfold proxyRequest. mstep. unfold try_catch.
  rewrite (forward_failed env backend req e (clock s) s Ho).
  unfold recover. do 2 mstep. unfold answer_axios_error.
  rewrite (outcome_isAxiosError _ _ _ Ho).
  assert (Hthrow : forall st v (k : unit -> M bool) s0,
            headersSent (res s0) = true ->
            (res_status st ;; res_json env req v ;; k tt) s0
            = (Throw ERR_HTTP_HEADERS_SENT, set_res (with_status st (res s0)) s0)).
  { intros st v k s0 Hs0. unfold res_status. mstep.
    now erewrite bind_throw by (apply res_json_sent; cbn; exact Hs0). }
  destruct (bool_decide (code e = Some "ECONNREFUSED")) eqn:E1.
  { exists 503.
    now erewrite bind_throw by (apply (Hthrow 503 _ (fun _ => ret true)); exact Hs). }
  destruct (bool_decide (code e = Some "ETIMEDOUT")
            || bool_decide (code e = Some "ECONNABORTED"))%bool eqn:E2.
  { exists 504.
    now erewrite bind_throw by (apply (Hthrow 504 _ (fun _ => ret true)); exact Hs). }
  destruct Hc as [Hc|Hc].
  { unfold classified in Hc. rewrite E1 in Hc. cbn in Hc. congruence. }
  destruct (response e) as [r|]; [|contradiction].
  exists (status r).
  now erewrite bind_throw by (apply (Hthrow (status r) _ (fun _ => ret true)); exact Hs).
Qed.

End HandlerInFull.

(** ** The application in full *)

(** The state in which the body parser runs: after the limiter below
    [/api], straight after the request-id middleware elsewhere. *)
Definition entry (env : Env) (a : Arrival) (s : State) : State :=
  if under_api_mount (route a) then counted env a s else set_res (ingress env a) s.

(** The body with which a request reaches [proxyRequest], if it does: it
    is on [/api/*], the limiter lets it through and the parser accepts it. *)
Definition reaches_proxy (a : Arrival) (s : State) : option (option json) :=
  match route a, parsed a with
  | Api, Parsed b => if admitted (window_of a s) then Some b else None
  | _, _ => None
  end.

Section ApplicationInFull.

Context (env : Env).

Lemma helmeted_status hs r : statusCode (helmeted hs r) = statusCode r.
Proof.
  revert r. induction hs as [|kv hs IH]; intros r; [reflexivity|].
  cbn [helmeted fold_left]. change (fold_left _ hs ?x) with (helmeted hs x). now rewrite IH.
Qed.

Lemma entry_unsent a s : headersSent (res (entry env a s)) = false.
Proof.
  unfold entry. destruct (under_api_mount (route a)).
  - apply counted_unsent.
  - apply ingress_unsent.
Qed.

Lemma entry_upstream a s : upstream (entry env a s) = upstream s.
Proof. unfold entry. now destruct (under_api_mount (route a)). Qed.

Lemma entry_console a s : console (entry env a s) = console s.
Proof. unfold entry. now destruct (under_api_mount (route a)). Qed.

(** Past the limiter, the parser and the routes run in the entry state. *)
Lemma dispatch_enters a s :
  (under_api_mount (route a) = true -> admitted (window_of a s) = true) ->
  dispatch env a (correlation_id a) (set_res (ingress env a) s)
  = express_json env (parsed a) (fun body =>
      match route a with
      | Api => proxyRequest env (backend a) (request_of a body)
      | Health => health env (raw a)
      | Unmatched _ => default_handler env 404
      end) (entry env a s).
Proof.
  intros Ha. unfold dispatch, entry. destruct (under_api_mount (route a)).
  - now rewrite limiter_admits by (now apply Ha).
  - reflexivity.
Qed.

(** The request-id middleware's last word: the line logged when the
    response has gone out. *)
Lemma app_finish a s s1 :
  dispatch env a (correlation_id a) (set_res (ingress env a) s) = (Ok tt, s1) ->
  headersSent (res s1) = true ->
  app env a s
  = (Ok tt,
     logged Stdout
       (finish_entry env (raw a) (correlation_id a) (statusCode (res s1))
          (clock s1 - clock s) (clock s1)) s1).
Proof.
  intros Hrun Hsent. rewrite app_run, (on_finish_run _ _ _ _ _ Hrun), Hsent.
  now rewrite finish_log_run.
Qed.

(** What a request that does not reach [proxyRequest] is answered with. *)
Definition local_answer (a : Arrival) (r : Response) : Response :=
  match parsed a with
  | ParseError st => error_page env st r
  | Parsed _ =>
      match route a with
      | Health => json_reply env (raw a) (JObj [("ok", JBool true)]) r
      | _ => error_page env 404 r
      end
  end.

Lemma local_answer_sent a r : headersSent (local_answer a r) = true.
Proof.
  unfold local_answer.
  destruct (parsed a); [destruct (route a)|]; first [apply json_reply_sent|reflexivity].
Qed.

Lemma dispatch_local a s :
  (under_api_mount (route a) = true -> admitted (window_of a s) = true) ->
  (forall b, parsed a = Parsed b -> route a <> Api) ->
  dispatch env a (correlation_id a) (set_res (ingress env a) s)
  = (Ok tt, set_res (local_answer a (res (entry env a s))) (entry env a s)).
Proof.
  intros Ha Hn. rewrite dispatch_enters by exact Ha.
  pose proof (entry_unsent a s) as Hu.
  unfold express_json, local_answer. destruct (parsed a) as [b|st].
  - specialize (Hn b eq_refl). destruct (route a); [contradiction| |].
    + unfold health. now rewrite res_json_unsent.
    + now rewrite default_handler_run.
  - now rewrite default_handler_run.
Qed.

(** The state a request that is answered on the spot leaves before the
    last line is logged. *)
Definition answered_locally (a : Arrival) (s : State) : State :=
  set_res (local_answer a (res (entry env a s))) (entry env a s).

Lemma app_local a s :
  (under_api_mount (route a) = true -> admitted (window_of a s) = true) ->
  (forall b, parsed a = Parsed b -> route a <> Api) ->
  let s1 := answered_locally a s in
  app env a s
  = (Ok tt,
     logged Stdout
       (finish_entry env (raw a) (correlation_id a) (statusCode (res s1))
          (clock s1 - clock s) (clock s1)) s1).
Proof.
  intros Ha Hn. cbv zeta. apply app_finish.
  - now apply dispatch_local.
  - apply local_answer_sent.
Qed.

Lemma app_rejected_finish a s :
  under_api_mount (route a) = true ->
  admitted (window_of a s) = false ->
  let s1 :=
    set_res
      (sent_with env (raw a) "Too many requests, please try again later."
         (with_status 429 (res (counted env a s))))
      (counted env a s) in
  app env a s
  = (Ok tt,
     logged Stdout
       (finish_entry env (raw a) (correlation_id a) (statusCode (res s1))
          (clock s1 - clock s) (clock s1)) s1).
Proof.
  intros Hm Ha. cbv zeta. apply app_finish; [|apply sent_with_sent].
  now apply dispatch_rejected.
Qed.

(** Every path through the application, by what reaches the backend. *)
Lemma app_cases a s :
  (exists b s1,
      reaches_proxy a s = Some b
      /\ proxyRequest env (backend a) (request_of a b) (counted env a s) = (Ok tt, s1)
      /\ headersSent (res s1) = true
      /\ upstream s1 = (upstream s ++ [proxy_config env (request_of a b)])%list
      /\ windows s1 = windows (counted env a s)
      /\ snd (app env a s)
         = logged Stdout
             (finish_entry env (raw a) (correlation_id a) (statusCode (res s1))
                (clock s1 - clock s) (clock s1)) s1)
  \/ (exists s1,
      reaches_proxy a s = None
      /\ upstream s1 = upstream s
      /\ (under_api_mount (route a) = false -> windows s1 = windows s)
      /\ headersSent (res s1) = true
      /\ snd (app env a s)
         = logged Stdout
             (finish_entry env (raw a) (correlation_id a) (statusCode (res s1))
                (clock s1 - clock s) (clock s1)) s1).
Proof.
  assert (Hlocal :
    (under_api_mount (route a) = true -> admitted (window_of a s) = true) ->
    (forall b, parsed a = Parsed b -> route a <> Api) ->
    reaches_proxy a s = None ->
    exists s1,
      reaches_proxy a s = None
      /\ upstream s1 = upstream s
      /\ (under_api_mount (route a) = false -> windows s1 = windows s)
      /\ headersSent (res s1) = true
      /\ snd (app env a s)
         = logged Stdout
             (finish_entry env (raw a) (correlation_id a) (statusCode (res s1))
                (clock s1 - clock s) (clock s1)) s1).
  { intros Ha Hn Hnone. exists (answered_locally a s).
    rewrite (app_local a s Ha Hn). unfold answered_locally.
    cbn [snd set_res upstream res windows]. rewrite entry_upstream.
    repeat split; try assumption.
    - intros Hm. unfold entry. now rewrite Hm.
    - apply local_answer_sent. }
  destruct (under_api_mount (route a)) eqn:Hm.
  - destruct (admitted (window_of a s)) eqn:Ha.
    + destruct (reaches_proxy a s) as [b|] eqn:Hreach.
      * left. unfold reaches_proxy in Hreach.
        destruct (route a) eqn:Hr; try discriminate Hreach.
        destruct (parsed a) as [b'|st] eqn:Hp; try discriminate Hreach.
        rewrite Ha in Hreach. injection Hreach as ->.
        destruct (proxyRequest_answers env (backend a) (request_of a b) (counted env a s)
                    (counted_unsent env a s)) as (s1 & Hrun & Hsent & Hup & _ & Hw).
        exists b, s1. repeat split; try assumption.
        rewrite (app_finish a s s1); [reflexivity| |exact Hsent].
        now rewrite (dispatch_api env a b s Hr Hp Ha).
      * right. apply Hlocal; [auto| |reflexivity].
        intros b Hp Hr. unfold reaches_proxy in Hreach.
        rewrite Hr, Hp, Ha in Hreach. discriminate.
    + right.
      exists (set_res
                (sent_with env (raw a) "Too many requests, please try again later."
                   (with_status 429 (res (counted env a s))))
                (counted env a s)).
      rewrite (app_rejected_finish a s Hm Ha).
      repeat split; try discriminate; [|apply sent_with_sent].
      unfold reaches_proxy. destruct (route a), (parsed a); try reflexivity.
      now rewrite Ha.
  - right. apply Hlocal.
    + discriminate.
    + intros b _ Hr. rewrite Hr in Hm. discriminate.
    + unfold reaches_proxy. destruct (route a); try discriminate Hm; reflexivity.
Qed.

End ApplicationInFull.

(** ** Routes, the backend and the access log *)

Section Routes.

Context (env : Env).

(** X1.  [GET /health] with a body the parser accepts is answered with
    the ok object, whatever the state of the process: the status is 200
    and the body the JSON text of the object, unless Express finds the
    client's copy still good and answers 304 without a body.  A request
    with neither If-None-Match nor If-Modified-Since gets the 200; one with
    [If-None-Match: *] and no Cache-Control gets the 304.  No upstream
    request goes out, the rate-limit store is not touched and no error is
    passed on. *)
Theorem health_answers_ok a b s :
  route a = Health ->
  method (raw a) = "GET" ->
  url (raw a) = "/health" ->
  parsed a = Parsed b ->
  exists s',
    app env a s = (Ok tt, s')
    /\ headersSent (res s') = true
    /\ (statusCode (res s') = 200 \/ statusCode (res s') = 304)
    /\ resBody (res s')
       = Some (if statusCode (res s') =? 304 then ""
               else ("{" ++ quote "ok" ++ ":true}")%string)
    /\ (unconditional (raw a) = true -> statusCode (res s') = 200)
    /\ (headers (raw a) !! "if-none-match" = Some "*" ->
        headers (raw a) !! "cache-control" = None ->
        headers (raw a) !! "if-modified-since" = None ->
        statusCode (res s') = 304)
    /\ upstream s' = upstream s
    /\ windows s' = windows s
    /\ passed_on s' = passed_on s.
Proof.
  intros Hr Hget _ Hp.
  assert (Hm : under_api_mount (route a) = false) by now rewrite Hr.
  eexists. split.
  { apply app_local.
    - rewrite Hm. discriminate.
    - intros b' _. rewrite Hr. discriminate. }
  unfold answered_locally, local_answer, entry. rewrite Hm, Hp, Hr.
  cbn [res logged set_res upstream windows passed_on].
  assert (H200 : statusCode (ingress env a) = 200).
  { unfold ingress, with_header. cbn [statusCode]. now rewrite helmeted_status. }
  pose proof (json_reply_status env (raw a) (JObj [("ok", JBool true)]) (ingress env a))
    as Hst.
  pose proof (json_reply_body env (raw a) (JObj [("ok", JBool true)]) (ingress env a))
    as Hbody.
  rewrite H200 in Hst.
  split; [apply json_reply_sent|].
  split; [rewrite Hst; destruct (not_modified _ _ _ _); auto|].
  split.
  { rewrite Hbody, Hst. now destruct (not_modified _ _ _ _). }
  split.
  { intros Hu. rewrite Hst. now rewrite not_modified_unconditional. }
  split; [|repeat split].
  intros Hnm Hcc Hims. rewrite Hst.
  rewrite not_modified_star; try assumption; [reflexivity|].
  destruct (truthy_str _);
    [|change (statusCode (with_header ?n ?v ?y)) with (statusCode y)];
    now rewrite H200.
Qed.

(** X2.  The backend is contacted exactly when the request is on [/api/*],
    the limiter lets it through and the body parser accepts the body, and
    then exactly once, with the request [proxyRequest] builds; on every
    other path no upstream request goes out. *)
Theorem backend_contacted_exactly_when a s :
  upstream (snd (app env a s))
  = match reaches_proxy a s with
    | Some b => (upstream s ++ [proxy_config env (request_of a b)])%list
    | None => upstream s
    end.
Proof.
  destruct (app_cases env a s) as [(b & s1 & -> & _ & _ & Hup & _ & ->)
                                  |(s1 & -> & Hup & _ & _ & ->)];
    exact Hup.
Qed.

(** X3.  A request outside the [/api] mount point leaves the rate-limit
    store as it was, whatever its route and whatever the parser says. *)
Theorem limiter_only_below_api a s :
  under_api_mount (route a) = false ->
  windows (snd (app env a s)) = windows s.
Proof.
  intros Hm.
  destruct (app_cases env a s) as [(b & s1 & Hreach & _)|(s1 & _ & _ & Hw & _ & ->)].
  - unfold reaches_proxy in Hreach. destruct (route a); discriminate.
  - now apply Hw.
Qed.


End Routes.

(** X1, witness: a health check from a client that has used up its quota,
    with a backend that is down. *)
Lemma health_answers_ok_witness :
  exists s',
    app Sample.env
      {| raw := Sample.get_health; route := Health; uuid := "0000";
         parsed := Parsed None; backend := fun _ => Sample.fails "ECONNREFUSED" None |}
      Sample.busy = (Ok tt, s')
    /\ statusCode (res s') = 200
    /\ upstream s' = upstream Sample.busy.
Proof.
  destruct (health_answers_ok Sample.env
              {| raw := Sample.get_health; route := Health; uuid := "0000";
                 parsed := Parsed None; backend := fun _ => Sample.fails "ECONNREFUSED" None |}
              None Sample.busy eq_refl eq_refl eq_refl eq_refl)
    as (s' & Hrun & _ & _ & _ & Hst & _ & Hup & _).
  exists s'. split; [exact Hrun|]. split; [now apply Hst|exact Hup].
Defined.

(** The same health check sent again with [If-None-Match: *] is answered
    304, without a body and without Content-Type. *)
Example health_revalidated :
  let a := {| raw := Sample.get_health_again; route := Health; uuid := "0000";
              parsed := Parsed None; backend := fun _ => Sample.slow |} in
  let s' := snd (app Sample.env a Sample.idle) in
  statusCode (res s') = 304
  /\ resBody (res s') = Some ""
  /\ resHeaders (res s') !! "content-type" = None
  /\ resHeaders (res s') !! "content-length" = None.
Proof. vm_compute. repeat split. Qed.


(** X3, witness: an unknown path outside [/api]. *)
Lemma limiter_only_below_api_witness :
  windows (snd (app Sample.env
                  {| raw := Sample.get_items; route := Unmatched false; uuid := "0000";
                     parsed := Parsed None; backend := fun _ => Sample.slow |}
                  Sample.busy))
  = windows Sample.busy.
Proof.
  exact (limiter_only_below_api Sample.env
           {| raw := Sample.get_items; route := Unmatched false; uuid := "0000";
              parsed := Parsed None; backend := fun _ => Sample.slow |}
           Sample.busy eq_refl).
Defined.

(** ** The upstream call seen from the client *)

(** What the backend does with the one request the gateway sends it. *)
Definition exchange_of (env : Env) (a : Arrival) (b : option json) : Exchange :=
  backend a (proxy_config env (request_of a b)).

(** A state in which an earlier handler has answered already. *)
Definition answered_before : State :=
  set_res (sent_with Sample.env Sample.get_items "done" fresh_response) Sample.idle.

Section Calls.

Context (env : Env).

(** The call takes as long as the backend does, and 30 seconds at most. *)
Lemma call_time req x :
  snd (settle (proxy_config env req) x) = Z.min (elapsed x) 30000.
Proof.
  unfold settle. cbn [cfg_timeout cfg_validateStatus proxy_config].
  change (0 <? 30000) with true.
  destruct (30000 <? elapsed x) eqn:E.
  - apply Z.ltb_lt in E. cbn [andb fst snd]. lia.
  - apply Z.ltb_ge in E. cbn [andb].
    destruct (attempt x); cbn [snd]; lia.
Qed.

Lemma transport_error_is_wrapped backend req e :
  attempt (backend (proxy_config env req)) = Failed e ->
  elapsed (backend (proxy_config env req)) <= 30000 ->
  outcome backend (proxy_config env req) = Failed (AxiosError_from e).
Proof.
  intros Hat Hel. unfold outcome, settle. cbn [cfg_timeout proxy_config].
  apply Z.ltb_ge in Hel. now rewrite Hel, Hat.
Qed.

(** A failed call on a response not yet sent: the [catch] block answers. *)
Lemma proxyRequest_failed_run backend req e s :
  headersSent (res s) = false ->
  outcome backend (proxy_config env req) = Failed e ->
  exists r',
    proxyRequest env backend req s = (Ok tt, set_res r' (caught env backend req e s))
    /\ headersSent r' = true
    /\ plain_status (statusCode r') = true
    /\ (forall k,
          k <> "content-type" -> k <> "content-length" -> k <> "etag" ->
          k <> "transfer-encoding" ->
          resHeaders r' !! k = resHeaders (res s) !! k).
Proof.
  intros Hs Ho.
  assert (Hreply : forall st v,
            plain_status st = true ->
            headersSent (json_reply env req v (with_status st (res s))) = true
            /\ plain_status (statusCode (json_reply env req v (with_status st (res s)))) = true
            /\ (forall k,
                  k <> "content-type" -> k <> "content-length" -> k <> "etag" ->
                  k <> "transfer-encoding" ->
                  resHeaders (json_reply env req v (with_status st (res s))) !! k
                  = resHeaders (res s) !! k)).
  { intros st v Hst. split; [apply json_reply_sent|]. split.
    - destruct (json_reply_plain env req v (with_status st (res s)) Hst) as [-> _].
      exact Hst.
    - intros k Ht Hl He Hx. now rewrite json_reply_other. }
  destruct (bool_decide (code e = Some "ECONNREFUSED")) eqn:E1.
  { apply bool_decide_eq_true_1 in E1.
    rewrite (proxyRequest_refused env backend req e s Hs Ho E1).
    eexists. split; [reflexivity|]. now apply Hreply. }
  destruct (bool_decide (code e = Some "ETIMEDOUT")
            || bool_decide (code e = Some "ECONNABORTED"))%bool eqn:E2.
  { assert (Hc : code e = Some "ETIMEDOUT" \/ code e = Some "ECONNABORTED").
    { apply orb_true_iff in E2 as [E|E]; apply bool_decide_eq_true_1 in E; auto. }
    rewrite (proxyRequest_timed_out env backend req e s Hs Ho Hc).
    eexists. split; [reflexivity|]. now apply Hreply. }
  assert (Hc : classified (code e) = false).
  { unfold classified. rewrite E1. exact E2. }
  pose proof (failed_call_has_no_response env backend req e Ho) as Hr.
  rewrite (proxyRequest_unclassified env backend req e s Hs Ho Hc Hr).
  eexists. split; [reflexivity|]. now apply Hreply.
Qed.


(** X6.  A forwarded request whose call fails before the 30 seconds are
    over leaves exactly three lines: the outbound entry on standard output,
    one entry on standard error with the message, code and stack of the
    failure, and the access-log line on standard output with the status the
    [catch] block chose.  No inbound entry is written. *)
Theorem failed_request_log a b e s :
  route a = Api ->
  parsed a = Parsed b ->
  admitted (window_of a s) = true ->
  attempt (exchange_of env a b) = Failed e ->
  elapsed (exchange_of env a b) <= 30000 ->
  console (snd (app env a s))
  = (console s
     ++ [(Stdout, outbound_entry env (request_of a b) (clock s));
         (Stderr, error_entry env (request_of a b) e
                    (clock s + elapsed (exchange_of env a b)));
         (Stdout, finish_entry env (raw a) (correlation_id a)
                    (statusCode (res (snd (app env a s))))
                    (elapsed (exchange_of env a b))
                    (clock s + elapsed (exchange_of env a b)))])%list.
Proof.
  intros Hr Hp Ha Hat Hel.
  pose proof (transport_error_is_wrapped (backend a) (request_of a b) e Hat Hel) as Ho.
  destruct (proxyRequest_failed_run (backend a) (request_of a b) _ _
              (counted_unsent env a s) Ho) as (r' & Hrun & Hsent & _).
  rewrite (app_api env a b s _ _ Hr Hp Ha Hrun Hsent).
  unfold caught, at_catch. rewrite call_time.
  cbn [snd console logged set_res slept issued clock res counted set_windows statusCode].
  fold (exchange_of env a b).
  rewrite Z.min_l by exact Hel. rewrite Z.add_simpl_l.
  now rewrite <- !app_assoc.
Qed.

(** X7.  A backend that, the connection made, stays silent for more than
    30 seconds is not waited for: the inactivity timer axios sets on the
    socket ends the call, and the client is answered 504 whatever the
    backend would have answered in the end.  On the clock of the model,
    which only the upstream call advances and on which the timer fires on
    time, that is 30000 milliseconds after the request arrived, and the
    access log records that duration. *)
Theorem slow_backend_cut_off a b s :
  route a = Api ->
  parsed a = Parsed b ->
  admitted (window_of a s) = true ->
  30000 < elapsed (exchange_of env a b) ->
  exists s' evs,
    app env a s = (Ok tt, s')
    /\ statusCode (res s') = 504
    /\ clock s' = clock s + 30000
    /\ console s'
       = (console s ++ evs
          ++ [(Stdout, finish_entry env (raw a) (correlation_id a) 504 30000
                         (clock s + 30000))])%list.
Proof.
  intros Hr Hp Ha Hel.
  pose proof (slow_backend_times_out env (backend a) (request_of a b) Hel) as Ho.
  rewrite (app_api env a b s _ _ Hr Hp Ha
             (proxyRequest_timed_out env (backend a) (request_of a b) _ _
                (counted_unsent env a s) Ho (or_intror eq_refl)) (json_reply_sent _ _ _ _)).
  unfold caught, at_catch. rewrite call_time.
  fold (exchange_of env a b). rewrite Z.min_r by lia.
  eexists. eexists [_; _]. split; [reflexivity|].
  cbn [snd console logged set_res slept issued clock res counted set_windows].
  match goal with
  | |- context [json_reply env ?q ?v ?x] =>
      destruct (json_reply_plain env q v x eq_refl) as [Hst _]; rewrite Hst
  end.
  cbn [statusCode with_status].
  rewrite Z.add_simpl_l. repeat split.
  rewrite <- !app_assoc. reflexivity.
Qed.

(** X8.  [proxyRequest] issues exactly one upstream request each time it
    runs, whatever the backend does and whether or not the response has
    been sent already: it neither retries nor skips the call. *)
Theorem one_upstream_request_per_call backend req s :
  upstream (snd (proxyRequest env backend req s))
  = (upstream s ++ [proxy_config env req])%list.
Proof.
  destruct (headersSent (res s)) eqn:Hs.
  - destruct (outcome backend (proxy_config env req)) as [r|e] eqn:Ho.
    + now rewrite (proxyRequest_answered_sent env backend req r s Hs Ho).
    + destruct (classified (code e)) eqn:Hc.
      * destruct (proxyRequest_failed_sent env backend req e s Hs Ho (or_introl Hc))
          as (st & ->). reflexivity.
      * destruct (response e) as [r|] eqn:Hr.
        -- destruct (proxyRequest_failed_sent env backend req e s Hs Ho)
             as (st & ->); [right; now rewrite Hr|reflexivity].
        -- now rewrite (proxyRequest_unclassified_sent env backend req e s Hs Ho Hc Hr).
  - destruct (proxyRequest_answers env backend req s Hs) as (s' & -> & _ & Hup & _).
    exact Hup.
Qed.

(** X9.  A response that has gone out is never written again: when
    [proxyRequest] runs on it, body and headers stay what the client
    received, whatever the backend does. *)
Theorem sent_response_is_not_rewritten backend req s :
  headersSent (res s) = true ->
  let s' := snd (proxyRequest env backend req s) in
  resBody (res s') = resBody (res s)
  /\ resHeaders (res s') = resHeaders (res s)
  /\ headersSent (res s') = true.
Proof.
  intros Hs. cbv zeta.
  destruct (outcome backend (proxy_config env req)) as [r|e] eqn:Ho.
  - rewrite (proxyRequest_answered_sent env backend req r s Hs Ho). cbn. auto.
  - destruct (classified (code e)) eqn:Hc.
    + destruct (proxyRequest_failed_sent env backend req e s Hs Ho (or_introl Hc))
        as (st & ->). cbn. auto.
    + destruct (response e) as [r|] eqn:Hr.
      * destruct (proxyRequest_failed_sent env backend req e s Hs Ho)
          as (st & ->); [right; now rewrite Hr|cbn; auto].
      * rewrite (proxyRequest_unclassified_sent env backend req e s Hs Ho Hc Hr).
        cbn. auto.
Qed.

(** X10.  When the backend answers but the response has gone out already,
    the first header write of the [try] block throws; the [catch] block
    logs that error and, finding the response sent, hands it to [next].
    Only [res.statusCode] has been overwritten with the upstream status by
    then. *)
Theorem late_answer_goes_to_next backend req r s :
  headersSent (res s) = true ->
  outcome backend (proxy_config env req) = Answered r ->
  exists s',
    proxyRequest env backend req s = (Ok tt, s')
    /\ passed_on s' = (passed_on s ++ [ERR_HTTP_HEADERS_SENT])%list
    /\ statusCode (res s') = status r
    /\ resBody (res s') = resBody (res s)
    /\ exists evs,
         console s'
         = (console s ++ evs
            ++ [(Stderr, error_entry env req ERR_HTTP_HEADERS_SENT (clock s'))])%list.
Proof.
  intros Hs Ho. rewrite (proxyRequest_answered_sent env backend req r s Hs Ho).
  eexists. split; [reflexivity|]. cbn. repeat split.
  eexists [_; _]. cbn. now rewrite <- !app_assoc.
Qed.

(** X11.  When the call fails with a refused connection, a timeout or an
    error carrying a response, and the response has gone out already, the
    write in the [catch] block throws in its turn: the handler ends with
    ERR_HTTP_HEADERS_SENT instead of returning, and [next] is not called. *)
Theorem failure_after_send_escapes backend req e s :
  headersSent (res s) = true ->
  outcome backend (proxy_config env req) = Failed e ->
  classified (code e) = true \/ response e <> None ->
  exists s',
    proxyRequest env backend req s = (Throw ERR_HTTP_HEADERS_SENT, s')
    /\ passed_on s' = passed_on s
    /\ resBody (res s') = resBody (res s).
Proof.
  intros Hs Ho Hc.
  destruct (proxyRequest_failed_sent env backend req e s Hs Ho Hc) as (st & ->).
  eexists. split; [reflexivity|]. cbn. auto.
Qed.


End Calls.


(** X6, witness: the backend's host cannot be reached. *)
Lemma failed_request_log_witness :
  length (console (snd (app Sample.env
                          (Sample.arrival Sample.get_items (Sample.fails "EHOSTUNREACH" None))
                          Sample.idle))) = 3%nat.
Proof.
  rewrite (failed_request_log Sample.env
             (Sample.arrival Sample.get_items (Sample.fails "EHOSTUNREACH" None))
             (Some (JObj [])) (Sample.socket_error "EHOSTUNREACH" None) Sample.idle
             eq_refl eq_refl eq_refl eq_refl ltac:(cbn; lia)).
  reflexivity.
Defined.

(** X7, witness: the backend needs 45 seconds. *)
Lemma slow_backend_cut_off_witness :
  exists s',
    app Sample.env (Sample.arrival Sample.get_items Sample.slow) Sample.idle = (Ok tt, s')
    /\ statusCode (res s') = 504
    /\ clock s' = clock Sample.idle + 30000.
Proof.
  destruct (slow_backend_cut_off Sample.env
              (Sample.arrival Sample.get_items Sample.slow)
              (Some (JObj [])) Sample.idle eq_refl eq_refl eq_refl ltac:(cbn; lia))
    as (s' & evs & Hrun & Hst & Hclock & _).
  exists s'. auto.
Defined.

(** X9, witness: the backend answers on a response that has gone out. *)
Lemma sent_response_is_not_rewritten_witness :
  resBody (res (snd (proxyRequest Sample.env (fun _ => Sample.answers Sample.not_found)
                       (request_of (Sample.arrival Sample.get_items
                                      (Sample.answers Sample.not_found)) None)
                       answered_before)))
  = Some "done".
Proof.
  destruct (sent_response_is_not_rewritten Sample.env
              (fun _ => Sample.answers Sample.not_found)
              (request_of (Sample.arrival Sample.get_items
                             (Sample.answers Sample.not_found)) None)
              answered_before eq_refl) as (Hb & _).
  exact Hb.
Defined.

(** X10, witness: the same late answer. *)
Lemma late_answer_goes_to_next_witness :
  exists s',
    proxyRequest Sample.env (fun _ => Sample.answers Sample.not_found)
      (request_of (Sample.arrival Sample.get_items (Sample.answers Sample.not_found)) None)
      answered_before = (Ok tt, s')
    /\ passed_on s' = [ERR_HTTP_HEADERS_SENT]
    /\ statusCode (res s') = 404.
Proof.
  destruct (late_answer_goes_to_next Sample.env
              (fun _ => Sample.answers Sample.not_found)
              (request_of (Sample.arrival Sample.get_items
                             (Sample.answers Sample.not_found)) None)
              Sample.not_found answered_before eq_refl eq_refl)
    as (s' & Hrun & Hpo & Hst & _).
  exists s'. auto.
Defined.

(** X11, witness: a refused connection after the response has gone out. *)
Lemma failure_after_send_escapes_witness :
  exists s',
    proxyRequest Sample.env (fun _ => Sample.fails "ECONNREFUSED" None)
      (request_of (Sample.arrival Sample.get_items (Sample.fails "ECONNREFUSED" None)) None)
      answered_before = (Throw ERR_HTTP_HEADERS_SENT, s')
    /\ passed_on s' = [].
Proof.
  destruct (failure_after_send_escapes Sample.env
              (fun _ => Sample.fails "ECONNREFUSED" None)
              (request_of (Sample.arrival Sample.get_items
                             (Sample.fails "ECONNREFUSED" None)) None)
              (AxiosError_from (Sample.socket_error "ECONNREFUSED" None))
              answered_before eq_refl eq_refl (or_introl eq_refl))
    as (s' & Hrun & Hpo & _).
  exists s'. auto.
Defined.


(** ** The headers of the response *)



Section ResponseHeaders.

Context (env : Env).










(** X14.  The identifier travels end to end: on a request that reaches
    [proxyRequest], the x-request-id header of the one upstream request and
    the x-request-id header of the response to the client hold the same
    value, the identifier the request-id middleware settled on. *)
Theorem same_id_upstream_and_downstream a b s :
  reaches_proxy a s = Some b ->
  let s' := snd (app env a s) in
  (exists cfg,
     upstream s' = (upstream s ++ [cfg])%list
     /\ cfg_headers cfg !! "x-request-id" = Some (Some (correlation_id a)))
  /\ resHeaders (res s') !! "x-request-id" = Some (correlation_id a).
Proof.
  intros Hreach. cbv zeta. split.
  - destruct (app_cases env a s) as [(b' & s1 & Hb & _ & _ & Hup & _ & ->)
                                    |(s1 & Hnone & _)].
    + rewrite Hreach in Hb. injection Hb as <-.
      eexists. split; [exact Hup|].
      cbn [cfg_headers proxy_config]. unfold proxy_headers. cbv zeta.
      now rewrite lookup_insert, decide_True.
    + now rewrite Hreach in Hnone.
  - destruct (app_answers env a s) as (s' & Hrun & _).
    pose proof (keeps_on_finish (correlation_id a) _ _
                  (keeps_finish_log env (correlation_id a) (raw a) (clock s))
                  (keeps_dispatch env a (correlation_id a))
                  (set_res (ingress env a) s)) as [Hh _].
    rewrite <- app_run in Hh. rewrite Hh. unfold ingress. cbn. now names.
Qed.

End ResponseHeaders.


(** X14, witness: a request that brings its own identifier. *)
Lemma same_id_upstream_and_downstream_witness :
  resHeaders (res (snd (app Sample.env
                          (Sample.arrival Sample.get_items_ABC (Sample.answers Sample.not_found))
                          Sample.idle))) !! "x-request-id"
  = Some "ABC".
Proof.
  destruct (same_id_upstream_and_downstream Sample.env
              (Sample.arrival Sample.get_items_ABC (Sample.answers Sample.not_found))
              (Some (JObj [])) Sample.idle eq_refl) as [_ H].
  exact H.
Defined.

(** ** The lines a request leaves on the console *)

(** The level the entries of a stream are written with. *)
Definition level_of (out : Stream) : string :=
  match out with
  | Stdout => "info"
  | Stderr => "error"
  end.

(** An entry as the log pipeline expects it: an object naming the service,
    with the level of the stream it was written to and a timestamp. *)
Definition well_formed (env : Env) (ev : Stream * json) : Prop :=
  get "service" (snd ev) = Some (JStr "gateway")
  /\ get "level" (snd ev) = Some (JStr (level_of (fst ev)))
  /\ exists t, get "timestamp" (snd ev) = Some (JStr (toISOString env t)).

Section Console.

Context (env : Env).

Lemma reaches_proxy_Some a s b :
  reaches_proxy a s = Some b ->
  route a = Api /\ parsed a = Parsed b /\ admitted (window_of a s) = true.
Proof.
  unfold reaches_proxy. intros H.
  destruct (route a); try discriminate H.
  destruct (parsed a) as [b'|]; try discriminate H.
  destruct (admitted (window_of a s)); [|discriminate H].
  injection H as ->. auto.
Qed.

(** A request that does not reach [proxyRequest] changes nothing but the
    response (and, below [/api], the store) before the access log is
    written. *)
Lemma app_unproxied a s :
  reaches_proxy a s = None ->
  exists r,
    let s1 := set_res r (entry env a s) in
    snd (app env a s)
    = logged Stdout
        (finish_entry env (raw a) (correlation_id a) (statusCode (res s1))
           (clock s1 - clock s) (clock s1)) s1.
Proof.
  intros Hnone. destruct (under_api_mount (route a)) eqn:Hm.
  - destruct (admitted (window_of a s)) eqn:Ha.
    + eexists. cbv zeta. rewrite (app_local env a s (fun _ => Ha)); [reflexivity|].
      intros b Hp Hr. unfold reaches_proxy in Hnone. now rewrite Hr, Hp, Ha in Hnone.
    + eexists. cbv zeta. rewrite (app_rejected_finish env a s Hm Ha).
      unfold entry. rewrite Hm. reflexivity.
  - eexists. cbv zeta. rewrite (app_local env a s); [reflexivity|now rewrite Hm|].
    intros b _ Hr. now rewrite Hr in Hm.
Qed.

Lemma finish_entry_well_formed m id st d t :
  well_formed env (Stdout, finish_entry env m id st d t).
Proof. repeat split. now exists t. Qed.

Lemma outbound_entry_well_formed req t :
  well_formed env (Stdout, outbound_entry env req t).
Proof. repeat split. now exists t. Qed.

Lemma inbound_entry_well_formed req r d t :
  well_formed env (Stdout, inbound_entry env req r d t).
Proof. repeat split. now exists t. Qed.

Lemma error_entry_well_formed req e t :
  well_formed env (Stderr, error_entry env req e t).
Proof.
  unfold well_formed, error_entry.
  destruct (code e), (stack e); repeat split; now exists t.
Qed.

(** X15.  For a request whose body the parser accepts the gateway logs
    one entry when it answers the request itself (health check, 404 page,
    rejection by the limiter) and three when the request reaches
    [proxyRequest]; each entry is an object naming the service gateway,
    with a timestamp, and with level info on standard output and level
    error on standard error.  (When the parser turns the body down,
    Express itself prints the stack of the parser's error besides, as
    plain text.) *)
Theorem log_entries_well_formed a b s :
  parsed a = Parsed b ->
  exists evs,
    console (snd (app env a s)) = (console s ++ evs)%list
    /\ length evs = match reaches_proxy a s with Some _ => 3%nat | None => 1%nat end
    /\ Forall (well_formed env) evs.
Proof.
  intros _. clear b.
  destruct (reaches_proxy a s) as [b|] eqn:Hreach.
  - apply reaches_proxy_Some in Hreach as (Hr & Hp & Ha).
    destruct (outcome (backend a) (proxy_config env (request_of a b))) as [r|e] eqn:Ho.
    + rewrite (app_api env a b s _ _ Hr Hp Ha
                 (proxyRequest_answered_run env (backend a) (request_of a b) r _
                    (counted_unsent env a s) Ho) (relayed_sent _ _ _ _)).
      eexists [_; _; _]. split; [|split; [reflexivity|]].
      * unfold at_relay.
        cbn [snd console logged set_res slept issued counted set_windows].
        now rewrite <- !app_assoc.
      * repeat constructor.
        -- apply outbound_entry_well_formed.
        -- apply inbound_entry_well_formed.
        -- apply finish_entry_well_formed.
    + destruct (proxyRequest_failed_run env (backend a) (request_of a b) e _
                  (counted_unsent env a s) Ho) as (r' & Hrun & Hsent & _).
      rewrite (app_api env a b s _ _ Hr Hp Ha Hrun Hsent).
      eexists [_; _; _]. split; [|split; [reflexivity|]].
      * unfold caught, at_catch.
        cbn [snd console logged set_res slept issued counted set_windows].
        now rewrite <- !app_assoc.
      * repeat constructor.
        -- apply outbound_entry_well_formed.
        -- apply error_entry_well_formed.
        -- apply finish_entry_well_formed.
  - destruct (app_unproxied a s Hreach) as (r & ->).
    eexists [_]. split; [|split; [reflexivity|]].
    + cbn [console logged set_res]. now rewrite entry_console.
    + repeat constructor. apply finish_entry_well_formed.
Qed.

End Console.

(** X15, witness: a request the backend answers leaves three entries. *)
Lemma log_entries_well_formed_witness :
  exists evs,
    console (snd (app Sample.env
                    (Sample.arrival Sample.get_items (Sample.answers Sample.not_found))
                    Sample.idle))
    = (console Sample.idle ++ evs)%list
    /\ length evs = 3%nat.
Proof.
  destruct (log_entries_well_formed Sample.env
              (Sample.arrival Sample.get_items (Sample.answers Sample.not_found))
              (Some (JObj [])) Sample.idle eq_refl) as (evs & Hc & Hl & _).
  exists evs. split; [exact Hc|exact Hl].
Defined.

(** * Start-up and shutdown *)

(** The signals the process installs a handler for. *)
Inductive Signal :=
  | SIGINT
  | SIGTERM.

Definition signal_name (sig : Signal) : string :=
  match sig with
  | SIGINT => "SIGINT"
  | SIGTERM => "SIGTERM"
  end.

(** The two callbacks [shutdown] hands to Node. *)
Inductive Callback :=
  | OnClosed      (* the argument of [server.close] *)
  | ForceExit.    (* the argument of [setTimeout] *)

(** The process as far as start-up and shutdown go. *)
Record Process := {
  time : Z;                           (* Date.now() *)
  output : list (Stream * json);      (* the console *)
  listening : bool;                   (* the server's handle is open *)
  connections : nat;                  (* connections still open *)
  close_listeners : list Callback;    (* server.once('close', ...) *)
  timers : list (Z * Callback);       (* pending timers and when they are due *)
  exited : option Z;                  (* the code given to process.exit *)
}.

Definition print (out : Stream) (o : json) (p : Process) : Process :=
  {| time := time p; output := output p ++ [(out, o)]; listening := listening p;
     connections := connections p; close_listeners := close_listeners p;
     timers := timers p; exited := exited p |}.

(** [process.exit(code)] *)
Definition process_exit (c : Z) (p : Process) : Process :=
  {| time := time p; output := output p; listening := listening p;
     connections := connections p; close_listeners := close_listeners p;
     timers := timers p; exited := Some c |}.

(** [server.close(cb)]: the handle is closed, so that no new connection is
    accepted, and [cb] waits for the close event. *)
Definition server_close (cb : Callback) (p : Process) : Process :=
  {| time := time p; output := output p; listening := false;
     connections := connections p; close_listeners := close_listeners p ++ [cb];
     timers := timers p; exited := exited p |}.

(** [setTimeout(cb, ms).unref()]: an unreferenced timer fires like any
    other while the process lives. *)
Definition setTimeout (cb : Callback) (ms : Z) (p : Process) : Process :=
  {| time := time p; output := output p; listening := listening p;
     connections := connections p; close_listeners := close_listeners p;
     timers := timers p ++ [(time p + ms, cb)]; exited := exited p |}.

Definition at_time (t : Z) (p : Process) : Process :=
  {| time := t; output := output p; listening := listening p;
     connections := connections p; close_listeners := close_listeners p;
     timers := timers p; exited := exited p |}.

Definition with_connections (n : nat) (p : Process) : Process :=
  {| time := time p; output := output p; listening := listening p;
     connections := n; close_listeners := close_listeners p;
     timers := timers p; exited := exited p |}.

Definition with_close_listeners (l : list Callback) (p : Process) : Process :=
  {| time := time p; output := output p; listening := listening p;
     connections := connections p; close_listeners := l;
     timers := timers p; exited := exited p |}.

Definition with_timers (l : list (Z * Callback)) (p : Process) : Process :=
  {| time := time p; output := output p; listening := listening p;
     connections := connections p; close_listeners := close_listeners p;
     timers := l; exited := exited p |}.

Section Lifecycle.

Context (env : Env).

Definition startup_entry (now : Z) : json :=
  object [
    ("service", Some (JStr "gateway"));
    ("level", Some (JStr "info"));
    ("message",
     Some (JStr ("Gateway listening on port " ++ pretty (gatewayPort env)
                 ++ ", forwarding to " ++ backendUrl env)));
    ("port", Some (JNum (gatewayPort env)));
    ("backendUrl", Some (JStr (backendUrl env)));
    ("timestamp", Some (JStr (toISOString env now)))
  ].

Definition signal_entry (signal : Signal) (now : Z) : json :=
  object [
    ("service", Some (JStr "gateway"));
    ("level", Some (JStr "info"));
    ("message",
     Some (JStr ("Received " ++ signal_name signal ++ ", shutting down gracefully")));
    ("signal", Some (JStr (signal_name signal)));
    ("timestamp", Some (JStr (toISOString env now)))
  ].

Definition closed_entry (now : Z) : json :=
  object [
    ("service", Some (JStr "gateway"));
    ("level", Some (JStr "info"));
    ("message", Some (JStr "HTTP server closed"));
    ("timestamp", Some (JStr (toISOString env now)))
  ].

Definition forced_entry (now : Z) : json :=
  object [
    ("service", Some (JStr "gateway"));
    ("level", Some (JStr "error"));
    ("message", Some (JStr "Force exiting after 10 seconds"));
    ("timestamp", Some (JStr (toISOString env now)))
  ].

(** The process once [app.listen] has called back. *)
Definition listen (t : Z) : Process :=
  {| time := t; output := [(Stdout, startup_entry t)]; listening := true;
     connections := 0; close_listeners := []; timers := []; exited := None |}.

Definition shutdown (signal : Signal) (p : Process) : Process :=
  let p := print Stdout (signal_entry signal (time p)) p in
  let p := server_close OnClosed p in
  setTimeout ForceExit 10000 p.

(** The bodies of the two callbacks. *)
Definition run_callback (cb : Callback) (p : Process) : Process :=
  match cb with
  | OnClosed => process_exit 0 (print Stdout (closed_entry (time p)) p)
  | ForceExit => process_exit 1 (print Stderr (forced_entry (time p)) p)
  end.

(** Listeners run in the order they were added, until one ends the
    process. *)
Fixpoint run_listeners (cbs : list Callback) (p : Process) : Process :=
  match cbs with
  | [] => p
  | cb :: r =>
      match exited p with
      | Some _ => p
      | None => run_listeners r (run_callback cb p)
      end
  end.

(** The server emits close once its handle is closed and its last
    connection has ended. *)
Definition emit_close_if_drained (p : Process) : Process :=
  if (listening p || negb (Nat.eqb (connections p) 0))%bool then p
  else run_listeners (close_listeners p) (with_close_listeners [] p).

(** The timer that is due first, the older one among equals, and the
    timers left. *)
Fixpoint earliest (ts : list (Z * Callback))
    : option (Z * Callback * list (Z * Callback)) :=
  match ts with
  | [] => None
  | (d, cb) :: r =>
      match earliest r with
      | Some (d', cb', r') =>
          if d' <? d then Some (d', cb', (d, cb) :: r') else Some (d, cb, r)
      | None => Some (d, cb, r)
      end
  end.

(** Time passes until [t]; the timers due by then fire one after the
    other, each at its own time. *)
Fixpoint advance (fuel : nat) (t : Z) (p : Process) : Process :=
  match exited p with
  | Some _ => p
  | None =>
      match fuel, earliest (timers p) with
      | S n, Some (d, cb, r) =>
          if d <=? t then
            advance n t (run_callback cb (with_timers r (at_time (Z.max (time p) d) p)))
          else at_time t p
      | _, _ => at_time t p
      end
  end.

(** What happens to the process from outside. *)
Inductive Event :=
  | Signalled (sig : Signal)
  | Connected                 (* a client connects *)
  | Disconnected              (* an open connection ends *)
  | Elapsed (ms : N).         (* time passes *)

Definition step (ev : Event) (p : Process) : Process :=
  match exited p with
  | Some _ => p
  | None =>
      match ev with
      | Signalled sig => emit_close_if_drained (shutdown sig p)
      | Connected =>
          if listening p then with_connections (S (connections p)) p else p
      | Disconnected =>
          match connections p with
          | O => p
          | S n => emit_close_if_drained (with_connections n p)
          end
      | Elapsed ms => advance (length (timers p)) (time p + Z.of_N ms) p
      end
  end.

Definition run_events (evs : list Event) (p : Process) : Process :=
  fold_left (fun p ev => step ev p) evs p.

(** The time that passes in a list of events. *)
Definition duration (evs : list Event) : Z :=
  fold_right (fun ev t => match ev with Elapsed ms => Z.of_N ms + t | _ => t end) 0 evs.

Definition is_signal (ev : Event) : bool :=
  match ev with
  | Signalled _ => true
  | _ => false
  end.

(** A process that serves: it listens, and no shutdown is under way. *)
Definition serving (p : Process) : Prop :=
  exited p = None /\ listening p = true /\ close_listeners p = [] /\ timers p = [].

(** A shutdown begun at [t0] with [n] connections open: what holds of the
    process from then on. *)
Definition shutting_down (t0 : Z) (n : nat) (p : Process) : Prop :=
  listening p = false
  /\ (connections p <= n)%nat
  /\ match exited p with
     | None =>
         (0 < connections p)%nat
         /\ t0 <= time p < t0 + 10000
         /\ (exists l, close_listeners p = OnClosed :: l)
         /\ (exists r, timers p = (t0 + 10000, ForceExit) :: r
                       /\ Forall (fun x => t0 + 10000 <= fst x) r)
     | Some c =>
         (c = 0 /\ connections p = 0%nat /\ t0 <= time p < t0 + 10000
          /\ last (output p) = Some (Stdout, closed_entry (time p)))
         \/ (c = 1 /\ (0 < connections p)%nat /\ time p = t0 + 10000
             /\ last (output p) = Some (Stderr, forced_entry (time p)))
     end.

Lemma earliest_head d cb r :
  Forall (fun x : Z * Callback => d <= fst x) r ->
  earliest ((d, cb) :: r) = Some (d, cb, r).
Proof.
  intros H. cbn [earliest].
  destruct (earliest r) as [[[d' cb'] r']|] eqn:E; [|reflexivity].
  assert (Hd : d <= d').
  { clear cb. revert d' cb' r' E. induction H as [|[d1 c1] r1 H1 H IH]; intros d' cb' r' E.
    - discriminate E.
    - cbn [earliest] in E. cbn [fst] in H1.
      destruct (earliest r1) as [[[d2 c2] r2]|] eqn:E2.
      + destruct (d2 <? d1) eqn:L; injection E as <- <- <-.
        * exact (IH _ _ _ eq_refl).
        * exact H1.
      + injection E as <- <- <-. exact H1. }
  apply Z.ltb_ge in Hd. now rewrite Hd.
Qed.

Lemma step_exited ev p c : exited p = Some c -> step ev p = p.
Proof. intros H. unfold step. now rewrite H. Qed.

Lemma run_events_exited evs p c : exited p = Some c -> run_events evs p = p.
Proof.
  intros H. induction evs as [|ev evs IH]; [reflexivity|].
  cbn [run_events fold_left]. rewrite (step_exited ev p c H). exact IH.
Qed.

Lemma advance_exited n t p c : exited p = Some c -> advance n t p = p.
Proof. intros H. destruct n; cbn [advance]; now rewrite H. Qed.

Lemma advance_step n t p d cb r :
  exited p = None ->
  earliest (timers p) = Some (d, cb, r) ->
  advance (S n) t p
  = if d <=? t then
      advance n t (run_callback cb (with_timers r (at_time (Z.max (time p) d) p)))
    else at_time t p.
Proof. intros Hex He. cbn [advance]. now rewrite Hex, He. Qed.

Lemma advance_idle n t p :
  exited p = None -> timers p = [] -> advance n t p = at_time t p.
Proof. intros Hex Ht. destruct n; cbn [advance]; rewrite Hex, ?Ht; reflexivity. Qed.

(** The signal starts the shutdown. *)
Lemma signal_starts_shutdown sig p :
  serving p ->
  shutting_down (time p) (connections p) (step (Signalled sig) p).
Proof.
  intros (Hex & Hl & Hcl & Ht). unfold step. rewrite Hex.
  unfold emit_close_if_drained, shutdown.
  cbn [listening connections close_listeners setTimeout server_close print orb].
  rewrite Hcl, app_nil_l. destruct (connections p) as [|n] eqn:Hn; cbn [Nat.eqb negb].
  - cbn [run_listeners exited with_close_listeners setTimeout server_close print].
    rewrite Hex. unfold shutting_down. cbn. rewrite Hn.
    split; [reflexivity|]. split; [lia|]. left.
    rewrite last_snoc. repeat split; lia.
  - unfold shutting_down. cbn. rewrite Hn, Hex, Hcl, Ht.
    split; [reflexivity|]. split; [lia|].
    split; [lia|]. split; [lia|]. split; [now exists []|].
    exists []. split; [reflexivity|constructor].
Qed.

Lemma signal_time sig p : serving p -> time (step (Signalled sig) p) = time p.
Proof.
  intros (Hex & Hl & Hcl & Ht). unfold step. rewrite Hex.
  unfold emit_close_if_drained, shutdown.
  cbn [listening connections close_listeners setTimeout server_close print orb].
  rewrite Hcl, app_nil_l. destruct (connections p); cbn [Nat.eqb negb]; [|reflexivity].
  cbn [run_listeners exited with_close_listeners setTimeout server_close print].
  now rewrite Hex.
Qed.

(** Every event keeps the shutdown on its course. *)
Lemma step_shutting_down t0 n ev p :
  shutting_down t0 n p -> shutting_down t0 n (step ev p).
Proof.
  intros Hp. destruct (exited p) as [c|] eqn:Hex.
  { now rewrite (step_exited ev p c Hex). }
  pose proof Hp as (Hl & Hle & Hrest). rewrite Hex in Hrest.
  destruct Hrest as (Hpos & Htime & (l & Hcl) & (r & Htim & Hr)).
  unfold step. rewrite Hex. destruct ev as [sig| | |ms].
  - (* a further signal *)
    unfold emit_close_if_drained, shutdown.
    cbn [listening connections close_listeners setTimeout server_close print orb time timers].
    destruct (connections p) as [|k] eqn:Hk; [lia|]. cbn [Nat.eqb negb].
    unfold shutting_down.
    cbn [listening connections close_listeners timers exited time output
         setTimeout server_close print].
    rewrite Hk, Hex, Hcl, Htim.
    split; [reflexivity|]. split; [exact Hle|].
    split; [lia|]. split; [exact Htime|]. split; [now eexists|].
    eexists. split; [reflexivity|].
    apply Forall_app. split; [exact Hr|]. repeat constructor. cbn. lia.
  - (* a client connects: refused *)
    now rewrite Hl.
  - (* a connection ends *)
    destruct (connections p) as [|k] eqn:Hk; [lia|].
    unfold emit_close_if_drained.
    cbn [listening connections close_listeners with_connections]. rewrite Hl, Hcl.
    destruct k as [|k]; cbn [Nat.eqb negb orb].
    + cbn [run_listeners exited with_close_listeners with_connections]. rewrite Hex.
      assert (Hdone :
        exited (run_callback OnClosed (with_close_listeners [] (with_connections 0 p)))
        = Some 0) by reflexivity.
      replace (run_listeners l _)
        with (run_callback OnClosed (with_close_listeners [] (with_connections 0 p)))
        by (destruct l; [reflexivity|cbn [run_listeners]; now rewrite Hdone]).
      unfold shutting_down. cbn. split; [exact Hl|]. split; [lia|]. left.
      rewrite last_snoc. repeat split; lia.
    + unfold shutting_down.
      cbn [listening connections close_listeners timers exited time with_connections].
      rewrite Hex, Hcl, Htim.
      split; [exact Hl|]. split; [lia|].
      split; [lia|]. split; [exact Htime|]. split; [now eexists|].
      eexists. split; [reflexivity|exact Hr].
  - (* time passes *)
    assert (He : earliest (timers p) = Some (t0 + 10000, ForceExit, r))
      by (rewrite Htim; now apply earliest_head).
    replace (length (timers p)) with (S (length r)) by (now rewrite Htim).
    rewrite (advance_step _ _ _ _ _ _ Hex He).
    destruct (t0 + 10000 <=? time p + Z.of_N ms) eqn:Hdue.
    + rewrite (advance_exited _ _ _ 1) by reflexivity.
      unfold shutting_down. cbn. split; [exact Hl|]. split; [exact Hle|]. right.
      rewrite last_snoc, Z.max_r by lia. repeat split; lia.
    + apply Z.leb_gt in Hdue.
      unfold shutting_down.
      cbn [listening connections close_listeners timers exited time at_time].
      rewrite Hex, Hcl, Htim.
      split; [exact Hl|]. split; [exact Hle|].
      split; [exact Hpos|]. split; [lia|]. split; [now eexists|].
      eexists. split; [reflexivity|exact Hr].
Qed.

Lemma run_shutting_down t0 n evs p :
  shutting_down t0 n p -> shutting_down t0 n (run_events evs p).
Proof.
  revert p. induction evs as [|ev evs IH]; intros p Hp; [exact Hp|].
  cbn [run_events fold_left]. apply IH. now apply step_shutting_down.
Qed.

(** While the process lives, its clock has moved by the time that
    passed. *)
Lemma time_while_alive t0 n evs p :
  shutting_down t0 n p ->
  exited (run_events evs p) = None ->
  time (run_events evs p) = time p + duration evs.
Proof.
  revert p. induction evs as [|ev evs IH]; intros p Hp Halive.
  - cbn. lia.
  - cbn [run_events fold_left] in *. fold (run_events evs (step ev p)) in *.
    pose proof (step_shutting_down t0 n ev p Hp) as Hp'.
    rewrite (IH _ Hp' Halive).
    destruct (exited (step ev p)) as [c|] eqn:Hex'.
    { rewrite (run_events_exited evs _ c Hex') in Halive. congruence. }
    destruct (exited p) as [c|] eqn:Hex.
    { rewrite (step_exited ev p c Hex) in Hex'. congruence. }
    assert (Hstep : time (step ev p) = time p + match ev with Elapsed ms => Z.of_N ms | _ => 0 end).
    { pose proof Hp as (Hl & Hle & Hrest). rewrite Hex in Hrest.
      destruct Hrest as (Hpos & Htime & (l & Hcl) & (r & Htim & Hr)).
      revert Hex'. unfold step. rewrite Hex. destruct ev as [sig| | |ms].
      - unfold emit_close_if_drained, shutdown.
        cbn [listening connections close_listeners setTimeout server_close print orb].
        destruct (connections p) as [|k]; [lia|]. cbn. lia.
      - rewrite Hl. lia.
      - destruct (connections p) as [|k]; [lia|].
        unfold emit_close_if_drained.
        cbn [listening connections close_listeners with_connections]. rewrite Hl, Hcl.
        destruct k as [|k]; cbn [Nat.eqb negb orb].
        + cbn [run_listeners exited with_close_listeners with_connections]. rewrite Hex.
          destruct l; cbn; discriminate.
        + cbn. lia.
      - assert (He : earliest (timers p) = Some (t0 + 10000, ForceExit, r))
          by (rewrite Htim; now apply earliest_head).
        replace (length (timers p)) with (S (length r)) by (now rewrite Htim).
        rewrite (advance_step _ _ _ _ _ _ Hex He).
        destruct (t0 + 10000 <=? time p + Z.of_N ms).
        + rewrite (advance_exited _ _ _ 1) by reflexivity. discriminate.
        + cbn. lia. }
    rewrite Hstep. cbn [duration fold_right]. fold (duration evs).
    destruct ev; lia.
Qed.

Lemma step_serving ev p :
  is_signal ev = false -> serving p ->
  serving (step ev p) /\ output (step ev p) = output p.
Proof.
  intros Hev (Hex & Hl & Hcl & Ht). unfold step. rewrite Hex.
  destruct ev as [sig| | |ms]; [discriminate Hev|..].
  - rewrite Hl. now repeat split.
  - destruct (connections p) as [|k]; [now repeat split|].
    unfold emit_close_if_drained. cbn [listening with_connections]. rewrite Hl.
    now repeat split.
  - rewrite (advance_idle _ _ _ Hex Ht). now repeat split.
Qed.

(** X16.  Without a signal the process goes on serving: whatever clients
    connect and disconnect and however much time passes, it does not exit,
    it keeps listening, and it writes nothing more to the console. *)
Theorem no_exit_without_signal evs p :
  serving p ->
  forallb (fun ev => negb (is_signal ev)) evs = true ->
  serving (run_events evs p) /\ output (run_events evs p) = output p.
Proof.
  revert p. induction evs as [|ev evs IH]; intros p Hp Hq; [now split|].
  cbn [forallb] in Hq. apply andb_true_iff in Hq as [Hev Hq].
  apply negb_true_iff in Hev.
  destruct (step_serving ev p Hev Hp) as [Hs Ho].
  cbn [run_events fold_left]. destruct (IH _ Hs Hq) as [Hs' Ho'].
  split; [exact Hs'|]. unfold run_events in Ho'. now rewrite Ho'.
Qed.

(** X17.  After SIGINT or SIGTERM the server accepts no new connection,
    and the process ends in one of two ways only: with code 0, as soon as
    the last open connection has ended (at once if there is none), the line
    HTTP server closed being the last on standard output; or with code 1,
    exactly 10000 milliseconds after the first signal, while connections
    are still open, the line Force exiting after 10 seconds being the last
    on standard error.  Further signals do not move the deadline.  Until
    then connections are open and less than ten seconds have passed. *)
Theorem shutdown_outcome sig evs p :
  serving p ->
  let p' := run_events (Signalled sig :: evs) p in
  listening p' = false
  /\ (connections p' <= connections p)%nat
  /\ match exited p' with
     | None =>
         (0 < connections p')%nat
         /\ time p' = time p + duration evs
         /\ time p' < time p + 10000
     | Some c =>
         (c = 0 /\ connections p' = 0%nat /\ time p <= time p' < time p + 10000
          /\ last (output p') = Some (Stdout, closed_entry (time p')))
         \/ (c = 1 /\ (0 < connections p')%nat /\ time p' = time p + 10000
             /\ last (output p') = Some (Stderr, forced_entry (time p')))
     end.
Proof.
  intros Hp. cbv zeta. cbn [run_events fold_left].
  fold (run_events evs (step (Signalled sig) p)).
  pose proof (signal_starts_shutdown sig p Hp) as H1.
  pose proof (run_shutting_down _ _ evs _ H1) as (Hl & Hle & Hrest).
  split; [exact Hl|]. split; [exact Hle|].
  destruct (exited (run_events evs (step (Signalled sig) p))) as [c|] eqn:Hex.
  - exact Hrest.
  - destruct Hrest as (Hpos & Htime & _).
    split; [exact Hpos|].
    pose proof (signal_time sig p Hp) as Ht1.
    rewrite (time_while_alive _ _ evs _ H1 Hex), Ht1 in *. lia.
Qed.

(** X18.  A shutdown never takes longer than ten seconds: once that much
    time has passed since the signal, the process has exited, with code 0
    or 1. *)
Theorem shutdown_within_ten_seconds sig evs p :
  serving p ->
  10000 <= duration evs ->
  exited (run_events (Signalled sig :: evs) p) = Some 0
  \/ exited (run_events (Signalled sig :: evs) p) = Some 1.
Proof.
  intros Hp Hd. cbn [run_events fold_left].
  fold (run_events evs (step (Signalled sig) p)).
  pose proof (signal_starts_shutdown sig p Hp) as H1.
  pose proof (run_shutting_down _ _ evs _ H1) as (_ & _ & Hrest).
  destruct (exited (run_events evs (step (Signalled sig) p))) as [c|] eqn:Hex.
  - destruct Hrest as [(-> & _)|(-> & _)]; auto.
  - exfalso. destruct Hrest as (_ & Htime & _).
    pose proof (signal_time sig p Hp) as Ht1.
    rewrite (time_while_alive _ _ evs _ H1 Hex), Ht1 in Htime. lia.
Qed.

End Lifecycle.

(** A gateway started at some time, with one client connected. *)
Definition one_client : Process :=
  run_events Sample.env [Connected] (listen Sample.env 1700000000000).

(** X16, witness: clients come and go for an hour. *)
Lemma no_exit_without_signal_witness :
  exited (run_events Sample.env
            [Connected; Elapsed 1800000; Disconnected; Elapsed 1800000; Disconnected]
            one_client) = None.
Proof.
  destruct (no_exit_without_signal Sample.env
              [Connected; Elapsed 1800000; Disconnected; Elapsed 1800000; Disconnected]
              one_client) as [(H & _) _].
  - repeat split.
  - reflexivity.
  - exact H.
Defined.

(** X17, witness: SIGTERM with one connection open, which ends four
    seconds later. *)
Lemma shutdown_outcome_witness :
  listening (run_events Sample.env
               [Signalled SIGTERM; Elapsed 4000; Connected; Disconnected] one_client)
  = false
  /\ connections (run_events Sample.env
                    [Signalled SIGTERM; Elapsed 4000; Connected; Disconnected] one_client)
     = 0%nat.
Proof.
  destruct (shutdown_outcome Sample.env SIGTERM [Elapsed 4000; Connected; Disconnected]
              one_client) as (Hl & Hle & Hrest).
  - repeat split.
  - split; [exact Hl|].
    destruct Hrest as [(_ & Hc & _)|(Hc & _)]; [exact Hc|discriminate Hc].
Defined.

(** X18, witness: the connection stays open, a second signal comes after
    six seconds. *)
Lemma shutdown_within_ten_seconds_witness :
  exited (run_events Sample.env
            [Signalled SIGINT; Elapsed 6000; Signalled SIGINT; Elapsed 4000] one_client)
  = Some 1.
Proof.
  destruct (shutdown_within_ten_seconds Sample.env SIGINT
              [Elapsed 6000; Signalled SIGINT; Elapsed 4000] one_client) as [H|H].
  - repeat split.
  - vm_compute. discriminate.
  - discriminate H.
  - exact H.
Defined.

(** * Counted, but not forwarded *)

Section MountAndRoute.

Context (env : Env).

(** X19.  The limiter is mounted before the body parser and on a wider
    path than the route: a request below [/api] that the limiter lets
    through is counted against its client even when it never reaches the
    backend, be it that the parser rejects the body (the client is answered
    the error page with the parser's status) or that the [/api/*] route does
    not match the path (404). *)
Theorem counted_but_not_forwarded a s :
  under_api_mount (route a) = true ->
  admitted (window_of a s) = true ->
  reaches_proxy a s = None ->
  let s' := snd (app env a s) in
  let st := match parsed a with ParseError st => st | Parsed _ => 404 end in
  windows s' = <[ip (raw a) := window_of a s]> (windows s)
  /\ upstream s' = upstream s
  /\ statusCode (res s') = st
  /\ resBody (res s') = Some (html_document env st).
Proof.
  intros Hm Ha Hnone. cbv zeta.
  rewrite (app_local env a s (fun _ => Ha)).
  2:{ intros b Hp Hr. unfold reaches_proxy in Hnone. now rewrite Hr, Hp, Ha in Hnone. }
  unfold answered_locally, entry. rewrite Hm.
  cbn [snd logged set_res windows upstream res counted set_windows].
  unfold local_answer. unfold reaches_proxy in Hnone.
  destruct (parsed a) as [b|st].
  - destruct (route a) as [| |m].
    + now rewrite Ha in Hnone.
    + discriminate Hm.
    + repeat split.
  - repeat split.
Qed.

End MountAndRoute.

(** X19, witness: a body that is not JSON, posted below [/api]. *)
Lemma counted_but_not_forwarded_witness :
  statusCode (res (snd (app Sample.env
                          {| raw := Sample.get_items; route := Api; uuid := "0000";
                             parsed := ParseError 400;
                             backend := fun _ => Sample.answers Sample.not_found |}
                          Sample.idle))) = 400.
Proof.
  destruct (counted_but_not_forwarded Sample.env
              {| raw := Sample.get_items; route := Api; uuid := "0000";
                 parsed := ParseError 400;
                 backend := fun _ => Sample.answers Sample.not_found |}
              Sample.idle eq_refl eq_refl eq_refl) as (_ & _ & H & _).
  exact H.
Defined.

(** * The lines written are single lines *)

(** No character of the text is a control character (a line feed, a
    carriage return, ...). *)
Definition single_line (s : string) : bool :=
  forallb (fun c => Nat.leb 32 (nat_of_ascii c)) (list_ascii_of_string s).

Section JsonInduction.

Variable P : json -> Prop.
Hypothesis HNull : P JNull.
Hypothesis HBool : forall b, P (JBool b).
Hypothesis HNum : forall n, P (JNum n).
Hypothesis HStr : forall s, P (JStr s).
Hypothesis HArr : forall l, Forall P l -> P (JArr l).
Hypothesis HObj : forall fs, Forall (fun kv => P (snd kv)) fs -> P (JObj fs).

Fixpoint json_induction (v : json) : P v :=
  match v with
  | JNull => HNull
  | JBool b => HBool b
  | JNum n => HNum n
  | JStr s => HStr s
  | JArr l =>
      HArr l
        ((fix items (l : list json) : Forall P l :=
            match l with
            | [] => @List.Forall_nil _ P
            | x :: r => @List.Forall_cons _ P x r (json_induction x) (items r)
            end) l)
  | JObj fs =>
      HObj fs
        ((fix fields (fs : list (string * json)) : Forall (fun kv => P (snd kv)) fs :=
            match fs with
            | [] => @List.Forall_nil _ (fun kv => P (snd kv))
            | (k, x) :: r =>
                @List.Forall_cons _ (fun kv => P (snd kv)) (k, x) r
                  (json_induction x) (fields r)
            end) fs)
  end.

End JsonInduction.

Lemma single_line_app s1 s2 :
  single_line (s1 ++ s2) = (single_line s1 && single_line s2)%bool.
Proof.
  unfold single_line. induction s1 as [|c s1 IH]; [reflexivity|].
  change (list_ascii_of_string (String c s1 ++ s2))
    with (c :: list_ascii_of_string (s1 ++ s2)).
  cbn [list_ascii_of_string forallb]. now rewrite IH, andb_assoc.
Qed.

Lemma single_line_escape_char c : single_line (escape_char c) = true.
Proof. destruct c as [[] [] [] [] [] [] [] []]; reflexivity. Qed.

Lemma single_line_escape s : single_line (escape s) = true.
Proof.
  induction s as [|c s IH]; [reflexivity|].
  cbn [escape]. now rewrite single_line_app, single_line_escape_char, IH.
Qed.

Lemma single_line_quote s : single_line (quote s) = true.
Proof.
  unfold quote. change (String dquote ?x) with (String dquote "" ++ x).
  now rewrite !single_line_app, single_line_escape.
Qed.

Lemma single_line_digits x s :
  single_line s = true -> single_line (pretty_N_go x s) = true.
Proof.
  revert s. induction (N.lt_wf_0 x) as [x _ IH]; intros s Hs.
  destruct (decide (0 < x)%N) as [Hx|Hx].
  - rewrite pretty_N_go_step by exact Hx. apply IH; [now apply N.div_lt|].
    change (String ?c s) with (String c "" ++ s). rewrite single_line_app, Hs.
    unfold pretty_N_char. now repeat case_match.
  - replace x with 0%N by lia. now rewrite pretty_N_go_0.
Qed.

Lemma single_line_number (n : Z) : single_line (pretty n) = true.
Proof.
  assert (H : forall x : N, single_line (pretty x) = true).
  { intros x. unfold pretty, pretty_N. case_decide; [reflexivity|].
    now apply single_line_digits. }
  destruct n as [|p|p]; [reflexivity|apply H|].
  change (pretty (Z.neg p)) with ("-" ++ pretty (N.pos p)).
  now rewrite single_line_app, H.
Qed.

Lemma single_line_join l :
  Forall (fun s => single_line s = true) l -> single_line (join "," l) = true.
Proof.
  induction 1 as [|s l Hs Hl IH]; [reflexivity|].
  destruct l as [|s' l]; [exact Hs|].
  change (join "," (s :: s' :: l)) with (s ++ "," ++ join "," (s' :: l)).
  now rewrite !single_line_app, Hs, IH.
Qed.

(** X20.  Whatever a log entry holds (a URL, a header value, an upstream
    error message, with line feeds or other control characters in it), the
    line [JSON.stringify] makes of it has no control character: each entry
    is one line of the log. *)
Theorem log_line_is_one_line v : single_line (stringify v) = true.
Proof.
  induction v as [| [] | n | s | l IH | fs IH] using json_induction;
    try reflexivity.
  - apply single_line_number.
  - apply single_line_quote.
  - change (stringify (JArr l)) with ("[" ++ join "," (map stringify l) ++ "]").
    rewrite !single_line_app, single_line_join; [reflexivity|].
    induction IH; constructor; assumption.
  - change (stringify (JObj fs))
      with ("{" ++ join "," (map (fun kv => quote (fst kv) ++ ":" ++ stringify (snd kv)) fs)
            ++ "}").
    rewrite !single_line_app, single_line_join; [reflexivity|].
    induction IH as [|[k x] r Hx Hr IHr]; constructor; [|exact IHr].
    cbn [fst snd] in *. now rewrite !single_line_app, single_line_quote, Hx.
Qed.
